(** * ThunderOS: the VFS layer and the ext2 mount path

    A shallow embedding of [kernel/fs/vfs.c], [kernel/fs/ext2_super.c] and
    [kernel/fs/ext2_write.c], and of the console code:
    [kernel/drivers/uart.c] and [tests/framework/kunit.c].

    Conventions.
    - C integers are [Z]; [uint32_t] arithmetic is reduced with [u32], the
      conversion of a [uint32_t] to [int] with [s32].
    - A C string is the Rocq [string] of its characters before the
      terminating NUL; a [const char *] that may be NULL is an
      [option string].
    - Pointers to nodes and operation tables are [nat]; a pointer that may
      be NULL is an [option nat].
    - Dereferencing NULL, or a node pointer that is not in the node store, is
      undefined behaviour in C: the embedding answers [Fault].  So do a
      division by zero and an out-of-range shift.
    - [hal_uart_puts] and its siblings only write to the console; the
      console is not part of the state of the filesystem code.  The UART
      driver and the test runner are modelled with the device registers
      as their state. *)

From stdpp Require Import base option list gmap strings.
From Stdlib Require Import ZArith Lia.
From Stdlib.Strings Require Import Ascii Byte.

Open Scope Z_scope.

(** ** Machine arithmetic and outcomes *)

Module C.

Definition u32 (z : Z) : Z := z mod 2 ^ 32.

(** Conversion of a 32-bit pattern to [int] (two's complement). *)
Definition s32 (z : Z) : Z :=
  let r := z mod 2 ^ 32 in
  if r <? 2 ^ 31 then r else r - 2 ^ 32.

(** The result of running a C function: it returns, it hits undefined
    behaviour, or the bounded loop of the embedding ran out of steps. *)
Inductive outcome (A : Type) : Type :=
| Done (a : A)
| Fault
| OutOfFuel.

Arguments Done {A} a.
Arguments Fault {A}.
Arguments OutOfFuel {A}.

Definition bind {A B : Type} (m : outcome A) (k : A -> outcome B) : outcome B :=
  match m with
  | Done a => k a
  | Fault => Fault
  | OutOfFuel => OutOfFuel
  end.

End C.

Export C.

(** ** Open flags

    Modelled from the spec: [include/fs/vfs.h] is not part of the sources;
    the flag values are the ones of the specification's "Open flags" list. *)

Definition O_RDONLY : Z := 0.
Definition O_WRONLY : Z := 1.
Definition O_RDWR : Z := 2.
Definition O_CREAT : Z := 0x100.
Definition O_TRUNC : Z := 0x200.
Definition O_APPEND : Z := 0x400.

(** C truth of [flags & bit]. *)
Definition flag_set (flags bit : Z) : bool := negb (Z.land flags bit =? 0).

(** ** The constants of [vfs.h] the code uses but the sources do not define

    The table size and the three [whence] codes are parameters.  The code
    itself fixes two facts about them: [vfs_init] writes rows 0, 1 and 2, so
    the table has at least three rows, and the three [case] labels of
    [vfs_seek] are distinct. *)

Class VfsHeader : Type := {
  VFS_MAX_OPEN_FILES : Z;
  SEEK_SET : Z;
  SEEK_CUR : Z;
  SEEK_END : Z;
  vfs_max_reserved : 3 <= VFS_MAX_OPEN_FILES;
  seek_set_cur : SEEK_SET <> SEEK_CUR;
  seek_set_end : SEEK_SET <> SEEK_END;
  seek_cur_end : SEEK_CUR <> SEEK_END
}.

Definition VFS_FD_STDIN : nat := 0.
Definition VFS_FD_STDOUT : nat := 1.
Definition VFS_FD_STDERR : nat := 2.

(** ** Data model *)

(** [vfs_node_t]: the fields [vfs.c] reads and writes. *)
Record vfs_node_t : Type := mk_node {
  type : Z;
  size : Z;
  ops : option nat
}.

(** [vfs_file_t]: one row of the descriptor table. *)
Record vfs_file_t : Type := mk_file {
  node : option nat;
  flags : Z;
  pos : Z;
  in_use : bool
}.

(** [vfs_filesystem_t]: name and root node. *)
Record vfs_filesystem_t : Type := mk_fs {
  name : string;
  root : option nat
}.

(** What a filesystem implementation can reach: the node store, the
    kernel-wide [errno] slot and its own private data (with the caller's
    buffers).  The descriptor table and [g_root_fs] are [static] in
    [vfs.c] and are not part of it. *)
Record world (D : Type) : Type := mk_world {
  nodes : gmap nat vfs_node_t;
  errno : Z;
  fs_data : D
}.

Arguments mk_world {D} _ _ _.
Arguments nodes {D} _.
Arguments errno {D} _.
Arguments fs_data {D} _.

(** [vfs_ops_t]: the table of function pointers; [None] is a NULL entry.
    Buffers are passed by address. *)
Record vfs_ops_t (D : Type) : Type := mk_ops {
  op_lookup : option (world D -> nat -> string -> world D * option nat);
  op_read : option (world D -> nat -> Z -> Z -> Z -> world D * Z);
  op_write : option (world D -> nat -> Z -> Z -> Z -> world D * Z);
  op_open : option (world D -> nat -> Z -> world D * Z);
  op_close : option (world D -> nat -> world D * Z);
  op_create : option (world D -> nat -> string -> Z -> world D * Z);
  op_mkdir : option (world D -> nat -> string -> Z -> world D * Z);
  op_rmdir : option (world D -> nat -> string -> world D * Z);
  op_unlink : option (world D -> nat -> string -> world D * Z)
}.

Arguments mk_ops {D} _ _ _ _ _ _ _ _ _.
Arguments op_lookup {D} _.
Arguments op_read {D} _.
Arguments op_write {D} _.
Arguments op_open {D} _.
Arguments op_close {D} _.
Arguments op_create {D} _.
Arguments op_mkdir {D} _.
Arguments op_rmdir {D} _.
Arguments op_unlink {D} _.

(** The filesystem implementations behind the function pointers: the type
    of their private data and the operation table found at each address. *)
Class Backend : Type := {
  fs_data_t : Type;
  ops_table : nat -> vfs_ops_t fs_data_t
}.

(** The kernel state [vfs.c] runs on. *)
Record kstate `{Backend} : Type := mk_kstate {
  g_file_table : list vfs_file_t;
  g_root_fs : option vfs_filesystem_t;
  env : world fs_data_t
}.

Arguments mk_kstate {_} _ _ _.

(** ** [vfs.c] *)

Module VFS.

Section Code.

Context `{BE : Backend} `{HD : VfsHeader}.

Definition set_table (st : kstate) (t : list vfs_file_t) : kstate :=
  mk_kstate t (g_root_fs st) (env st).

Definition set_env (st : kstate) (w : world fs_data_t) : kstate :=
  mk_kstate (g_file_table st) (g_root_fs st) w.

Definition set_pos (f : vfs_file_t) (p : Z) : vfs_file_t :=
  mk_file (node f) (flags f) p (in_use f).

Definition set_size (n : vfs_node_t) (s : Z) : vfs_node_t :=
  mk_node (type n) s (ops n).

Definition set_nodes (w : world fs_data_t) (m : gmap nat vfs_node_t) : world fs_data_t :=
  mk_world m (errno w) (fs_data w).

(** A cleared row: [node = NULL], [flags = 0], [pos = 0], [in_use = 0]. *)
Definition free_row : vfs_file_t := mk_file None 0 0 false.

(** A row as [vfs_alloc_fd] leaves it. *)
Definition fresh_row : vfs_file_t := mk_file None 0 0 true.

(** [vfs_init]: clear every row, reserve 0, 1 and 2, forget the root. *)
Definition vfs_init (st : kstate) : kstate * Z :=
  let cleared := replicate (Z.to_nat VFS_MAX_OPEN_FILES) free_row in
  let reserved :=
    <[VFS_FD_STDERR := fresh_row]>
      (<[VFS_FD_STDOUT := fresh_row]>
         (<[VFS_FD_STDIN := fresh_row]> cleared)) in
  (mk_kstate reserved None (env st), 0).

(** [vfs_mount_root]. *)
Definition vfs_mount_root (st : kstate) (fs : option vfs_filesystem_t) : kstate * Z :=
  match fs with
  | None => (st, -1)
  | Some f =>
      match root f with
      | None => (st, -1)
      | Some _ => (mk_kstate (g_file_table st) (Some f) (env st), 0)
      end
  end.

(** The [for] loop of [vfs_alloc_fd]: [n] rows are left to look at, from
    row [i] on. *)
Fixpoint alloc_scan (t : list vfs_file_t) (i n : nat) : option nat :=
  match n with
  | O => None
  | S n' =>
      match t !! i with
      | Some f => if in_use f then alloc_scan t (S i) n' else Some i
      | None => None
      end
  end.

(** [vfs_alloc_fd]. *)
Definition vfs_alloc_fd (st : kstate) : kstate * Z :=
  match alloc_scan (g_file_table st) 3 (Z.to_nat (VFS_MAX_OPEN_FILES - 3)) with
  | Some i => (set_table st (<[i := fresh_row]> (g_file_table st)), Z.of_nat i)
  | None => (st, -1)
  end.

(** [vfs_free_fd]. *)
Definition vfs_free_fd (st : kstate) (fd : Z) : kstate :=
  if (0 <=? fd) && (fd <? VFS_MAX_OPEN_FILES)
  then set_table st (<[Z.to_nat fd := free_row]> (g_file_table st))
  else st.

(** [vfs_get_file]: the row of [fd], or NULL. *)
Definition vfs_get_file (st : kstate) (fd : Z) : option vfs_file_t :=
  if (fd <? 0) || (VFS_MAX_OPEN_FILES <=? fd) then None
  else
    match g_file_table st !! Z.to_nat fd with
    | Some f => if in_use f then Some f else None
    | None => None
    end.

Definition is_slash (c : ascii) : bool := Ascii.eqb c "/"%char.

(** The inner loop of [vfs_resolve_path]: copy characters up to the next
    ['/'] or the end, keeping at most 255 of them; [comp_idx] characters
    have been stored so far.  Returns the stored characters and the rest
    of the path. *)
Fixpoint extract_component (path : string) (comp_idx : nat) : string * string :=
  match path with
  | EmptyString => (EmptyString, path)
  | String c rest =>
      if is_slash c then (EmptyString, path)
      else
        if (comp_idx <? 255)%nat
        then let '(comp, rest') := extract_component rest (S comp_idx) in
             (String c comp, rest')
        else extract_component rest comp_idx
  end.

(** [if ( *path == '/') path++]. *)
Definition skip_separator (path : string) : string :=
  match path with
  | String c rest => if is_slash c then rest else path
  | EmptyString => path
  end.

(** The outer loop of [vfs_resolve_path]; every round consumes at least
    one character of [path]. *)
Fixpoint resolve_walk (fuel : nat) (w : world fs_data_t) (current : option nat)
    (path : string) : outcome (world fs_data_t * option nat) :=
  match path with
  | EmptyString => Done (w, current)
  | String _ _ =>
      match fuel with
      | O => OutOfFuel
      | S fuel' =>
          let '(component, path') := extract_component path 0 in
          match component with
          | EmptyString => resolve_walk fuel' w current (skip_separator path')
          | String _ _ =>
              match current with
              | None => Fault
              | Some cur =>
                  match nodes w !! cur with
                  | None => Fault
                  | Some nd =>
                      match ops nd with
                      | None => Done (w, None)
                      | Some o =>
                          match op_lookup (ops_table o) with
                          | None => Done (w, None)
                          | Some lookup =>
                              let '(w', next) := lookup w cur component in
                              match next with
                              | None => Done (w', None)
                              | Some _ =>
                                  resolve_walk fuel' w' next (skip_separator path')
                              end
                          end
                      end
                  end
              end
          end
      end
  end.

(** [vfs_resolve_path]. *)
Definition vfs_resolve_path (st : kstate) (path : option string)
  : outcome (kstate * option nat) :=
  match g_root_fs st with
  | None => Done (st, None)
  | Some fs =>
      match path with
      | None => Done (st, None)
      | Some EmptyString => Done (st, None)
      | Some (String c rest) =>
          if negb (is_slash c) then Done (st, None)
          else
            match rest with
            | EmptyString => Done (st, root fs)
            | String _ _ =>
                bind (resolve_walk (String.length rest) (env st) (root fs) rest)
                     (fun '(w, n) => Done (set_env st w, n))
            end
      end
  end.

(** Assignments through a row pointer: [g_file_table[fd].field = ...]. *)
Definition upd_file (st : kstate) (fd : Z) (g : vfs_file_t -> vfs_file_t) : kstate :=
  set_table st (alter g (Z.to_nat fd) (g_file_table st)).

(** [while ( *p && *p != '/') p++; if ( *p == '/')]. *)
Fixpoint has_slash (p : string) : bool :=
  match p with
  | EmptyString => false
  | String c rest => if is_slash c then true else has_slash rest
  end.

(** The [O_CREAT] block of [vfs_open], entered when the path did not
    resolve.  The mode [0644] is 420.  [inl r]: [vfs_open] returns [r]
    from inside the block; [inr node]: it goes on with [node]. *)
Definition create_missing (st : kstate) (path : string)
  : outcome (kstate * (Z + option nat)) :=
  match path with
  | String c (String _ _ as filename) =>
      if is_slash c then
        if has_slash filename then Done (st, inl (-1))
        else
          match g_root_fs st with
          | None => Fault
          | Some fs =>
              match root fs with
              | None => Fault
              | Some r =>
                  match nodes (env st) !! r with
                  | None => Fault
                  | Some rn =>
                      match ops rn with
                      | None => Done (st, inr None)
                      | Some o =>
                          match op_create (ops_table o) with
                          | None => Done (st, inr None)
                          | Some create =>
                              let '(w, ret) := create (env st) r filename 420 in
                              if ret =? 0
                              then bind (vfs_resolve_path (set_env st w) (Some path))
                                        (fun '(st', n) => Done (st', inr n))
                              else Done (set_env st w, inl (-1))
                          end
                      end
                  end
              end
          end
      else Done (st, inr None)
  | _ => Done (st, inr None)
  end.

(** The [O_TRUNC] and [O_APPEND] tail of [vfs_open]. *)
Definition open_finish (st : kstate) (fd : Z) (n : nat) (fl : Z) : outcome (kstate * Z) :=
  bind (if flag_set fl O_TRUNC
        then match nodes (env st) !! n with
             | None => Fault
             | Some nd =>
                 Done (set_env st (set_nodes (env st)
                                             (<[n := set_size nd 0]> (nodes (env st)))))
             end
        else Done st)
       (fun st1 =>
          if flag_set fl O_APPEND
          then match nodes (env st1) !! n with
               | None => Fault
               | Some nd => Done (upd_file st1 fd (fun f => set_pos f (size nd)), fd)
               end
          else Done (st1, fd)).

(** [vfs_open] from the allocation of the descriptor on. *)
Definition open_node (st : kstate) (n : nat) (fl : Z) : outcome (kstate * Z) :=
  let '(st1, fd) := vfs_alloc_fd st in
  if fd <? 0 then Done (st1, -1)
  else
    let st2 := upd_file st1 fd (fun f => mk_file (Some n) fl 0 (in_use f)) in
    match nodes (env st2) !! n with
    | None => Fault
    | Some nd =>
        match ops nd with
        | None => open_finish st2 fd n fl
        | Some o =>
            match op_open (ops_table o) with
            | None => open_finish st2 fd n fl
            | Some open =>
                let '(w, ret) := open (env st2) n fl in
                if ret =? 0 then open_finish (set_env st2 w) fd n fl
                else Done (vfs_free_fd (set_env st2 w) fd, -1)
            end
        end
    end.

(** [vfs_open]. *)
Definition vfs_open (st : kstate) (path : option string) (fl : Z) : outcome (kstate * Z) :=
  match path with
  | None => Done (st, -1)
  | Some p =>
      bind (vfs_resolve_path st path)
           (fun '(st1, found) =>
              bind (match found with
                    | None =>
                        if flag_set fl O_CREAT then create_missing st1 p
                        else Done (st1, inr None)
                    | Some _ => Done (st1, inr found)
                    end)
                   (fun '(st2, r) =>
                      match r with
                      | inl ret => Done (st2, ret)
                      | inr None => Done (st2, -1)
                      | inr (Some n) => open_node st2 n fl
                      end))
  end.

(** [vfs_close]. *)
Definition vfs_close (st : kstate) (fd : Z) : outcome (kstate * Z) :=
  match vfs_get_file st fd with
  | None => Done (st, -1)
  | Some file =>
      bind (match node file with
            | None => Done st
            | Some n =>
                match nodes (env st) !! n with
                | None => Fault
                | Some nd =>
                    match ops nd with
                    | None => Done st
                    | Some o =>
                        match op_close (ops_table o) with
                        | None => Done st
                        | Some close => Done (set_env st (fst (close (env st) n)))
                        end
                    end
                end
            end)
           (fun st1 => Done (vfs_free_fd st1 fd, 0))
  end.

(** [vfs_read]. *)
Definition vfs_read (st : kstate) (fd : Z) (buffer : Z) (sz : Z) : outcome (kstate * Z) :=
  match vfs_get_file st fd with
  | None => Done (st, -1)
  | Some file =>
      match node file with
      | None => Done (st, -1)
      | Some n =>
          if flag_set (flags file) O_WRONLY && negb (flag_set (flags file) O_RDWR)
          then Done (st, -1)
          else
            match nodes (env st) !! n with
            | None => Fault
            | Some nd =>
                match ops nd with
                | None => Done (st, -1)
                | Some o =>
                    match op_read (ops_table o) with
                    | None => Done (st, -1)
                    | Some read =>
                        let '(w, bytes_read) := read (env st) n (pos file) buffer sz in
                        let st1 := set_env st w in
                        if 0 <? bytes_read
                        then Done (upd_file st1 fd (fun f => set_pos f (u32 (pos f + bytes_read))),
                                   bytes_read)
                        else Done (st1, bytes_read)
                    end
                end
            end
      end
  end.

(** [vfs_write]. *)
Definition vfs_write (st : kstate) (fd : Z) (buffer : Z) (sz : Z) : outcome (kstate * Z) :=
  match vfs_get_file st fd with
  | None => Done (st, -1)
  | Some file =>
      match node file with
      | None => Done (st, -1)
      | Some n =>
          if flag_set (flags file) O_RDONLY && negb (flag_set (flags file) O_RDWR)
          then Done (st, -1)
          else
            match nodes (env st) !! n with
            | None => Fault
            | Some nd =>
                match ops nd with
                | None => Done (st, -1)
                | Some o =>
                    match op_write (ops_table o) with
                    | None => Done (st, -1)
                    | Some write =>
                        let '(w, bytes_written) := write (env st) n (pos file) buffer sz in
                        let st1 := set_env st w in
                        if 0 <? bytes_written
                        then
                          let new_pos := u32 (pos file + bytes_written) in
                          let st2 := upd_file st1 fd (fun f => set_pos f new_pos) in
                          match nodes w !! n with
                          | None => Fault
                          | Some nd' =>
                              if size nd' <? new_pos
                              then Done (set_env st2 (set_nodes w (<[n := set_size nd' new_pos]> (nodes w))),
                                         bytes_written)
                              else Done (st2, bytes_written)
                          end
                        else Done (st1, bytes_written)
                    end
                end
            end
      end
  end.

(** [vfs_seek]. [new_pos] is a [uint32_t]; the function returns it as an
    [int]. *)
Definition vfs_seek (st : kstate) (fd : Z) (offset : Z) (whence : Z) : outcome (kstate * Z) :=
  match vfs_get_file st fd with
  | None => Done (st, -1)
  | Some file =>
      match node file with
      | None => Done (st, -1)
      | Some n =>
          let finish (new_pos : Z) : outcome (kstate * Z) :=
            Done (upd_file st fd (fun f => set_pos f new_pos), s32 new_pos) in
          if whence =? SEEK_SET then finish (u32 offset)
          else if whence =? SEEK_CUR then finish (u32 (pos file + offset))
          else if whence =? SEEK_END then
            match nodes (env st) !! n with
            | None => Fault
            | Some nd => finish (u32 (size nd + offset))
            end
          else Done (st, -1)
      end
  end.

(** [vfs_mkdir]. *)
Definition vfs_mkdir (st : kstate) (path : option string) (mode : Z) : outcome (kstate * Z) :=
  match g_root_fs st, path with
  | Some fs, Some (String c (String _ _ as dirname)) =>
      if negb (is_slash c) then Done (st, -1)
      else if has_slash dirname then Done (st, -1)
      else
        match root fs with
        | None => Fault
        | Some r =>
            match nodes (env st) !! r with
            | None => Fault
            | Some rn =>
                match ops rn with
                | None => Done (st, -1)
                | Some o =>
                    match op_mkdir (ops_table o) with
                    | None => Done (st, -1)
                    | Some mkdir =>
                        let '(w, ret) := mkdir (env st) r dirname mode in
                        Done (set_env st w, ret)
                    end
                end
            end
        end
  | _, _ => Done (st, -1)
  end.

(** [vfs_rmdir]. *)
Definition vfs_rmdir (st : kstate) (path : option string) : outcome (kstate * Z) :=
  match g_root_fs st, path with
  | Some fs, Some (String c (String _ _ as dirname)) =>
      if negb (is_slash c) then Done (st, -1)
      else
        match root fs with
        | None => Fault
        | Some r =>
            match nodes (env st) !! r with
            | None => Fault
            | Some rn =>
                match ops rn with
                | None => Done (st, -1)
                | Some o =>
                    match op_rmdir (ops_table o) with
                    | None => Done (st, -1)
                    | Some rmdir =>
                        let '(w, ret) := rmdir (env st) r dirname in
                        Done (set_env st w, ret)
                    end
                end
            end
        end
  | _, _ => Done (st, -1)
  end.

(** [vfs_unlink]. *)
Definition vfs_unlink (st : kstate) (path : option string) : outcome (kstate * Z) :=
  match g_root_fs st, path with
  | Some fs, Some (String c (String _ _ as filename)) =>
      if negb (is_slash c) then Done (st, -1)
      else
        match root fs with
        | None => Fault
        | Some r =>
            match nodes (env st) !! r with
            | None => Fault
            | Some rn =>
                match ops rn with
                | None => Done (st, -1)
                | Some o =>
                    match op_unlink (ops_table o) with
                    | None => Done (st, -1)
                    | Some unlink =>
                        let '(w, ret) := unlink (env st) r filename in
                        Done (set_env st w, ret)
                    end
                end
            end
        end
  | _, _ => Done (st, -1)
  end.

(** [vfs_stat].  [want_size] and [want_type] say whether the two out
    pointers are non-NULL; the function returns what it stored through
    them next to its result. *)
Definition vfs_stat (st : kstate) (path : option string) (want_size want_type : bool)
  : outcome (kstate * Z * option Z * option Z) :=
  bind (vfs_resolve_path st path)
       (fun '(st1, found) =>
          match found with
          | None => Done (st1, -1, None, None)
          | Some n =>
              if want_size || want_type
              then match nodes (env st1) !! n with
                   | None => Fault
                   | Some nd =>
                       Done (st1, 0,
                             if want_size then Some (size nd) else None,
                             if want_type then Some (type nd) else None)
                   end
              else Done (st1, 0, None, None)
          end).

(** [vfs_exists]. *)
Definition vfs_exists (st : kstate) (path : option string) : outcome (kstate * Z) :=
  bind (vfs_resolve_path st path)
       (fun '(st1, found) =>
          Done (st1, match found with Some _ => 1 | None => 0 end)).

(** *** The string helpers of [vfs.c]

    These three read their arguments up to the first NUL, so they are
    written for any sequence of characters: the end of the [string] and a
    NUL character both end the C string. *)

(** [(unsigned char)c]. *)
Definition uchar (c : ascii) : Z := Z.of_nat (nat_of_ascii c).

(** [*s]: the first character, 0 at the end. *)
Definition peek (s : string) : Z :=
  match s with
  | EmptyString => 0
  | String c _ => uchar c
  end.

(** [s + 1]. *)
Definition advance (s : string) : string :=
  match s with
  | EmptyString => EmptyString
  | String _ rest => rest
  end.




(** [strcmp]. *)
Fixpoint strcmp (s1 s2 : string) : Z :=
  match s1 with
  | EmptyString => 0 - peek s2
  | String c rest =>
      if negb (uchar c =? 0) && (uchar c =? peek s2)
      then strcmp rest (advance s2)
      else uchar c - peek s2
  end.

(** A sequence of characters without NUL: a C string as it is spelled. *)
Fixpoint nul_free (s : string) : bool :=
  match s with
  | EmptyString => true
  | String c rest => negb (uchar c =? 0) && nul_free rest
  end.

(** A table with [VFS_MAX_OPEN_FILES] rows, as the C array has. *)
(** The node [vfs_open] goes on with: the one [vfs_resolve_path] finds
    for the path, or, when it finds none and [O_CREAT] is set, the one it
    finds on the second try, after the [create] operation of the root
    node was called with the name after the leading ['/'] and mode [0644]
    and returned 0. *)
Definition opened_node (st : kstate) (path : option string) (fl : Z) (n : nat) : Prop :=
  (exists st1, vfs_resolve_path st path = Done (st1, Some n))
  \/ (flag_set fl O_CREAT = true
      /\ exists st1 fs r rn o create nm w st2,
           vfs_resolve_path st path = Done (st1, None)
           /\ path = Some (String "/" nm)
           /\ has_slash nm = false
           /\ g_root_fs st1 = Some fs
           /\ root fs = Some r
           /\ nodes (env st1) !! r = Some rn
           /\ ops rn = Some o
           /\ op_create (ops_table o) = Some create
           /\ create (env st1) r nm 420 = (w, 0)
           /\ vfs_resolve_path (set_env st1 w) path = Done (st2, Some n)).

Definition table_full_size (st : kstate) : Prop :=
  length (g_file_table st) = Z.to_nat VFS_MAX_OPEN_FILES.

(** What [vfs_seek], [vfs_read] and [vfs_write] may do to the table:
    move the position of row [fd]. *)
Definition moved_at_most (st st' : kstate) (fd : Z) : Prop :=
  g_root_fs st' = g_root_fs st
  /\ (forall fd', fd' <> fd -> vfs_get_file st' fd' = vfs_get_file st fd')
  /\ (vfs_get_file st fd = None -> vfs_get_file st' fd = None)
  /\ (forall f, vfs_get_file st fd = Some f ->
        exists p, vfs_get_file st' fd = Some (set_pos f p)).

(** *** What a path means

    A path is spelled from its components with a separator; resolving it
    is a chain of [lookup] calls, one per component; a component enters
    the chain with its first 255 characters. *)

Fixpoint keep (n : nat) (s : string) : string :=
  match n, s with
  | S n', String c rest => String c (keep n' rest)
  | _, _ => EmptyString
  end.

Fixpoint walk_components (w : world fs_data_t) (current : option nat) (cs : list string)
  : outcome (world fs_data_t * option nat) :=
  match cs with
  | [] => Done (w, current)
  | c :: cs' =>
      match current with
      | None => Fault
      | Some cur =>
          match nodes w !! cur with
          | None => Fault
          | Some nd =>
              match ops nd with
              | None => Done (w, None)
              | Some o =>
                  match op_lookup (ops_table o) with
                  | None => Done (w, None)
                  | Some lookup =>
                      let '(w', next) := lookup w cur (keep 255 c) in
                      match next with
                      | None => Done (w', None)
                      | Some _ => walk_components w' next cs'
                      end
                  end
              end
          end
      end
  end.

(** Every component preceded by the separator: [join "/" ["a"; "b"]] is
    ["/a/b"]. *)
Definition join (sep : string) (cs : list string) : string :=
  foldr (fun c acc => sep +:+ c +:+ acc) EmptyString cs.

(** A run of [n] slashes. *)
Fixpoint slashes (n : nat) : string :=
  match n with
  | O => EmptyString
  | S n' => String "/" (slashes n')
  end.

(** A path component: not empty, no ['/'] in it. *)
Definition component (c : string) : Prop :=
  c <> EmptyString /\ has_slash c = false.

(** The path left after the first character of [join (slashes (S k)) cs],
    with [j] slashes still in front of the first component. *)
Definition tail_form (j k : nat) (cs : list string) : string :=
  match cs with
  | [] => EmptyString
  | c :: cs' => slashes j +:+ c +:+ join (slashes (S k)) cs'
  end.

(** What [vfs_resolve_path] answers on a spelled path: nothing without a
    root or without components, else the chain of lookups from the
    root. *)
Definition resolve_components (st : kstate) (cs : list string)
  : outcome (kstate * option nat) :=
  match g_root_fs st with
  | None => Done (st, None)
  | Some fs =>
      match cs with
      | [] => Done (st, None)
      | _ :: _ =>
          bind (walk_components (env st) (root fs) cs)
               (fun '(w, n) => Done (set_env st w, n))
      end
  end.

End Code.

End VFS.

(** ** [ext2_super.c] and [ext2_write.c] *)

Module Ext2.

(** Modelled from the spec: [include/fs/ext2.h] is not part of the
    sources.  The magic number 0xEF53, the 1024-byte superblock and the
    32-byte group descriptor are the specification's; 128 is its legacy
    inode size. *)
Definition EXT2_SUPER_MAGIC : Z := 0xEF53.
Definition EXT2_SUPERBLOCK_SIZE : Z := 1024.
Definition EXT2_INODE_SIZE : Z := 128.
Definition sizeof_group_desc : Z := 32.

(** The two block-size bounds of [ext2.h] are parameters. *)
Class Ext2Header : Type := {
  EXT2_MIN_BLOCK_SIZE : Z;
  EXT2_MAX_BLOCK_SIZE : Z
}.

(** The kernel heap of [mm/kmalloc.h]: [kmalloc] returns an address or
    NULL, [kfree] takes an address back.  The allocator is a parameter. *)
Class Allocator : Type := {
  heap : Type;
  kmalloc : heap -> Z -> heap * option Z;
  kfree : heap -> Z -> heap
}.

(** Modelled from the spec: the VirtIO driver behind
    [drivers/virtio_blk.h] is not part of the sources.  A device is its
    content, a sequence of bytes cut into 512-byte sectors, the set of
    sectors whose transfer fails, and the error kind a failed read of a
    sector leaves in [errno] (the specification names [EIO], [EINVAL] and
    [ENOMEM]). *)
Record blkdev : Type := mk_blkdev {
  image : list byte;
  io_error : Z -> bool;
  error_kind : Z -> Z
}.

Definition sector_data (d : blkdev) (sector : Z) : option (list byte) :=
  if io_error d sector then None
  else if 512 * sector + 512 <=? Z.of_nat (length (image d))
       then Some (take 512 (drop (Z.to_nat (512 * sector)) (image d)))
       else None.

(** A memory buffer: its address and its bytes. *)
Record buffer : Type := mk_buffer {
  buf_addr : Z;
  buf_bytes : list byte
}.

(** [ext2_fs_t]. *)
Record ext2_fs_t : Type := mk_ext2_fs {
  device : option Z;
  superblock : option buffer;
  group_desc : option buffer;
  block_size : Z;
  num_groups : Z;
  inodes_per_block : Z;
  desc_per_block : Z
}.

(** Little-endian fields of the on-disk superblock. *)
Definition byte_at (b : list byte) (i : nat) : Z :=
  Z.of_N (Byte.to_N (nth i b x00)).

Definition le16 (b : list byte) (off : nat) : Z :=
  byte_at b off + 2 ^ 8 * byte_at b (off + 1).

Definition le32 (b : list byte) (off : nat) : Z :=
  byte_at b off + 2 ^ 8 * byte_at b (off + 1)
  + 2 ^ 16 * byte_at b (off + 2) + 2 ^ 24 * byte_at b (off + 3).

(** Modelled from the spec: the layout of [ext2_superblock_t] is in the
    missing [ext2.h]; the offsets are those of the on-disk ext2 format the
    specification refers to. *)
Definition s_blocks_count (sb : list byte) : Z := le32 sb 4.
Definition s_first_data_block (sb : list byte) : Z := le32 sb 20.
Definition s_log_block_size (sb : list byte) : Z := le32 sb 24.
Definition s_blocks_per_group (sb : list byte) : Z := le32 sb 32.
Definition s_magic (sb : list byte) : Z := le16 sb 56.
Definition s_inode_size (sb : list byte) : Z := le16 sb 88.

Section Code.

Context `{HD : Ext2Header} `{AL : Allocator}.

(** The part of the kernel the ext2 code runs on: the [errno] slot, the
    heap, the block device, and the sectors asked of the device so far,
    oldest first. *)
Record kenv : Type := mk_kenv {
  k_errno : Z;
  k_heap : heap;
  k_dev : blkdev;
  k_reads : list Z
}.

Definition set_heap (k : kenv) (h : heap) : kenv :=
  mk_kenv (k_errno k) h (k_dev k) (k_reads k).

(** Modelled from the spec: [virtio_blk_read(sector, buffer, 1)], of the
    missing VirtIO driver.  [Some] data when the call returns 1; a read
    that fails sets [errno] to its error kind, a read that succeeds does
    not set it. *)
Definition virtio_blk_read (k : kenv) (sector : Z) : kenv * option (list byte) :=
  match sector_data (k_dev k) sector with
  | Some data =>
      (mk_kenv (k_errno k) (k_heap k) (k_dev k) (k_reads k ++ [sector]), Some data)
  | None =>
      (mk_kenv (error_kind (k_dev k) sector) (k_heap k) (k_dev k) (k_reads k ++ [sector]),
       None)
  end.

Definition do_kmalloc (k : kenv) (n : Z) : kenv * option Z :=
  let '(h, p) := kmalloc (k_heap k) n in (set_heap k h, p).

Definition do_kfree (k : kenv) (p : Z) : kenv :=
  set_heap k (kfree (k_heap k) p).

(** [1024 << n] on [int]: defined when [n] is below the width and the
    result fits. *)
Definition shl_int (a n : Z) : outcome Z :=
  if (n <? 0) || (32 <=? n) then Fault
  else if a * 2 ^ n <? 2 ^ 31 then Done (a * 2 ^ n) else Fault.

(** Unsigned division. *)
Definition udiv (a b : Z) : outcome Z :=
  if b =? 0 then Fault else Done (a / b).

(** Storing [data] at [off] in a buffer; writing past its end is
    undefined. *)
Definition store_at (b : list byte) (off : Z) (data : list byte) : outcome (list byte) :=
  if off + Z.of_nat (length data) <=? Z.of_nat (length b)
  then Done (take (Z.to_nat off) b ++ data ++ drop (Z.to_nat off + length data) b)
  else Fault.

(** The [for] loop of [read_block]: [n] sectors are left, the next one is
    [sector + i] and goes to [off + i * 512] in the buffer [b].  [None]
    when a sector fails. *)
Fixpoint read_block_loop (k : kenv) (sector : Z) (b : list byte) (off i : Z) (n : nat)
  : outcome (kenv * option (list byte)) :=
  match n with
  | O => Done (k, Some b)
  | S n' =>
      let '(k1, r) := virtio_blk_read k (u32 (sector + i)) in
      match r with
      | None => Done (k1, None)
      | Some d =>
          bind (store_at b (off + u32 (i * 512)) d)
               (fun b' => read_block_loop k1 sector b' off (i + 1) n')
      end
  end.

(** [read_block], reading into [b] at [off]: [Some] buffer when it
    returns 0. *)
Definition read_block (k : kenv) (block_num : Z) (b : list byte) (off : Z) (bsize : Z)
  : outcome (kenv * option (list byte)) :=
  let sector := u32 (block_num * bsize) / 512 in
  let num_sectors := bsize / 512 in
  read_block_loop k sector b off 0 (Z.to_nat num_sectors).

(** The loop of [ext2_mount] that reads the group descriptor table: [n]
    blocks are left, the next one is [gdt_block + i].  [None] when a block
    fails. *)
Fixpoint read_gdt_loop (k : kenv) (gdt_block bsize : Z) (gd : list byte) (i : Z) (n : nat)
  : outcome (kenv * option (list byte)) :=
  match n with
  | O => Done (k, Some gd)
  | S n' =>
      bind (read_block k (u32 (gdt_block + i)) gd (u32 (i * bsize)) bsize)
           (fun '(k1, r) =>
              match r with
              | None => Done (k1, None)
              | Some gd' => read_gdt_loop k1 gdt_block bsize gd' (i + 1) n'
              end)
  end.

Definition with_superblock (fs : ext2_fs_t) (sb : option buffer) : ext2_fs_t :=
  mk_ext2_fs (device fs) sb (group_desc fs) (block_size fs) (num_groups fs)
             (inodes_per_block fs) (desc_per_block fs).

Definition with_group_desc (fs : ext2_fs_t) (gd : option buffer) : ext2_fs_t :=
  mk_ext2_fs (device fs) (superblock fs) gd (block_size fs) (num_groups fs)
             (inodes_per_block fs) (desc_per_block fs).

(** [ext2_mount] after the superblock has been read and its magic number
    checked: [a] is the superblock's address, [sb] its bytes. *)
Definition mount_geometry (k : kenv) (fs : ext2_fs_t) (a : Z) (sb : list byte)
  : outcome (kenv * ext2_fs_t * Z) :=
  bind (shl_int 1024 (s_log_block_size sb)) (fun bs =>
  let bs := u32 bs in
  let fs1 := mk_ext2_fs (device fs) (superblock fs) (group_desc fs) bs
                        (num_groups fs) (inodes_per_block fs) (desc_per_block fs) in
  if (bs <? EXT2_MIN_BLOCK_SIZE) || (EXT2_MAX_BLOCK_SIZE <? bs)
  then Done (do_kfree k a, with_superblock fs1 None, -1)
  else
    bind (udiv (u32 (s_blocks_count sb + s_blocks_per_group sb - 1))
               (s_blocks_per_group sb)) (fun ng =>
    let inode_size := if 0 <? s_inode_size sb then s_inode_size sb else EXT2_INODE_SIZE in
    bind (udiv bs inode_size) (fun ipb =>
    let dpb := bs / sizeof_group_desc in
    let fs2 := mk_ext2_fs (device fs) (superblock fs) (group_desc fs) bs ng ipb dpb in
    bind (udiv (u32 (ng + dpb - 1)) dpb) (fun gdt_blocks =>
    let gdt_size := u32 (gdt_blocks * bs) in
    let '(k1, p) := do_kmalloc k gdt_size in
    match p with
    | None => Done (do_kfree k1 a, with_superblock fs2 None, -1)
    | Some g =>
        let gdt_block := u32 (s_first_data_block sb + 1) in
        bind (read_gdt_loop k1 gdt_block bs (replicate (Z.to_nat gdt_size) x00)
                            0 (Z.to_nat gdt_blocks))
             (fun '(k2, r) =>
                match r with
                | None =>
                    Done (do_kfree (do_kfree k2 g) a,
                          with_superblock (with_group_desc fs2 None) None, -1)
                | Some gd =>
                    Done (k2, with_group_desc fs2 (Some (mk_buffer g gd)), 0)
                end)
    end)))).

(** [ext2_mount].  The function returns the new content of [*fs] next to
    its result. *)
Definition ext2_mount (k : kenv) (fs : option ext2_fs_t) (dev : option Z)
  : outcome (kenv * option ext2_fs_t * Z) :=
  match fs, dev with
  | Some fs0, Some d =>
      let fs1 := mk_ext2_fs (Some d) None None (block_size fs0) (num_groups fs0)
                            (inodes_per_block fs0) (desc_per_block fs0) in
      let '(k1, p) := do_kmalloc k EXT2_SUPERBLOCK_SIZE in
      match p with
      | None => Done (k1, Some fs1, -1)
      | Some a =>
          let '(k2, r2) := virtio_blk_read k1 2 in
          match r2 with
          | None => Done (do_kfree k2 a, Some fs1, -1)
          | Some lo =>
              let '(k3, r3) := virtio_blk_read k2 3 in
              match r3 with
              | None => Done (do_kfree k3 a, Some fs1, -1)
              | Some hi =>
                  let sb := lo ++ hi in
                  if negb (s_magic sb =? EXT2_SUPER_MAGIC)
                  then Done (do_kfree k3 a, Some fs1, -1)
                  else
                    bind (mount_geometry k3 (with_superblock fs1 (Some (mk_buffer a sb))) a sb)
                         (fun '(k4, fs2, ret) => Done (k4, Some fs2, ret))
              end
          end
      end
  | _, _ => Done (k, fs, -1)
  end.

(** [ext2_unmount]. *)
Definition ext2_unmount (k : kenv) (fs : option ext2_fs_t) : kenv * option ext2_fs_t :=
  match fs with
  | None => (k, None)
  | Some f =>
      let k1 := match group_desc f with Some g => do_kfree k (buf_addr g) | None => k end in
      let k2 := match superblock f with Some b => do_kfree k1 (buf_addr b) | None => k1 end in
      (k2, Some (mk_ext2_fs None None None 0 0 (inodes_per_block f) (desc_per_block f)))
  end.

(** The five write operations of [ext2_write.c]: every argument is
    discarded, a console message is printed, -1 is returned. *)
Definition ext2_write_file (k : kenv) (fs : option ext2_fs_t) (inode : option Z)
    (offset : Z) (buf : Z) (sz : Z) : kenv * Z := (k, -1).

Definition ext2_create_file (k : kenv) (fs : option ext2_fs_t) (dir_inode : option Z)
    (nm : option string) (mode : Z) : kenv * Z := (k, -1).

Definition ext2_create_dir (k : kenv) (fs : option ext2_fs_t) (dir_inode : option Z)
    (nm : option string) (mode : Z) : kenv * Z := (k, -1).

Definition ext2_remove_file (k : kenv) (fs : option ext2_fs_t) (dir_inode : option Z)
    (nm : option string) : kenv * Z := (k, -1).

Definition ext2_remove_dir (k : kenv) (fs : option ext2_fs_t) (dir_inode : option Z)
    (nm : option string) : kenv * Z := (k, -1).

(** *** The sectors a mount asks for *)

(** [i], [i + 1], ... ([n] numbers): the values of a loop counter. *)
Fixpoint count_from (i : Z) (n : nat) : list Z :=
  match n with
  | O => []
  | S n' => i :: count_from (i + 1) n'
  end.

(** The sectors of block [block_num], in the order [read_block] asks for
    them. *)
Definition block_sectors (block_num bsize : Z) : list Z :=
  map (fun i => u32 (u32 (block_num * bsize) / 512 + i))
      (count_from 0 (Z.to_nat (bsize / 512))).

(** The number of blocks of the group descriptor table. *)
Definition gdt_blocks_of (fs : ext2_fs_t) : Z :=
  u32 (num_groups fs + desc_per_block fs - 1) / desc_per_block fs.

(** The sectors of the group descriptor table: block after block from
    block [s_first_data_block + 1] on. *)
Definition gdt_sectors (sb : list byte) (fs : ext2_fs_t) : list Z :=
  flat_map (fun i => block_sectors (u32 (u32 (s_first_data_block sb + 1) + i)) (block_size fs))
           (count_from 0 (Z.to_nat (gdt_blocks_of fs))).

(** *** What a block read leaves in the buffer *)

(** The [n] bytes of the device from byte [from] on. *)
Definition device_bytes (d : blkdev) (from n : Z) : list byte :=
  take (Z.to_nat n) (drop (Z.to_nat from) (image d)).

(** The bytes of block [block_num] as [read_block] takes them from the
    device: the sectors from [block_num * bsize / 512] on, the product in
    32 bits. *)
Definition block_bytes (d : blkdev) (block_num bsize : Z) : list byte :=
  device_bytes d (512 * (u32 (block_num * bsize) / 512)) (512 * (bsize / 512)).

(** The bytes of the group descriptor table on the device: block after
    block from block [s_first_data_block + 1] on. *)
Definition gdt_bytes (d : blkdev) (sb : list byte) (fs : ext2_fs_t) : list byte :=
  flat_map (fun i => block_bytes d (u32 (u32 (s_first_data_block sb + 1) + i)) (block_size fs))
           (count_from 0 (Z.to_nat (gdt_blocks_of fs))).

(** The heap after handing back the addresses [ps], first to last. *)
Definition released (h : heap) (ps : list Z) : heap := foldl kfree h ps.

(** *** The geometry a superblock announces *)

(** The values [ext2_mount] computes from the superblock [sb], as it
    computes them. *)
Definition sb_block_size (sb : list byte) : Z := 1024 * 2 ^ s_log_block_size sb.

Definition sb_num_groups (sb : list byte) : Z :=
  u32 (s_blocks_count sb + s_blocks_per_group sb - 1) / s_blocks_per_group sb.

Definition sb_desc_per_block (sb : list byte) : Z := sb_block_size sb / sizeof_group_desc.

Definition sb_gdt_blocks (sb : list byte) : Z :=
  u32 (sb_num_groups sb + sb_desc_per_block sb - 1) / sb_desc_per_block sb.

Definition sb_gdt_sectors (sb : list byte) : list Z :=
  flat_map (fun i => block_sectors (u32 (u32 (s_first_data_block sb + 1) + i))
                                   (sb_block_size sb))
           (count_from 0 (Z.to_nat (sb_gdt_blocks sb))).

(** The shift that gives the block size stays within [int], the group
    size is not zero, and the size of the descriptor table fits 32
    bits. *)
Definition geometry_defined (sb : list byte) : Prop :=
  s_log_block_size sb <= 20
  /\ s_blocks_per_group sb <> 0
  /\ sb_gdt_blocks sb * sb_block_size sb < 2 ^ 32.

Definition readable (d : blkdev) (sector : Z) : Prop := sector_data d sector <> None.

End Code.

End Ext2.

(** * [kernel/drivers/uart.c]

    The driver reaches the device through two volatile accesses,
    [uart_read_reg] and [uart_write_reg].  What the device answers to a
    read is not the program's to decide: the answers are a parameter, one
    per register and per read of the run.  The stores into registers are
    logged, oldest first.  A [char] is its value as an [unsigned char]. *)

Module Uart.

Definition UART0_BASE : Z := 0x10000000.
Definition UART_RBR : Z := UART0_BASE + 0.
Definition UART_THR : Z := UART0_BASE + 0.
Definition UART_LSR : Z := UART0_BASE + 5.
Definition LSR_TX_IDLE : Z := Z.shiftl 1 5.

(** [answers t addr]: what the read number [t] of the run delivers if it
    is a read of [addr]. *)
Class Device : Type := {
  answers : nat -> Z -> Z
}.

Record mmio : Type := mk_mmio {
  reads : nat;
  stores : list (Z * Z)
}.

Section Code.

Context `{DV : Device}.

Definition uart_write_reg (m : mmio) (addr val : Z) : mmio :=
  mk_mmio (reads m) (stores m ++ [(addr, val mod 256)]).

Definition uart_read_reg (m : mmio) (addr : Z) : mmio * Z :=
  (mk_mmio (S (reads m)) (stores m), answers (reads m) addr mod 256).

Definition uart_init (m : mmio) : mmio := m.

(** [uart_putc]: [fuel] bounds the number of polls of the busy-wait
    loop. *)
Fixpoint uart_putc (fuel : nat) (m : mmio) (c : Z) : outcome mmio :=
  match fuel with
  | O => OutOfFuel
  | S fuel' =>
      let '(m1, lsr) := uart_read_reg m UART_LSR in
      if Z.land lsr LSR_TX_IDLE =? 0 then uart_putc fuel' m1 c
      else Done (uart_write_reg m1 UART_THR c)
  end.

(** The loop of [uart_puts] on the characters from [s] on; [fuel] bounds
    the polls of each [uart_putc]. *)
Fixpoint uart_puts_from (fuel : nat) (m : mmio) (s : string) : outcome mmio :=
  match s with
  | EmptyString => Done m
  | String ch rest =>
      if VFS.uchar ch =? 0 then Done m
      else
        bind (if VFS.uchar ch =? 10 then uart_putc fuel m 13 else Done m) (fun m1 =>
        bind (uart_putc fuel m1 (VFS.uchar ch)) (fun m2 =>
        uart_puts_from fuel m2 rest))
  end.

(** [uart_puts]; reading through a NULL pointer is undefined. *)
Definition uart_puts (fuel : nat) (m : mmio) (s : option string) : outcome mmio :=
  match s with
  | None => Fault
  | Some str => uart_puts_from fuel m str
  end.

(** [uart_getc]: [fuel] bounds the number of polls. *)
Fixpoint uart_getc (fuel : nat) (m : mmio) : outcome (mmio * Z) :=
  match fuel with
  | O => OutOfFuel
  | S fuel' =>
      let '(m1, lsr) := uart_read_reg m UART_LSR in
      if Z.land lsr 1 =? 0 then uart_getc fuel' m1
      else Done (uart_read_reg m1 UART_RBR)
  end.

(** *** What the device does and what goes over the wire *)

(** The transmitter is idle, a received byte is waiting, at read [t]. *)
Definition tx_idle_at (t : nat) : bool :=
  negb (Z.land (answers t UART_LSR mod 256) LSR_TX_IDLE =? 0).

Definition rx_ready_at (t : nat) : bool :=
  negb (Z.land (answers t UART_LSR mod 256) 1 =? 0).

(** The transmitter is never busy for [n] reads in a row. *)
Definition responsive (n : nat) : Prop :=
  forall t, exists j, (j < n)%nat /\ tx_idle_at (t + j) = true.

(** The bytes of a C string. *)
Fixpoint cstring (s : string) : list Z :=
  match s with
  | EmptyString => []
  | String ch rest => if VFS.uchar ch =? 0 then [] else VFS.uchar ch :: cstring rest
  end.

(** A text with a carriage return put before every line feed, and the
    way back: a carriage return that is followed by a line feed is
    dropped. *)
Fixpoint crlf (l : list Z) : list Z :=
  match l with
  | [] => []
  | c :: r => if c =? 10 then 13 :: 10 :: crlf r else c :: crlf r
  end.

Fixpoint uncrlf (l : list Z) : list Z :=
  match l with
  | [] => []
  | c :: r =>
      match r with
      | d :: r' => if (c =? 13) && (d =? 10) then 10 :: uncrlf r' else c :: uncrlf r
      | [] => [c]
      end
  end.

(** Every line feed of [l] comes right after a carriage return; [prev] is
    the byte before [l]. *)
Fixpoint lf_after_cr (prev : Z) (l : list Z) : bool :=
  match l with
  | [] => true
  | c :: r => (if c =? 10 then prev =? 13 else true) && lf_after_cr c r
  end.

(** The stores that transmit the bytes [l]. *)
Definition transmit (l : list Z) : list (Z * Z) := map (fun c => (UART_THR, c)) l.

End Code.

End Uart.

(** * [tests/framework/kunit.c]

    The test runner prints through [uart_putc] and [uart_puts] of
    [uart.c].  A test function is reached through the pointer in its
    [struct kunit_test]; what the functions do is a parameter. *)

Module KUnit.

Import Uart.

Definition TEST_SUCCESS : Z := 0.
Definition TEST_FAILURE : Z := 1.

(** [struct kunit_test]; [run] names the test function. *)
Record kunit_test : Type := mk_test {
  name : option string;
  run : option nat;
  status : Z;
  failure_msg : option string;
  line : Z
}.

(** The test functions: each is given the rest of the machine, the
    console and the record it is called on, and leaves new ones. *)
Class Tests : Type := {
  world : Type;
  test_fn : nat -> world -> mmio -> kunit_test -> outcome (world * mmio * kunit_test)
}.

Section Code.

Context `{DV : Device} `{TS : Tests}.

(** The first loop of [print_int]: [while (val > 0) { buf[i++] = '0' +
    (val % 10); val /= 10; }].  A cell of [buf] that has not been written
    holds no value; a store outside the array is undefined.  Every round
    stores into the next cell, so the loop makes at most as many rounds as
    the array has cells: [n] counts them. *)
Fixpoint digits_loop (n : nat) (val : Z) (buf : list (option Z)) (i : Z)
  : outcome (list (option Z) * Z) :=
  if 0 <? val then
    match n with
    | O => OutOfFuel
    | S n' =>
        if (0 <=? i) && (i <? Z.of_nat (length buf))
        then digits_loop n' (Z.quot val 10)
                         (<[Z.to_nat i := Some (48 + Z.rem val 10)]> buf) (i + 1)
        else Fault
    end
  else Done (buf, i).

(** The second loop: [while (i > 0) uart_putc(buf[--i])]. *)
Fixpoint emit_loop (fuel : nat) (m : mmio) (buf : list (option Z)) (i : nat) : outcome mmio :=
  match i with
  | O => Done m
  | S j =>
      match buf !! j with
      | Some (Some c) => bind (uart_putc fuel m c) (fun m1 => emit_loop fuel m1 buf j)
      | _ => Fault
      end
  end.

(** [print_int]; [fuel] bounds the polls of each [uart_putc].  Negating
    [INT_MIN] overflows, which is undefined. *)
Definition print_int (fuel : nat) (m : mmio) (val : Z) : outcome mmio :=
  if val =? 0 then uart_putc fuel m 48
  else
    bind (if val <? 0
          then bind (uart_putc fuel m 45)
                    (fun m1 => if val =? - 2 ^ 31 then Fault else Done (m1, - val))
          else Done (m, val))
         (fun '(m1, v) =>
            bind (digits_loop 13 v (replicate 12 None) 0)
                 (fun '(buf, i) => emit_loop fuel m1 buf (Z.to_nat i))).

(** *** Reading a printed number *)

(** The bytes [emit_loop] sends from cell [k - 1] down to cell 0. *)
Fixpoint cells_down (buf : list (option Z)) (k : nat) : option (list Z) :=
  match k with
  | O => Some []
  | S j =>
      match buf !! j with
      | Some (Some c) => option_map (cons c) (cells_down buf j)
      | _ => None
      end
  end.

(** The number a sequence of decimal digits spells, after [acc]. *)
Fixpoint parse_digits (acc : Z) (l : list Z) : option Z :=
  match l with
  | [] => Some acc
  | d :: r =>
      if (48 <=? d) && (d <=? 57) then parse_digits (10 * acc + (d - 48)) r else None
  end.

(** A number without sign: ["0"], or digits that do not start with
    ['0']. *)
Definition parse_unsigned (l : list Z) : option Z :=
  match l with
  | [] => None
  | d :: r =>
      if d =? 48 then match r with [] => Some 0 | _ :: _ => None end
      else parse_digits 0 l
  end.

(** A decimal integer: an unsigned number, or ['-'] and an unsigned
    number other than 0. *)
Definition parse_int (l : list Z) : option Z :=
  match l with
  | [] => None
  | c :: r =>
      if c =? 45
      then match parse_unsigned r with
           | Some v => if v =? 0 then None else Some (- v)
           | None => None
           end
      else parse_unsigned l
  end.

(** *** [kunit_run_tests] *)

(** ["\n"]. *)
Definition LF : string := String "010"%char EmptyString.

Definition bar : string := "========================================" +:+ LF.

(** Consecutive calls of [uart_puts]. *)
Fixpoint uart_puts_seq (fuel : nat) (m : mmio) (l : list (option string)) : outcome mmio :=
  match l with
  | [] => Done m
  | s :: r => bind (uart_puts fuel m s) (fun m1 => uart_puts_seq fuel m1 r)
  end.

(** The loop over the test cases: [n] rounds are left, the next one is
    on [test_cases[i]].  An index outside the array and a call through a
    NULL function pointer are undefined. *)
Fixpoint run_each (fuel n i : nat) (w : world) (m : mmio) (test_cases : list kunit_test)
    (passed failed : Z) : outcome (world * mmio * list kunit_test * Z * Z) :=
  match n with
  | O => Done (w, m, test_cases, passed, failed)
  | S n' =>
      match test_cases !! i with
      | None => Fault
      | Some t0 =>
          let t1 := mk_test (name t0) (run t0) TEST_SUCCESS None 0 in
          bind (uart_puts_seq fuel m [Some "[ RUN      ] "; name t1; Some LF]) (fun m1 =>
          match run t1 with
          | None => Fault
          | Some f =>
              bind (test_fn f w m1 t1) (fun '(w1, m2, t2) =>
              let cases1 := <[i := t2]> test_cases in
              if status t2 =? TEST_SUCCESS then
                bind (uart_puts_seq fuel m2 [Some "[       OK ] "; name t2; Some LF])
                     (fun m3 => run_each fuel n' (S i) w1 m3 cases1 (passed + 1) failed)
              else
                bind (uart_puts_seq fuel m2
                        [Some "[  FAILED  ] "; name t2; Some LF;
                         Some "             "; failure_msg t2; Some " at line "])
                     (fun m3 =>
                bind (print_int fuel m3 (line t2)) (fun m4 =>
                bind (uart_puts fuel m4 (Some LF)) (fun m5 =>
                run_each fuel n' (S i) w1 m5 cases1 passed (failed + 1)))))
          end)
      end
  end.

(** [kunit_run_tests]: the state it leaves and the value it returns. *)
Definition kunit_run_tests (fuel : nat) (w : world) (m : mmio)
    (test_cases : list kunit_test) (num_tests : Z)
  : outcome (world * mmio * list kunit_test * Z) :=
  bind (uart_puts_seq fuel m
          [Some LF; Some bar; Some ("  KUnit Test Suite - ThunderOS" +:+ LF);
           Some (bar +:+ LF)]) (fun m1 =>
  bind (run_each fuel (Z.to_nat num_tests) 0 w m1 test_cases 0 0)
       (fun '(w1, m2, cases1, passed, failed) =>
  bind (uart_puts_seq fuel m2
          [Some LF; Some bar; Some ("  Test Summary" +:+ LF); Some bar; Some "Total:  "])
       (fun m3 =>
  bind (print_int fuel m3 num_tests) (fun m4 =>
  bind (uart_puts_seq fuel m4 [Some LF; Some "Passed: "]) (fun m5 =>
  bind (print_int fuel m5 passed) (fun m6 =>
  bind (uart_puts_seq fuel m6 [Some LF; Some "Failed: "]) (fun m7 =>
  bind (print_int fuel m7 failed) (fun m8 =>
  bind (uart_puts_seq fuel m8
          [Some LF;
           Some (if failed =? 0 then LF +:+ "ALL TESTS PASSED" +:+ LF
                 else LF +:+ "SOME TESTS FAILED" +:+ LF);
           Some (bar +:+ LF)]) (fun m9 =>
  Done (w1, m9, cases1, failed)))))))))).

(** The number of records whose status is not [TEST_SUCCESS]. *)
Definition failures (l : list kunit_test) : Z :=
  Z.of_nat (length (filter (fun t => status t <> TEST_SUCCESS) l)).

(** A record that can be reported has a name and, after a failure, a
    message and a line other than [INT_MIN].  The test functions return,
    and leave such a record, when they are called as [kunit_run_tests]
    calls them: on a record with a name that has just been reset. *)
Definition reportable (t : kunit_test) : Prop :=
  name t <> None
  /\ (status t <> TEST_SUCCESS -> failure_msg t <> None /\ - 2 ^ 31 < line t < 2 ^ 31).

(** The record [t'] is what the function of [t0] left when called on
    [t0] reset to [TEST_SUCCESS], no message and line 0. *)
Definition run_on_reset (t0 t' : kunit_test) : Prop :=
  exists f w m w' m',
    run t0 = Some f
    /\ test_fn f w m (mk_test (name t0) (Some f) TEST_SUCCESS None 0) = Done (w', m', t').

Definition tests_return : Prop :=
  forall f w m (nm : string),
    exists w' m' t',
      test_fn f w m (mk_test (Some nm) (Some f) TEST_SUCCESS None 0) = Done (w', m', t')
      /\ reportable t'.

End Code.

End KUnit.

(** ** Concrete instances used to run the code *)

Module Demo.

(** A [vfs.h] with 8 descriptors and the usual [whence] codes. *)
#[export] Instance header8 : VfsHeader.
Proof.
  refine {| VFS_MAX_OPEN_FILES := 8; SEEK_SET := 0; SEEK_CUR := 1; SEEK_END := 2 |};
    lia.
Defined.

(** A small filesystem: node 10 is the root directory, which holds the
    directory [a] (node 11) and the file [locked] (node 13); [a] holds the
    file [b] (node 12).  Its private data is the log of the modifying
    calls it received, newest first. *)
Definition toy_lookup (w : world (list string)) (dir : nat) (nm : string)
  : world (list string) * option nat :=
  (w,
   if (dir =? 10)%nat && String.eqb nm "a" then Some 11%nat
   else if (dir =? 10)%nat && String.eqb nm "locked" then Some 13%nat
   else if (dir =? 11)%nat && String.eqb nm "b" then Some 12%nat
   else None).

Definition toy_log (tag : string) (r : Z) (w : world (list string)) (dir : nat) (nm : string)
  : world (list string) * Z :=
  (mk_world (nodes w) (errno w) ((tag +:+ nm) :: fs_data w), r).

Definition toy_ops (open_ret : Z) : vfs_ops_t (list string) :=
  mk_ops (Some toy_lookup)
         (Some (fun w n p buf sz => (w, 0)))
         (Some (fun w n p buf sz => (w, sz)))
         (Some (fun w n fl => (w, open_ret)))
         (Some (fun w n => (w, 0)))
         (Some (fun w dir nm mode => toy_log "create " (-1) w dir nm))
         (Some (fun w dir nm mode => toy_log "mkdir " 0 w dir nm))
         (Some (toy_log "rmdir " 0))
         (Some (toy_log "unlink " 0)).

(** Table 2 is the one whose [open] fails. *)
#[export] Instance toy_backend : Backend :=
  {| fs_data_t := list string;
     ops_table := fun o => if (o =? 2)%nat then toy_ops (-1) else toy_ops 0 |}.

Definition toy_nodes : gmap nat vfs_node_t :=
  <[10%nat := mk_node 2 0 (Some 1%nat)]>
    (<[11%nat := mk_node 2 0 (Some 1%nat)]>
       (<[12%nat := mk_node 1 14 (Some 1%nat)]>
          (<[13%nat := mk_node 1 5 (Some 2%nat)]> ∅))).

Definition toy_world : world (list string) := mk_world toy_nodes 0 [].

(** The state after [vfs_init] and [vfs_mount_root] of the toy
    filesystem, with [errno] cleared. *)
Definition booted : kstate :=
  fst (VFS.vfs_mount_root (fst (VFS.vfs_init (mk_kstate [] None toy_world)))
                          (Some (mk_fs "toy" (Some 10%nat)))).

(** [booted] with [/a/b] opened read-only: descriptor 3. *)
Definition opened : kstate :=
  match VFS.vfs_open booted (Some "/a/b") O_RDONLY with
  | Done (st, _) => st
  | _ => booted
  end.

(** An [ext2.h] with block sizes from 1024 to 4096. *)
#[export] Instance ext2_header : Ext2.Ext2Header :=
  {| Ext2.EXT2_MIN_BLOCK_SIZE := 1024; Ext2.EXT2_MAX_BLOCK_SIZE := 4096 |}.

(** An allocator that never runs out of memory: it hands out fresh
    addresses, 16 bytes apart at least.  Its state is the next address. *)
#[export] Instance bump_allocator : Ext2.Allocator :=
  {| Ext2.heap := Z;
     Ext2.kmalloc := fun h n => (h + n + 16, Some h);
     Ext2.kfree := fun h _ => h |}.

Definition byte_of (z : Z) : byte :=
  default x00 (Byte.of_N (Z.to_N (z mod 256))).

(** Storing a little-endian 32-bit field in a block of bytes. *)
Definition put32 (off : nat) (v : Z) (b : list byte) : list byte :=
  <[(off + 3)%nat := byte_of (v / 2 ^ 24)]>
    (<[(off + 2)%nat := byte_of (v / 2 ^ 16)]>
       (<[(off + 1)%nat := byte_of (v / 2 ^ 8)]>
          (<[off := byte_of v]> b))).

(** A superblock with the magic number, 1024-byte blocks, 128-byte
    inodes, first data block 1, and the given block counts. *)
Definition toy_superblock (blocks_count blocks_per_group : Z) : list byte :=
  put32 4 blocks_count
    (put32 20 1
       (put32 24 0
          (put32 32 blocks_per_group
             (put32 56 0xEF53
                (put32 88 128 (replicate 1024 x00)))))).

(** A device of [sectors] sectors without transfer errors: the boot block,
    the superblock, zeroes after it.  A read past its end leaves the error
    kind 5 in [errno]. *)
Definition toy_device (sb : list byte) (sectors : nat) : Ext2.blkdev :=
  Ext2.mk_blkdev
    (take (512 * sectors) (replicate 1024 x00 ++ sb ++ replicate (512 * sectors) x00))
    (fun _ => false) (fun _ => 5).

(** A volume whose superblock announces no block at all. *)
Definition empty_volume : Ext2.blkdev := toy_device (toy_superblock 0 8192) 8.

(** A volume of 64 blocks in one group. *)
Definition small_volume : Ext2.blkdev := toy_device (toy_superblock 64 8192) 8.

Definition toy_kenv (d : Ext2.blkdev) : Ext2.kenv := Ext2.mk_kenv 0 0x1000 d [].

Definition blank_fs : Ext2.ext2_fs_t := Ext2.mk_ext2_fs None None None 0 0 0 0.

(** The kernel and the filesystem record after mounting [small_volume]. *)
Definition mounted : Ext2.kenv * option Ext2.ext2_fs_t :=
  match Ext2.ext2_mount (toy_kenv small_volume) (Some blank_fs) (Some 1) with
  | Done (k, fs, _) => (k, fs)
  | _ => (toy_kenv small_volume, None)
  end.

(** [opened] with descriptor 3 closed again. *)
Definition closed : kstate :=
  match VFS.vfs_close opened 3 with
  | Done (st, _) => st
  | _ => opened
  end.

(** [opened] after seeking descriptor 3 to offset 100. *)
Definition sought : kstate :=
  match VFS.vfs_seek opened 3 100 SEEK_SET with
  | Done (st, _) => st
  | _ => opened
  end.

(** A name of 256 characters: 255 times [x], then [last]. *)
Definition long_name (last : string) : string :=
  foldr (fun _ acc => String "x" acc) last (replicate 255 tt).

(** [small_volume] with a sector 5 that cannot be read. *)
Definition faulty_volume : Ext2.blkdev :=
  Ext2.mk_blkdev (Ext2.image small_volume) (fun s => s =? 5) (fun _ => 5).

(** A volume whose superblock announces groups of no block. *)
Definition zero_group_volume : Ext2.blkdev := toy_device (toy_superblock 64 0) 8.

(** Block 1 of [small_volume] read into the second half of a 2048-byte
    buffer of [xff]. *)
Definition block_read : Ext2.kenv * list byte :=
  match Ext2.read_block (toy_kenv small_volume) 1 (replicate 2048 xff) 1024 1024 with
  | Done (k, Some b) => (k, b)
  | _ => (toy_kenv small_volume, [])
  end.

(** The kernel after a read of block 2 of [faulty_volume]. *)
Definition failed_read : Ext2.kenv :=
  match Ext2.read_block (toy_kenv faulty_volume) 2 (replicate 1024 x00) 0 1024 with
  | Done (k, _) => k
  | _ => toy_kenv faulty_volume
  end.

(** The kernel and the filesystem record after the mount of
    [faulty_volume]. *)
Definition failed_mount : Ext2.kenv * option Ext2.ext2_fs_t :=
  match Ext2.ext2_mount (toy_kenv faulty_volume) (Some blank_fs) (Some 1) with
  | Done (k, fs, _) => (k, fs)
  | _ => (toy_kenv faulty_volume, None)
  end.



(** The filesystem record after the mount of [small_volume]. *)
Definition mounted_fs : Ext2.ext2_fs_t := default blank_fs (snd mounted).

(** The state after [vfs_init] alone: no filesystem is mounted. *)
Definition unmounted : kstate := fst (VFS.vfs_init (mk_kstate [] None toy_world)).

(** [booted] after [vfs_mkdir("/d", 0755)]. *)
Definition made : kstate :=
  match VFS.vfs_mkdir booted (Some "/d") 493 with
  | Done (st, _) => st
  | _ => booted
  end.

(** A UART that is busy at every even read of the run: at the odd ones
    the transmitter is idle and the byte 65 is waiting. *)
#[export] Instance console : Uart.Device :=
  {| Uart.answers := fun t addr =>
       if addr =? Uart.UART_LSR then (if Nat.even t then 0 else 0x21) else 65 |}.

Definition quiet : Uart.mmio := Uart.mk_mmio 0 [].

(** Test function 0 leaves its record as it is; every other one reports
    a failure at line 42.  Each counts its call. *)
#[export] Instance toy_tests : KUnit.Tests :=
  {| KUnit.world := nat;
     KUnit.test_fn := fun f w m t =>
       Done (S w, m,
             if (f =? 0)%nat then t
             else KUnit.mk_test (KUnit.name t) (KUnit.run t) KUnit.TEST_FAILURE
                                (Some "1 != 2") 42) |}.

(** Two test cases; the first carries a failure from an earlier run. *)
Definition toy_cases : list KUnit.kunit_test :=
  [KUnit.mk_test (Some "passes") (Some 0%nat) KUnit.TEST_FAILURE (Some "stale") 7;
   KUnit.mk_test (Some "fails") (Some 1%nat) KUnit.TEST_SUCCESS None 0].

(** The console after [print_int(val)] on [quiet], with two polls at
    most for each character. *)
Definition print_int_result (val : Z) : option Uart.mmio :=
  match KUnit.print_int 2 quiet val with
  | Done m => Some m
  | _ => None
  end.

(** An allocator that answers a zero-byte request with NULL, and every
    other request with a fresh address. *)
Definition strict_allocator : Ext2.Allocator :=
  {| Ext2.heap := Z;
     Ext2.kmalloc := fun h n => if n =? 0 then (h, None) else (h + n + 16, Some h);
     Ext2.kfree := fun h _ => h |}.

Definition strict_kenv (d : Ext2.blkdev) : Ext2.kenv (AL := strict_allocator) :=
  Ext2.mk_kenv (AL := strict_allocator) 0 0x1000 d [].

(** The mounts of [small_volume] and of [empty_volume] on
    [strict_allocator]: the kernel, the record and the result. *)
Definition strict_mount (d : Ext2.blkdev)
  : Ext2.kenv (AL := strict_allocator) * option Ext2.ext2_fs_t * Z :=
  match Ext2.ext2_mount (AL := strict_allocator) (strict_kenv d) (Some blank_fs) (Some 1) with
  | Done r => r
  | _ => (strict_kenv d, None, 1)
  end.

End Demo.

(** * Properties of [vfs.c] *)

Module VFSProps.

Import VFS.

Section Facts.

Context `{BE : Backend} `{HD : VfsHeader}.

Implicit Types (st : kstate) (fd offset whence : Z) (f : vfs_file_t).

(** *** The descriptor table *)

Lemma vfs_get_file_Some st fd f :
  vfs_get_file st fd = Some f ->
  0 <= fd < VFS_MAX_OPEN_FILES
  /\ g_file_table st !! Z.to_nat fd = Some f
  /\ in_use f = true.
Proof.
  unfold vfs_get_file.
  destruct (Z.ltb_spec fd 0); [discriminate |].
  destruct (Z.leb_spec VFS_MAX_OPEN_FILES fd); [discriminate |]. simpl.
  destruct (g_file_table st !! Z.to_nat fd) as [g |] eqn:E; [| discriminate].
  destruct (in_use g) eqn:U; [| discriminate].
  intros [= <-]. repeat split; auto; lia.
Qed.

Lemma vfs_get_file_upd st fd f (g : vfs_file_t -> vfs_file_t) :
  vfs_get_file st fd = Some f ->
  in_use (g f) = true ->
  vfs_get_file (upd_file st fd g) fd = Some (g f).
Proof.
  intros Hf Hu. apply vfs_get_file_Some in Hf as (Hr & Hl & _).
  unfold vfs_get_file, upd_file. simpl.
  destruct (Z.ltb_spec fd 0); [lia |].
  destruct (Z.leb_spec VFS_MAX_OPEN_FILES fd); [lia |]. simpl.
  rewrite list_lookup_alter_eq, Hl. simpl. now rewrite Hu.
Qed.

Lemma alloc_scan_Some (t : list vfs_file_t) (i n j : nat) :
  alloc_scan t i n = Some j ->
  (i <= j < i + n)%nat /\ exists f, t !! j = Some f /\ in_use f = false.
Proof.
  revert i. induction n as [| n IH]; intros i; simpl; [discriminate |].
  destruct (t !! i) as [f |] eqn:E; [| discriminate].
  destruct (in_use f) eqn:U.
  - intros H. apply IH in H as (Hr & Hf). split; [lia | exact Hf].
  - intros [= <-]. split; [lia |]. exists f. auto.
Qed.

(** [vfs_alloc_fd] either fails, leaving the state alone, or claims a row
    between 3 and the end of the table that was free. *)
Lemma vfs_alloc_fd_cases st :
  vfs_alloc_fd st = (st, -1)
  \/ exists (i : nat) f,
       (3 <= i)%nat /\ Z.of_nat i < VFS_MAX_OPEN_FILES
       /\ g_file_table st !! i = Some f /\ in_use f = false
       /\ vfs_alloc_fd st
          = (set_table st (<[i := fresh_row]> (g_file_table st)), Z.of_nat i).
Proof.
  unfold vfs_alloc_fd.
  destruct (alloc_scan (g_file_table st) 3 (Z.to_nat (VFS_MAX_OPEN_FILES - 3)))
    as [i |] eqn:E; [right | left; reflexivity].
  apply alloc_scan_Some in E as (Hr & f & Hf & Hu).
  exists i, f. pose proof vfs_max_reserved. repeat split; auto; lia.
Qed.

(** Allocating row [i], filling it in and freeing it again leaves the
    in-use flags of the table as they were. *)
Lemma in_use_alloc_free (t : list vfs_file_t) (i : nat) f (g : vfs_file_t -> vfs_file_t) :
  t !! i = Some f -> in_use f = false ->
  in_use <$> <[i := free_row]> (alter g i (<[i := fresh_row]> t)) = in_use <$> t.
Proof.
  intros Hf Hu. apply list_eq. intros j. rewrite !list_lookup_fmap.
  destruct (decide (i = j)) as [<- | Hne].
  - rewrite list_lookup_insert_eq.
    + rewrite Hf. simpl. now rewrite Hu.
    + rewrite length_alter, length_insert. eapply lookup_lt_Some; eauto.
  - rewrite list_lookup_insert_ne, list_lookup_alter_ne, list_lookup_insert_ne by auto.
    reflexivity.
Qed.

(** *** Path resolution and the descriptor table *)

Lemma vfs_resolve_path_table st path st' n :
  vfs_resolve_path st path = Done (st', n) ->
  g_file_table st' = g_file_table st /\ g_root_fs st' = g_root_fs st.
Proof.
  unfold vfs_resolve_path.
  destruct (g_root_fs st) as [fs |] eqn:R; [| intros [= <- _]; auto].
  destruct path as [[| c rest] |]; try (intros [= <- _]; auto).
  destruct (negb (is_slash c)); [intros [= <- _]; auto |].
  destruct rest as [| c' rest']; [intros [= <- _]; auto |].
  destruct (resolve_walk _ _ _ _) as [[w m] | |]; simpl; try discriminate.
  intros [= <- _]. auto.
Qed.

Lemma create_missing_table st p st' r :
  create_missing st p = Done (st', r) ->
  g_file_table st' = g_file_table st.
Proof.
  unfold create_missing.
  destruct p as [| c [| c' rest]]; try (intros [= <- _]; reflexivity).
  destruct (is_slash c); [| intros [= <- _]; reflexivity].
  destruct (has_slash _); [intros [= <- _]; reflexivity |].
  destruct (g_root_fs st) as [fs |]; [| discriminate].
  destruct (root fs) as [rt |]; [| discriminate].
  destruct (nodes (env st) !! rt) as [rn |]; [| discriminate].
  destruct (ops rn) as [o |]; [| intros [= <- _]; reflexivity].
  destruct (op_create (ops_table o)) as [create |]; [| intros [= <- _]; reflexivity].
  destruct (create _ _ _ _) as [w ret].
  destruct (ret =? 0); [| intros [= <- _]; reflexivity].
  destruct (vfs_resolve_path _ _) as [[st1 n] | |] eqn:E; simpl; try discriminate.
  intros [= <- _]. apply vfs_resolve_path_table in E as [-> _]. reflexivity.
Qed.

Lemma open_finish_result st fd n fl st' r :
  open_finish st fd n fl = Done (st', r) -> r = fd.
Proof.
  unfold open_finish.
  destruct (flag_set fl O_TRUNC).
  - destruct (nodes (env st) !! n) as [nd |]; simpl; [| discriminate].
    destruct (flag_set fl O_APPEND).
    + destruct (_ !! n); [| discriminate]. now intros [= _ <-].
    + now intros [= _ <-].
  - simpl. destruct (flag_set fl O_APPEND).
    + destruct (_ !! n); [| discriminate]. now intros [= _ <-].
    + now intros [= _ <-].
Qed.

Lemma open_node_failure st n fl st' :
  open_node st n fl = Done (st', -1) ->
  in_use <$> g_file_table st' = in_use <$> g_file_table st.
Proof.
  unfold open_node.
  destruct (vfs_alloc_fd_cases st) as [-> | (i & f & Hi & Hm & Hf & Hu & ->)].
  - simpl. now intros [= <-].
  - destruct (Z.ltb_spec (Z.of_nat i) 0); [lia |].
    set (st2 := upd_file _ _ _).
    destruct (nodes (env st2) !! n) as [nd |]; [| discriminate].
    assert (Hfin : forall s, open_finish s (Z.of_nat i) n fl = Done (st', -1) -> False).
    { intros s Hs. apply open_finish_result in Hs. lia. }
    destruct (ops nd) as [o |]; [| intros Hs; destruct (Hfin _ Hs)].
    destruct (op_open (ops_table o)) as [open |]; [| intros Hs; destruct (Hfin _ Hs)].
    destruct (open _ _ _) as [w ret].
    destruct (ret =? 0); [intros Hs; destruct (Hfin _ Hs) |].
    intros [= <-]. unfold vfs_free_fd.
    destruct (Z.leb_spec 0 (Z.of_nat i)); [| lia].
    destruct (Z.ltb_spec (Z.of_nat i) VFS_MAX_OPEN_FILES); [| lia].
    simpl. rewrite Nat2Z.id. now apply (in_use_alloc_free _ _ f).
Qed.

(** Whether a descriptor is in use depends on the in-use flags only. *)
Lemma vfs_get_file_None st fd :
  vfs_get_file st fd = None <->
  (fd < 0 \/ VFS_MAX_OPEN_FILES <= fd
   \/ (in_use <$> g_file_table st) !! Z.to_nat fd <> Some true).
Proof.
  unfold vfs_get_file. rewrite list_lookup_fmap.
  destruct (Z.ltb_spec fd 0); [tauto |].
  destruct (Z.leb_spec VFS_MAX_OPEN_FILES fd); [tauto |]. simpl.
  destruct (g_file_table st !! Z.to_nat fd) as [f |]; simpl.
  - destruct (in_use f); split; intros Hx; try discriminate; auto.
    destruct Hx as [? | [? | Hc]]; try lia. now destruct Hc.
  - split; auto.
Qed.

Lemma same_in_use_same_descriptors st st' :
  in_use <$> g_file_table st' = in_use <$> g_file_table st ->
  forall fd, vfs_get_file st' fd = None <-> vfs_get_file st fd = None.
Proof. intros E fd. rewrite !vfs_get_file_None, E. reflexivity. Qed.

(** *** [vfs_seek] *)

Lemma seek_cur_not_set : (SEEK_CUR =? SEEK_SET) = false.
Proof. apply Z.eqb_neq. intros E. exact (seek_set_cur (eq_sym E)). Qed.

Lemma seek_end_not_set : (SEEK_END =? SEEK_SET) = false.
Proof. apply Z.eqb_neq. intros E. exact (seek_set_end (eq_sym E)). Qed.

Lemma seek_end_not_cur : (SEEK_END =? SEEK_CUR) = false.
Proof. apply Z.eqb_neq. intros E. exact (seek_cur_end (eq_sym E)). Qed.

Lemma u32_small z : 0 <= z < 2 ^ 32 -> u32 z = z.
Proof. intros. unfold u32. now apply Z.mod_small. Qed.

Lemma s32_small z : 0 <= z < 2 ^ 31 -> s32 z = z.
Proof.
  intros. unfold s32. rewrite Z.mod_small by lia.
  destruct (Z.ltb_spec z (2 ^ 31)); lia.
Qed.

(** C6 (what the code does): on a descriptor that is in use and has a
    node, [vfs_seek] moves the position to [offset] for [SEEK_SET], to
    [pos + offset] for [SEEK_CUR] and to [node->size + offset] for
    [SEEK_END], each reduced modulo 2^32, the position being a
    [uint32_t], and returns the new position converted to [int].  The
    row then holds that position.  Nothing is clamped: whenever the
    target is in [0, 2^31), the position and the result are the target
    itself, beyond the node's size or not. *)
Theorem vfs_seek_moves_position st fd f n offset :
  vfs_get_file st fd = Some f ->
  node f = Some n ->
  let moved (p : Z) := Done (upd_file st fd (fun r => set_pos r p), s32 p) in
  vfs_seek st fd offset SEEK_SET = moved (u32 offset)
  /\ vfs_seek st fd offset SEEK_CUR = moved (u32 (pos f + offset))
  /\ (forall nd, nodes (env st) !! n = Some nd ->
        vfs_seek st fd offset SEEK_END = moved (u32 (size nd + offset)))
  /\ (forall p, pos <$> vfs_get_file (upd_file st fd (fun r => set_pos r p)) fd = Some p)
  /\ (forall target, 0 <= target < 2 ^ 31 ->
        moved (u32 target) = Done (upd_file st fd (fun r => set_pos r target), target)).
Proof.
  intros Hf Hn moved.
  split.
  { unfold vfs_seek. rewrite Hf, Hn, Z.eqb_refl. reflexivity. }
  split.
  { unfold vfs_seek. rewrite Hf, Hn, seek_cur_not_set, Z.eqb_refl. reflexivity. }
  split.
  { intros nd Hnd. unfold vfs_seek.
    rewrite Hf, Hn, seek_end_not_set, seek_end_not_cur, Z.eqb_refl, Hnd. reflexivity. }
  split.
  { intros p. pose proof (vfs_get_file_Some _ _ _ Hf) as (_ & _ & Hu).
    rewrite (vfs_get_file_upd _ _ f) by (simpl; auto). reflexivity. }
  intros target Ht. unfold moved.
  rewrite u32_small by lia. now rewrite s32_small.
Qed.

(** C10: with a [whence] that is none of [SEEK_SET], [SEEK_CUR] and
    [SEEK_END], [vfs_seek] returns -1 and the whole state, the descriptor
    table with the position of [fd] included, is as before. *)
Theorem vfs_seek_invalid_whence st fd offset whence :
  whence <> SEEK_SET -> whence <> SEEK_CUR -> whence <> SEEK_END ->
  vfs_seek st fd offset whence = Done (st, -1).
Proof.
  intros H1 H2 H3. unfold vfs_seek.
  destruct (vfs_get_file st fd) as [f |]; [| reflexivity].
  destruct (node f); [| reflexivity].
  apply Z.eqb_neq in H1, H2, H3. now rewrite H1, H2, H3.
Qed.

(** *** [vfs_read] and [vfs_write] *)

(** C2 (what the code does): on a descriptor that is not in use,
    [vfs_read] and [vfs_write] return -1 and leave the whole state as it
    was; so [errno] has the value it had before the call, it is not set
    to [EBADF]. *)
Theorem vfs_read_write_bad_fd st fd buffer sz :
  vfs_get_file st fd = None ->
  vfs_read st fd buffer sz = Done (st, -1)
  /\ vfs_write st fd buffer sz = Done (st, -1)
  /\ (forall st' r,
        vfs_read st fd buffer sz = Done (st', r)
        \/ vfs_write st fd buffer sz = Done (st', r) ->
        r = -1 /\ errno (env st') = errno (env st)).
Proof.
  intros Hf. unfold vfs_read, vfs_write. rewrite Hf.
  do 2 (split; [reflexivity |]).
  intros st' r [[= <- <-] | [= <- <-]]; auto.
Qed.

(** *** [vfs_init] and [vfs_alloc_fd] *)

(** C9: after [vfs_init] the descriptors 0, 1 and 2 are in use and have a
    NULL node; [vfs_read] and [vfs_write] on them return -1 for every
    buffer and size; and [vfs_alloc_fd], in any state, returns -1 or an
    index from 3 up. *)
Theorem vfs_init_reserved_descriptors st :
  let st0 := fst (vfs_init st) in
  (forall fd, 0 <= fd < 3 ->
     exists f, vfs_get_file st0 fd = Some f /\ in_use f = true /\ node f = None)
  /\ (forall fd buffer sz, 0 <= fd < 3 ->
        vfs_read st0 fd buffer sz = Done (st0, -1)
        /\ vfs_write st0 fd buffer sz = Done (st0, -1))
  /\ (forall s, snd (vfs_alloc_fd s) = -1
                \/ 3 <= snd (vfs_alloc_fd s) < VFS_MAX_OPEN_FILES).
Proof.
  intros st0.
  assert (Hrow : forall fd, 0 <= fd < 3 -> vfs_get_file st0 fd = Some fresh_row).
  { intros fd Hfd. unfold vfs_get_file, st0, vfs_init. simpl.
    pose proof vfs_max_reserved as Hm.
    destruct (Z.ltb_spec fd 0); [lia |].
    destruct (Z.leb_spec VFS_MAX_OPEN_FILES fd); [lia |]. simpl.
    destruct (Z.to_nat VFS_MAX_OPEN_FILES) as [| [| [| m]]] eqn:E; try lia.
    assert (Hc : fd = 0 \/ fd = 1 \/ fd = 2) by lia.
    destruct Hc as [-> | [-> | ->]]; reflexivity. }
  split; [| split].
  - intros fd Hfd. exists fresh_row. auto.
  - intros fd buffer sz Hfd. unfold vfs_read, vfs_write.
    rewrite (Hrow fd Hfd). simpl. auto.
  - intros s. destruct (vfs_alloc_fd_cases s) as [-> | (i & f & Hi & Hm & _ & _ & ->)].
    + left. reflexivity.
    + right. simpl. lia.
Qed.

(** *** [vfs_resolve_path] *)

Lemma length_append (s t : string) :
  String.length (s +:+ t) = (String.length s + String.length t)%nat.
Proof. induction s as [| a s IH]; simpl; [reflexivity | now rewrite IH]. Qed.

Lemma extract_component_rest (p : string) (i : nat) :
  (String.length (snd (extract_component p i)) <= String.length p)%nat.
Proof.
  revert i. induction p as [| a r IH]; intros i; simpl; [lia |].
  destruct (is_slash a); simpl; [lia |].
  destruct (i <? 255)%nat.
  - specialize (IH (S i)). destruct (extract_component r (S i)). simpl in *. lia.
  - specialize (IH i). lia.
Qed.

Lemma skip_separator_length (p : string) :
  (String.length (skip_separator p) <= String.length p)%nat.
Proof. destruct p as [| a r]; simpl; [lia |]. destruct (is_slash a); simpl; lia. Qed.

(** One round of the outer loop shortens the path. *)
Lemma outer_round_shortens a r comp p' :
  extract_component (String a r) 0 = (comp, p') ->
  (String.length (skip_separator p') < String.length (String a r))%nat.
Proof.
  simpl. destruct (is_slash a) eqn:Sl.
  - intros [= _ <-]. simpl. rewrite Sl. lia.
  - pose proof (extract_component_rest r 1) as Hr.
    destruct (extract_component r 1) as [c1 r1]. intros [= _ <-].
    pose proof (skip_separator_length r1). simpl in *. lia.
Qed.

(** With as much fuel as the path has characters the loop finishes. *)
Lemma resolve_walk_finishes fuel w current p :
  (String.length p <= fuel)%nat ->
  resolve_walk fuel w current p <> OutOfFuel.
Proof.
  revert w current p. induction fuel as [| fuel IH]; intros w current p Hlen.
  - destruct p; simpl in *; [discriminate | lia].
  - destruct p as [| a r]; [discriminate |].
    unfold resolve_walk; fold resolve_walk.
    destruct (extract_component (String a r) 0) as [comp p'] eqn:E.
    apply outer_round_shortens in E.
    assert (Hf : (String.length (skip_separator p') <= fuel)%nat) by lia.
    destruct comp; [now apply IH |].
    destruct current as [cur |]; [| discriminate].
    destruct (nodes w !! cur) as [nd |]; [| discriminate].
    destruct (ops nd) as [o |]; [| discriminate].
    destruct (op_lookup (ops_table o)) as [lookup |]; [| discriminate].
    destruct (lookup w cur _) as [w' [next |]]; [| discriminate].
    now apply IH.
Qed.

(** [vfs_resolve_path] returns (or faults) on every path. *)
Lemma vfs_resolve_path_finishes st path :
  vfs_resolve_path st path <> OutOfFuel.
Proof.
  unfold vfs_resolve_path.
  destruct (g_root_fs st) as [fs |]; [| discriminate].
  destruct path as [[| c rest] |]; try discriminate.
  destruct (negb (is_slash c)); [discriminate |].
  destruct rest as [| c' rest']; [discriminate |].
  pose proof (resolve_walk_finishes (String.length (String c' rest')) (env st)
                (root fs) (String c' rest') (le_n _)) as H.
  destruct (resolve_walk _ _ _ _) as [[w n] | |]; simpl; congruence.
Qed.

(** The inner loop on a component followed by the end of the path or by a
    separator. *)
Lemma extract_component_stops c p i :
  has_slash c = false ->
  (p = EmptyString \/ exists p', p = String "/" p') ->
  extract_component (c +:+ p) i = (keep (255 - i) c, p).
Proof.
  intros Hc Hp. revert i. induction c as [| a c IH]; intros i.
  - simpl. destruct Hp as [-> | (p' & ->)]; simpl; now destruct (255 - i)%nat.
  - simpl in Hc. destruct (is_slash a) eqn:Sl; [discriminate |].
    simpl. rewrite Sl. destruct (Nat.ltb_spec i 255).
    + rewrite (IH Hc (S i)). replace (255 - i)%nat with (S (255 - S i)) by lia.
      reflexivity.
    + rewrite (IH Hc i). replace (255 - i)%nat with O by lia. reflexivity.
Qed.

Lemma slashes_length j : String.length (slashes j) = j.
Proof. induction j as [| j IH]; simpl; [reflexivity | now rewrite IH]. Qed.

(** Leading separators are empty components: each costs one round and
    changes nothing. *)
Lemma resolve_walk_slashes j fuel w current p :
  (String.length (slashes j +:+ p) <= fuel)%nat ->
  resolve_walk fuel w current (slashes j +:+ p) = resolve_walk (fuel - j) w current p.
Proof.
  revert fuel. induction j as [| j IH]; intros fuel Hlen.
  - simpl. now rewrite Nat.sub_0_r.
  - simpl in Hlen. destruct fuel as [| fuel]; [lia |].
    simpl. apply IH. lia.
Qed.

Lemma join_tail_form k cs :
  join (slashes (S k)) cs = EmptyString
  \/ exists p', join (slashes (S k)) cs = String "/" p'.
Proof. destruct cs as [| c cs']; [left | right]; simpl; eauto. Qed.

Lemma skip_separator_join k cs :
  skip_separator (join (slashes (S k)) cs) = tail_form k k cs.
Proof. destruct cs as [| c cs']; reflexivity. Qed.

(** The loop on a spelled path is the chain of lookups of its
    components, however many slashes separate them. *)
Lemma resolve_walk_components k cs :
  Forall component cs ->
  forall j fuel w current,
    (String.length (tail_form j k cs) <= fuel)%nat ->
    resolve_walk fuel w current (tail_form j k cs) = walk_components w current cs.
Proof.
  induction 1 as [| c cs' [Hne Hc] _ IH]; intros j fuel w current Hlen.
  - destruct fuel; reflexivity.
  - unfold tail_form in Hlen |- *. rewrite resolve_walk_slashes by exact Hlen.
    rewrite length_append, slashes_length in Hlen.
    set (rest := join (slashes (S k)) cs') in *.
    assert (Hl : (String.length (c +:+ rest) <= fuel - j)%nat) by lia.
    destruct c as [| a c]; [congruence |].
    destruct (fuel - j)%nat as [| f] eqn:F; [simpl in Hl; lia |].
    unfold resolve_walk; fold resolve_walk.
    pose proof (extract_component_stops (String a c) rest 0 Hc
                  (join_tail_form k cs')) as E.
    change (String a c +:+ rest) with (String a (c +:+ rest)) in *.
    cbv iota. rewrite E. simpl keep. simpl walk_components.
    destruct current as [cur |]; [| reflexivity].
    destruct (nodes w !! cur) as [nd |]; [| reflexivity].
    destruct (ops nd) as [o |]; [| reflexivity].
    destruct (op_lookup (ops_table o)) as [lookup |]; [| reflexivity].
    destruct (lookup w cur _) as [w' [next |]]; [| reflexivity].
    unfold rest. rewrite skip_separator_join. apply IH.
    rewrite <- skip_separator_join. fold rest.
    pose proof (skip_separator_length rest). simpl in Hl.
    rewrite length_append in Hl. lia.
Qed.

Lemma vfs_resolve_path_join k st cs :
  Forall component cs ->
  vfs_resolve_path st (Some (join (slashes (S k)) cs)) = resolve_components st cs.
Proof.
  intros Hcs. unfold vfs_resolve_path, resolve_components.
  destruct (g_root_fs st) as [fs |]; [| reflexivity].
  destruct cs as [| c cs']; [reflexivity |].
  change (join (slashes (S k)) (c :: cs'))
    with (String "/" (tail_form k k (c :: cs'))).
  change (negb (is_slash "/")) with false. cbv iota.
  destruct (tail_form k k (c :: cs')) as [| a r] eqn:T.
  - exfalso. inversion Hcs as [| ? ? [Hne _] _]; subst.
    unfold tail_form in T. destruct k; simpl in T; [| discriminate].
    destruct c; [congruence | discriminate].
  - rewrite <- T. rewrite (resolve_walk_components k _ Hcs k) by lia. reflexivity.
Qed.

(** *** [vfs_open] *)

Lemma vfs_open_failure_in_use st path fl st' :
  vfs_open st path fl = Done (st', -1) ->
  in_use <$> g_file_table st' = in_use <$> g_file_table st.
Proof.
  unfold vfs_open. destruct path as [p |]; [| now intros [= <-]].
  destruct (vfs_resolve_path st (Some p)) as [[st1 found] | |] eqn:R;
    simpl; try discriminate.
  apply vfs_resolve_path_table in R as [Rt _].
  destruct found as [n |]; simpl.
  - intros H. apply open_node_failure in H. now rewrite H, Rt.
  - destruct (flag_set fl O_CREAT); simpl.
    + destruct (create_missing st1 p) as [[st2 r] | |] eqn:Cm; simpl; try discriminate.
      apply create_missing_table in Cm.
      destruct r as [ret | [n |]].
      * intros [= <- _]. now rewrite Cm, Rt.
      * intros H. apply open_node_failure in H. now rewrite H, Cm, Rt.
      * intros [= <-]. now rewrite Cm, Rt.
    + intros [= <-]. now rewrite Rt.
Qed.

(** [vfs_open] returns (or faults) on every path: its two path
    resolutions finish. *)
Lemma vfs_open_finishes st path fl :
  vfs_open st path fl <> OutOfFuel.
Proof.
  unfold vfs_open. destruct path as [p |]; [| discriminate].
  pose proof (vfs_resolve_path_finishes st (Some p)) as R.
  destruct (vfs_resolve_path st (Some p)) as [[st1 found] | |]; simpl;
    [| discriminate | congruence].
  assert (Hnode : forall s n, open_node s n fl <> OutOfFuel).
  { intros s n. unfold open_node. destruct (vfs_alloc_fd s) as [s1 fd].
    destruct (fd <? 0); [discriminate |].
    assert (Hfin : forall s2, open_finish s2 fd n fl <> OutOfFuel).
    { intros s2. unfold open_finish.
      destruct (flag_set fl O_TRUNC); [destruct (_ !! n) |]; simpl;
        try discriminate;
        (destruct (flag_set fl O_APPEND); [destruct (_ !! n) |]; discriminate). }
    destruct (_ !! n) as [nd |]; [| discriminate].
    destruct (ops nd) as [o |]; [| apply Hfin].
    destruct (op_open (ops_table o)) as [open |]; [| apply Hfin].
    destruct (open _ _ _) as [w ret].
    destruct (ret =? 0); [apply Hfin | discriminate]. }
  destruct found as [n |]; simpl; [apply Hnode |].
  destruct (flag_set fl O_CREAT); simpl; [| discriminate].
  assert (Hc : create_missing st1 p <> OutOfFuel).
  { unfold create_missing.
    destruct p as [| c [| c' rest]]; try discriminate.
    destruct (is_slash c); [| discriminate].
    destruct (has_slash _); [discriminate |].
    destruct (g_root_fs st1) as [fs |]; [| discriminate].
    destruct (root fs) as [rt |]; [| discriminate].
    destruct (_ !! rt) as [rn |]; [| discriminate].
    destruct (ops rn) as [o |]; [| discriminate].
    destruct (op_create (ops_table o)) as [create |]; [| discriminate].
    destruct (create _ _ _ _) as [w ret].
    destruct (ret =? 0); [| discriminate].
    pose proof (vfs_resolve_path_finishes (set_env st1 w)
                  (Some (String c (String c' rest)))) as R2.
    destruct (vfs_resolve_path _ _) as [[s2 n] | |]; simpl; congruence. }
  destruct (create_missing st1 p) as [[st2 [ret | [n |]]] | |]; simpl;
    try discriminate; try congruence; apply Hnode.
Qed.

(** C4: when [vfs_open] returns -1, the in-use flags of the descriptor
    table are what they were, so the same descriptors are in use; and when
    the path resolves, a descriptor [i] is allocated and the node's [open]
    operation then fails, [vfs_open] returns -1 with row [i] cleared, free
    again. *)
Theorem vfs_open_failure_restores_table st path fl :
  (forall st', vfs_open st path fl = Done (st', -1) ->
     in_use <$> g_file_table st' = in_use <$> g_file_table st
     /\ forall fd, vfs_get_file st' fd = None <-> vfs_get_file st fd = None)
  /\ (forall st1 n st2 (i : nat) nd o open w ret,
        vfs_resolve_path st path = Done (st1, Some n) ->
        vfs_alloc_fd st1 = (st2, Z.of_nat i) ->
        nodes (env st1) !! n = Some nd ->
        ops nd = Some o ->
        op_open (ops_table o) = Some open ->
        open (env st1) n fl = (w, ret) ->
        ret <> 0 ->
        exists st', vfs_open st path fl = Done (st', -1)
                    /\ g_file_table st' !! i = Some free_row
                    /\ vfs_get_file st' (Z.of_nat i) = None).
Proof.
  split.
  - intros st' H. apply vfs_open_failure_in_use in H.
    split; [exact H | now apply same_in_use_same_descriptors].
  - intros st1 n st2 i nd o open w ret R A Hn Ho Hop Hcall Hret.
    destruct path as [p |];
      [| unfold vfs_resolve_path in R; destruct (g_root_fs st); discriminate].
    unfold vfs_open. rewrite R. simpl. unfold open_node. rewrite A.
    destruct (vfs_alloc_fd_cases st1) as [E | (j & f & Hj & Hm & Hf & Hu & E)];
      rewrite A in E; injection E as E1 E2; [lia |].
    apply Nat2Z.inj in E2. subst j st2.
    destruct (Z.ltb_spec (Z.of_nat i) 0); [lia |].
    simpl. rewrite Hn, Ho, Hop, Hcall.
    apply Z.eqb_neq in Hret. rewrite Hret.
    eexists. split; [reflexivity |].
    unfold vfs_free_fd.
    destruct (Z.leb_spec 0 (Z.of_nat i)); [| lia].
    destruct (Z.ltb_spec (Z.of_nat i) VFS_MAX_OPEN_FILES); [| lia].
    simpl. rewrite Nat2Z.id.
    assert (Hrow : <[i:=free_row]>
                     (alter (fun f0 => mk_file (Some n) fl 0 (in_use f0)) i
                        (<[i:=fresh_row]> (g_file_table st1))) !! i = Some free_row).
    { apply list_lookup_insert_eq. rewrite length_alter, length_insert.
      eapply lookup_lt_Some; eauto. }
    split; [exact Hrow |].
    unfold vfs_get_file. simpl.
    destruct (Z.ltb_spec (Z.of_nat i) 0); [lia |].
    destruct (Z.leb_spec VFS_MAX_OPEN_FILES (Z.of_nat i)); [lia |].
    simpl. rewrite Nat2Z.id, Hrow. reflexivity.
Qed.

(** C5: for every state (mounted root or not) and every sequence of
    components, the path spelled with single slashes and the path spelled
    with double slashes resolve alike: [vfs_resolve_path] returns the same
    node and leaves the same state, and it does return.  With components
    [a] and [b] the two paths are ["/a/b"] and ["//a//b"].  The same holds
    with any number of slashes in front of each component. *)
Theorem vfs_resolve_path_redundant_slashes st cs :
  Forall component cs ->
  vfs_resolve_path st (Some (join "/" cs)) = vfs_resolve_path st (Some (join "//" cs))
  /\ (forall k, vfs_resolve_path st (Some (join (slashes (S k)) cs))
                = vfs_resolve_path st (Some (join "/" cs)))
  /\ vfs_resolve_path st (Some (join "/" cs)) <> OutOfFuel.
Proof.
  intros Hcs.
  assert (Hk : forall k, vfs_resolve_path st (Some (join (slashes (S k)) cs))
                         = vfs_resolve_path st (Some (join "/" cs))).
  { intros k. rewrite vfs_resolve_path_join by exact Hcs.
    symmetry. exact (vfs_resolve_path_join 0 st cs Hcs). }
  split; [symmetry; exact (Hk 1%nat) |].
  split; [exact Hk | apply vfs_resolve_path_finishes].
Qed.

(** *** [vfs_mkdir], [vfs_rmdir], [vfs_unlink] *)

(** C8 (what the code does): for a path [/name] whose [name] holds a
    further ['/'], [vfs_rmdir] and [vfs_unlink] do not reject the path:
    they call the root node's [rmdir] and [unlink] operation on [name] and
    return what it returns.  [vfs_mkdir] rejects the same path with -1,
    without a call. *)
Theorem vfs_rmdir_unlink_skip_depth_check st fs r rn o c rest :
  g_root_fs st = Some fs ->
  root fs = Some r ->
  nodes (env st) !! r = Some rn ->
  ops rn = Some o ->
  has_slash (String c rest) = true ->
  let nm := String c rest in
  let path := Some (String "/" nm) in
  (forall op, op_rmdir (ops_table o) = Some op ->
     vfs_rmdir st path
     = Done (set_env st (fst (op (env st) r nm)), snd (op (env st) r nm)))
  /\ (forall op, op_unlink (ops_table o) = Some op ->
        vfs_unlink st path
        = Done (set_env st (fst (op (env st) r nm)), snd (op (env st) r nm)))
  /\ (forall mode, vfs_mkdir st path mode = Done (st, -1)).
Proof.
  intros Hfs Hr Hrn Ho Hs nm path. repeat split.
  - intros op Hf. unfold vfs_rmdir, path. rewrite Hfs. simpl.
    rewrite Hr, Hrn, Ho, Hf. now destruct (op (env st) r nm).
  - intros op Hf. unfold vfs_unlink, path. rewrite Hfs. simpl.
    rewrite Hr, Hrn, Ho, Hf. now destruct (op (env st) r nm).
  - intros mode. unfold vfs_mkdir, path. rewrite Hfs. simpl.
    simpl in Hs. now rewrite Hs.
Qed.

End Facts.

End VFSProps.

(** * Properties of [ext2_super.c] and [ext2_write.c] *)

Module Ext2Props.

Import Ext2.

Section Facts.

Context `{HD : Ext2Header} `{AL : Allocator}.

Implicit Types (k : kenv) (sb b : list byte).

(** *** The block device *)

Lemma sector_data_length (d : blkdev) (sector : Z) (x : list byte) :
  0 <= sector -> sector_data d sector = Some x -> length x = 512%nat.
Proof.
  unfold sector_data. intros Hs. destruct (io_error d sector); [discriminate |].
  destruct (Z.leb_spec (512 * sector + 512) (Z.of_nat (length (image d)))); [| discriminate].
  intros [= <-]. rewrite length_take, length_drop. lia.
Qed.

Lemma do_kmalloc_frame k n k' p :
  do_kmalloc k n = (k', p) ->
  k_reads k' = k_reads k /\ k_dev k' = k_dev k /\ k_errno k' = k_errno k.
Proof.
  unfold do_kmalloc. destruct (kmalloc (k_heap k) n). intros [= <- _]. auto.
Qed.

Lemma store_at_length b off data b' :
  0 <= off -> store_at b off data = Done b' -> length b' = length b.
Proof.
  unfold store_at. intros Ho.
  destruct (Z.leb_spec (off + Z.of_nat (length data)) (Z.of_nat (length b))); [| discriminate].
  intros [= <-]. rewrite !length_app, length_take, length_drop. lia.
Qed.

Lemma u32_nonneg z : 0 <= u32 z.
Proof. unfold u32. apply Z.mod_pos_bound. lia. Qed.

(** *** [read_block] *)

Lemma read_block_loop_trace n :
  forall k sector b off i k' r,
    0 <= off ->
    read_block_loop k sector b off i n = Done (k', r) ->
    k_dev k' = k_dev k /\ k_heap k' = k_heap k
    /\ forall b', r = Some b' ->
         k_reads k' = k_reads k ++ map (fun j => u32 (sector + j)) (count_from i n)
         /\ length b' = length b.
Proof.
  induction n as [| n IH]; intros k sector b off i k' r Hoff; simpl.
  - intros [= <- <-]. do 2 (split; [reflexivity |]).
    intros b' [= <-]. now rewrite app_nil_r.
  - unfold virtio_blk_read.
    destruct (sector_data (k_dev k) (u32 (sector + i))) as [d |]; simpl.
    + destruct (store_at b (off + u32 (i * 512)) d) as [b1 | |] eqn:St; simpl; try discriminate.
      intros H. apply IH in H as (Hd & Hh & Hr); [| exact Hoff].
      simpl in *. do 2 (split; [assumption |]).
      intros b' Eb. destruct (Hr b' Eb) as [-> ->]. split.
      * rewrite <- app_assoc. reflexivity.
      * eapply store_at_length; [| exact St]. pose proof (u32_nonneg (i * 512)). lia.
    + intros [= <- <-]. simpl. do 2 (split; [reflexivity |]). discriminate.
Qed.

Lemma read_block_trace k block_num b off bsize k' r :
  0 <= off ->
  read_block k block_num b off bsize = Done (k', r) ->
  k_dev k' = k_dev k /\ k_heap k' = k_heap k
  /\ forall b', r = Some b' ->
       k_reads k' = k_reads k ++ block_sectors block_num bsize
       /\ length b' = length b.
Proof.
  unfold read_block, block_sectors. intros Hoff H.
  apply read_block_loop_trace in H; [| exact Hoff]. exact H.
Qed.

(** *** The group descriptor table *)

Lemma read_gdt_loop_trace n :
  forall k gdt_block bsize gd i k' r,
    read_gdt_loop k gdt_block bsize gd i n = Done (k', r) ->
    k_dev k' = k_dev k /\ k_heap k' = k_heap k
    /\ forall gd', r = Some gd' ->
         k_reads k' = k_reads k
                      ++ flat_map (fun j => block_sectors (u32 (gdt_block + j)) bsize)
                                  (count_from i n)
         /\ length gd' = length gd.
Proof.
  induction n as [| n IH]; intros k gdt_block bsize gd i k' r; simpl.
  - intros [= <- <-]. do 2 (split; [reflexivity |]).
    intros gd' [= <-]. now rewrite app_nil_r.
  - destruct (read_block k (u32 (gdt_block + i)) gd (u32 (i * bsize)) bsize)
      as [[k1 [gd1 |]] | |] eqn:Rb; simpl; try discriminate.
    + apply read_block_trace in Rb as (Hd & Hh & Hr); [| apply u32_nonneg].
      destruct (Hr gd1 eq_refl) as [Ht Hl].
      intros H. apply IH in H as (Hd' & Hh' & Hr').
      split; [congruence |]. split; [congruence |].
      intros gd' Eg. destruct (Hr' gd' Eg) as [-> ->]. split.
      * rewrite Ht, <- app_assoc. reflexivity.
      * exact Hl.
    + apply read_block_trace in Rb as (Hd & Hh & _); [| apply u32_nonneg].
      intros [= <- <-]. do 2 (split; [assumption |]). discriminate.
Qed.

(** *** What a block read stores *)

Lemma store_at_Done b (off : Z) (data : list byte) b' :
  0 <= off ->
  store_at b off data = Done b' ->
  b' = take (Z.to_nat off) b ++ data ++ drop (Z.to_nat off + length data) b
  /\ (Z.to_nat off + length data <= length b)%nat.
Proof.
  unfold store_at. intros Ho.
  destruct (Z.leb_spec (off + Z.of_nat (length data)) (Z.of_nat (length b))); [| discriminate].
  intros [= <-]. split; [reflexivity | lia].
Qed.

Lemma sector_data_Some (d : blkdev) (sector : Z) (x : list byte) :
  0 <= sector ->
  sector_data d sector = Some x ->
  x = device_bytes d (512 * sector) 512
  /\ 512 * sector + 512 <= Z.of_nat (length (image d)).
Proof.
  unfold sector_data, device_bytes. intros Hs. destruct (io_error d sector); [discriminate |].
  destruct (Z.leb_spec (512 * sector + 512) (Z.of_nat (length (image d)))); [| discriminate].
  intros [= <-]. split; [reflexivity | lia].
Qed.

Lemma device_bytes_split (d : blkdev) (from n m : Z) :
  0 <= from -> 0 <= n -> 0 <= m ->
  device_bytes d from n ++ device_bytes d (from + n) m = device_bytes d from (n + m).
Proof.
  intros Hf Hn Hm. unfold device_bytes.
  rewrite !Z2Nat.inj_add by lia. rewrite <- drop_drop. apply take_take_drop.
Qed.

Lemma read_block_loop_copies n :
  forall k sector b off i k' b',
    0 <= off -> 0 <= sector -> 0 <= i ->
    sector + i + Z.of_nat n <= 2 ^ 32 ->
    (i + Z.of_nat n) * 512 <= 2 ^ 32 ->
    read_block_loop k sector b off i n = Done (k', Some b') ->
    b' = take (Z.to_nat (off + 512 * i)) b
         ++ device_bytes (k_dev k) (512 * (sector + i)) (512 * Z.of_nat n)
         ++ drop (Z.to_nat (off + 512 * (i + Z.of_nat n))) b.
Proof.
  induction n as [| n IH]; intros k sector b off i k' b' Hoff Hs Hi Hfit Hfit';
    cbn [read_block_loop]; unfold virtio_blk_read.
  - intros [= _ <-]. unfold device_bytes. simpl.
    rewrite Z.add_0_r. now rewrite take_drop.
  - rewrite (VFSProps.u32_small (sector + i)) by lia.
    rewrite (VFSProps.u32_small (i * 512)) by lia.
    destruct (sector_data (k_dev k) (sector + i)) as [d |] eqn:Sd; [| discriminate].
    apply sector_data_Some in Sd as [-> Hlen]; [| lia].
    destruct (store_at b (off + i * 512) _) as [b1 | |] eqn:St; simpl; try discriminate.
    apply store_at_Done in St as [-> Hb]; [| lia].
    assert (Hd : length (device_bytes (k_dev k) (512 * (sector + i)) 512) = 512%nat).
    { unfold device_bytes. rewrite length_take, length_drop. lia. }
    rewrite Hd in Hb |- *.
    intros H. apply IH in H; try lia. cbn [k_dev] in H. rewrite H. clear H IH.
    replace (512 * Z.of_nat (S n)) with (512 + 512 * Z.of_nat n) by lia.
    rewrite <- (device_bytes_split (k_dev k) (512 * (sector + i)) 512 (512 * Z.of_nat n))
      by lia.
    replace (512 * (sector + (i + 1))) with (512 * (sector + i) + 512) by lia.
    rewrite <- !app_assoc.
    replace (Z.to_nat (off + 512 * (i + 1))) with (Z.to_nat (off + i * 512) + 512)%nat by lia.
    replace (Z.to_nat (off + 512 * i)) with (Z.to_nat (off + i * 512)) by lia.
    set (o := Z.to_nat (off + i * 512)) in *.
    set (x := device_bytes (k_dev k) (512 * (sector + i)) 512) in *.
    set (y := device_bytes (k_dev k) (512 * (sector + i) + 512) (512 * Z.of_nat n)).
    assert (Ho : length (take o b) = o) by (rewrite length_take; lia).
    rewrite (app_assoc (take o b) x).
    rewrite take_app_length' by (rewrite length_app; lia).
    rewrite <- !app_assoc. f_equal. f_equal. f_equal.
    rewrite (app_assoc (take o b) x).
    replace (Z.to_nat (off + 512 * (i + 1 + Z.of_nat n))) with (o + 512 + n * 512)%nat by lia.
    replace (Z.to_nat (off + 512 * (i + Z.of_nat (S n)))) with (o + 512 + n * 512)%nat by lia.
    rewrite drop_app_ge by (rewrite length_app; lia).
    rewrite length_app, Ho, Hd, drop_drop. f_equal. lia.
Qed.

Lemma read_block_loop_room n :
  forall k sector b off i k' b',
    0 <= off -> 0 <= i ->
    (i + Z.of_nat n) * 512 <= 2 ^ 32 ->
    n <> 0%nat ->
    read_block_loop k sector b off i n = Done (k', Some b') ->
    off + 512 * (i + Z.of_nat n) <= Z.of_nat (length b).
Proof.
  induction n as [| n IH]; intros k sector b off i k' b' Hoff Hi Hfit Hn; [contradiction |].
  cbn [read_block_loop]. unfold virtio_blk_read.
  destruct (sector_data (k_dev k) (u32 (sector + i))) as [d |] eqn:Sd; [| discriminate].
  pose proof (sector_data_length _ _ _ (u32_nonneg _) Sd) as Ld.
  rewrite (VFSProps.u32_small (i * 512)) by lia.
  destruct (store_at b (off + i * 512) d) as [b1 | |] eqn:St; cbn [bind]; try discriminate.
  assert (Ho : 0 <= off + i * 512) by lia.
  pose proof (store_at_length b (off + i * 512) d b1 Ho St) as L1.
  apply store_at_Done in St as [_ Hb]; [| lia].
  destruct n as [| n']; [intros _; lia |].
  intros H. apply IH in H; try lia.
Qed.

Lemma read_block_stores k block_num b off bsize k' b' :
  0 <= off ->
  512 <= bsize < 2 ^ 32 ->
  read_block k block_num b off bsize = Done (k', Some b') ->
  off + 512 * (bsize / 512) <= Z.of_nat (length b)
  /\ b' = take (Z.to_nat off) b ++ block_bytes (k_dev k) block_num bsize
          ++ drop (Z.to_nat (off + 512 * (bsize / 512))) b
  /\ length (block_bytes (k_dev k) block_num bsize) = Z.to_nat (512 * (bsize / 512))
  /\ length b' = length b
  /\ k_dev k' = k_dev k.
Proof.
  intros Hoff Hbs H.
  pose proof (u32_nonneg (block_num * bsize)) as Hn.
  assert (Hu : u32 (block_num * bsize) < 2 ^ 32) by (unfold u32; apply Z.mod_pos_bound; lia).
  assert (Hq : 1 <= bsize / 512) by (apply Z.div_le_lower_bound; lia).
  assert (Hs : 0 <= u32 (block_num * bsize) / 512) by (apply Z.div_pos; lia).
  assert (Hq' : bsize / 512 < 2 ^ 23) by (apply Z.div_lt_upper_bound; lia).
  assert (Hs' : u32 (block_num * bsize) / 512 < 2 ^ 23) by (apply Z.div_lt_upper_bound; lia).
  pose proof (read_block_trace _ _ _ _ _ _ _ Hoff H) as (Hd & _ & Ht).
  destruct (Ht b' eq_refl) as [_ Hl].
  unfold read_block in H.
  assert (Hroom : off + 512 * (0 + Z.of_nat (Z.to_nat (bsize / 512))) <= Z.of_nat (length b)).
  { eapply read_block_loop_room; [exact Hoff | | | | exact H]; lia. }
  rewrite Z2Nat.id, Z.add_0_l in Hroom by lia.
  apply read_block_loop_copies in H; try lia.
  rewrite Z2Nat.id in H by lia.
  replace (off + 512 * 0) with off in H by lia.
  replace (u32 (block_num * bsize) / 512 + 0) with (u32 (block_num * bsize) / 512) in H
    by lia.
  replace (0 + bsize / 512) with (bsize / 512) in H by lia.
  fold (block_bytes (k_dev k) block_num bsize) in H.
  split; [exact Hroom |]. split; [exact H |]. split; [| split; [exact Hl | exact Hd]].
  rewrite H in Hl. rewrite !length_app, length_take, length_drop in Hl. lia.
Qed.

(** Replacing a stretch of a list: what is before the end of the stretch,
    and what is after it. *)
Lemma splice_take {A : Type} (b x : list A) (o : nat) :
  (o <= length b)%nat ->
  take (o + length x) (take o b ++ x ++ drop (o + length x) b) = take o b ++ x.
Proof.
  intros Ho. rewrite app_assoc.
  apply take_app_length'. rewrite length_app, length_take. lia.
Qed.

Lemma splice_drop {A : Type} (b x : list A) (o m : nat) :
  (o + length x <= length b)%nat ->
  (o + length x <= m)%nat ->
  drop m (take o b ++ x ++ drop (o + length x) b) = drop m b.
Proof.
  intros Ho Hm. rewrite app_assoc.
  rewrite drop_app_ge by (rewrite length_app, length_take; lia).
  rewrite length_app, length_take, drop_drop. f_equal. lia.
Qed.

(** The loop over the table's blocks stores them one after the other,
    and has room for them. *)
Lemma read_gdt_loop_stores n :
  forall k gdt_block bsize gd i k' gd',
    0 <= i ->
    512 <= bsize < 2 ^ 32 ->
    512 * (bsize / 512) = bsize ->
    i * bsize <= Z.of_nat (length gd) < 2 ^ 32 ->
    read_gdt_loop k gdt_block bsize gd i n = Done (k', Some gd') ->
    (i + Z.of_nat n) * bsize <= Z.of_nat (length gd)
    /\ gd' = take (Z.to_nat (i * bsize)) gd
             ++ flat_map (fun j => block_bytes (k_dev k) (u32 (gdt_block + j)) bsize)
                         (count_from i n)
             ++ drop (Z.to_nat ((i + Z.of_nat n) * bsize)) gd.
Proof.
  induction n as [| n IH]; intros k gdt_block bsize gd i k' gd' Hi Hbs Hmul Hlen;
    cbn [read_gdt_loop count_from flat_map].
  - intros [= _ <-]. split; [lia |].
    replace ((i + Z.of_nat 0) * bsize) with (i * bsize) by lia.
    simpl. now rewrite take_drop.
  - assert (Hib : 0 <= i * bsize) by nia.
    rewrite (VFSProps.u32_small (i * bsize)) by lia.
    destruct (read_block k (u32 (gdt_block + i)) gd (i * bsize) bsize)
      as [[k1 [gd1 |]] | |] eqn:Rb; cbn [bind]; try discriminate.
    apply read_block_stores in Rb as (Hroom & E1 & Lb & L1 & Hd); [| lia | lia].
    rewrite Hmul in Hroom, E1, Lb.
    intros H.
    assert (Hnext : (i + 1) * bsize <= Z.of_nat (length gd1) < 2 ^ 32) by (rewrite L1; nia).
    apply (IH k1 gdt_block bsize gd1 (i + 1) k' gd' ltac:(lia) Hbs Hmul Hnext) in H
      as [Hroom' E'].
    rewrite L1 in Hroom'. split; [nia |].
    rewrite E', Hd. clear E' IH.
    set (x := block_bytes (k_dev k) (u32 (gdt_block + i)) bsize) in *.
    set (o := Z.to_nat (i * bsize)) in *.
    replace (Z.to_nat (i * bsize + bsize)) with (o + length x)%nat in E1 by lia.
    replace (Z.to_nat ((i + 1) * bsize)) with (o + length x)%nat by nia.
    rewrite E1.
    rewrite splice_take by lia.
    rewrite splice_drop by nia.
    rewrite <- !app_assoc. f_equal. f_equal. f_equal. f_equal. f_equal. nia.
Qed.

Lemma udiv_Done (x y q : Z) : udiv x y = Done q -> y <> 0 /\ q = x / y.
Proof.
  unfold udiv. destruct (Z.eqb_spec y 0); [discriminate |]. now intros [= <-].
Qed.

Lemma shl_int_Done (a n v : Z) :
  shl_int a n = Done v -> 0 <= n < 32 /\ v = a * 2 ^ n /\ v < 2 ^ 31.
Proof.
  unfold shl_int.
  destruct (Z.ltb_spec n 0); [discriminate |].
  destruct (Z.leb_spec 32 n); [discriminate |]. simpl.
  destruct (Z.ltb_spec (a * 2 ^ n) (2 ^ 31)); [| discriminate].
  intros [= <-]. lia.
Qed.

(** What [ext2_mount] has established when it returns 0 after the
    superblock was read. *)
Lemma mount_geometry_success k (fs : ext2_fs_t) a sb k' (fs' : ext2_fs_t) :
  mount_geometry k fs a sb = Done (k', fs', 0) ->
  superblock fs' = superblock fs
  /\ block_size fs' = u32 (1024 * 2 ^ s_log_block_size sb)
  /\ EXT2_MIN_BLOCK_SIZE <= block_size fs' <= EXT2_MAX_BLOCK_SIZE
  /\ num_groups fs'
     = u32 (s_blocks_count sb + s_blocks_per_group sb - 1) / s_blocks_per_group sb
  /\ (exists g gd, group_desc fs' = Some (mk_buffer g gd)
                   /\ length gd = Z.to_nat (u32 (gdt_blocks_of fs' * block_size fs')))
  /\ k_reads k' = k_reads k ++ gdt_sectors sb fs'
  /\ k_dev k' = k_dev k
  /\ 512 * (block_size fs' / 512) = block_size fs'
  /\ 0 <= gdt_blocks_of fs' * block_size fs' < 2 ^ 32
  /\ (forall g gd, group_desc fs' = Some (mk_buffer g gd) -> gd = gdt_bytes (k_dev k) sb fs').
Proof.
  unfold mount_geometry.
  destruct (shl_int 1024 (s_log_block_size sb)) as [v | |] eqn:Sh; simpl; try discriminate.
  apply shl_int_Done in Sh as (Hlog & -> & Hv).
  assert (Hpow : 1 <= 2 ^ s_log_block_size sb)
    by (apply Z.pow_le_mono_r with (b := 0); lia).
  assert (Hmul : 512 * (u32 (1024 * 2 ^ s_log_block_size sb) / 512)
                 = u32 (1024 * 2 ^ s_log_block_size sb)).
  { rewrite VFSProps.u32_small by lia.
    replace (1024 * 2 ^ s_log_block_size sb) with (2 * 2 ^ s_log_block_size sb * 512) by lia.
    rewrite Z.div_mul by lia. lia. }
  assert (Hrange : 512 <= u32 (1024 * 2 ^ s_log_block_size sb) < 2 ^ 32)
    by (rewrite VFSProps.u32_small by lia; lia).
  clear Hpow Hv Hlog.
  set (bs := u32 (1024 * 2 ^ s_log_block_size sb)) in *.
  destruct (Z.ltb_spec bs EXT2_MIN_BLOCK_SIZE); simpl; [discriminate |].
  destruct (Z.ltb_spec EXT2_MAX_BLOCK_SIZE bs); simpl; [discriminate |].
  destruct (udiv _ (s_blocks_per_group sb)) as [ng | |] eqn:Ng; simpl; try discriminate.
  apply udiv_Done in Ng as [_ ->].
  destruct (udiv bs _) as [ipb | |] eqn:Ipb; simpl; try discriminate.
  destruct (udiv _ (bs / sizeof_group_desc)) as [gdt_blocks | |] eqn:Gb; simpl;
    try discriminate.
  apply udiv_Done in Gb as [Hdpb ->].
  set (ng := u32 (s_blocks_count sb + s_blocks_per_group sb - 1) / s_blocks_per_group sb)
    in *.
  set (dpb := bs / sizeof_group_desc) in *.
  set (gb := u32 (ng + dpb - 1) / dpb) in *.
  assert (Hgb : 0 <= gb).
  { assert (0 <= dpb) by (apply Z.div_pos; unfold sizeof_group_desc; lia).
    apply Z.div_pos; [apply u32_nonneg | lia]. }
  destruct (do_kmalloc k _) as [k1 [g |]] eqn:Km; [| discriminate].
  apply do_kmalloc_frame in Km as (Kr & Kd & _).
  destruct (read_gdt_loop _ _ _ _ _ _) as [[k2 [gd |]] | |] eqn:Lp; simpl; try discriminate.
  pose proof (read_gdt_loop_trace _ _ _ _ _ _ _ _ Lp) as (Ld & _ & Lr).
  destruct (Lr gd eq_refl) as [Lt Ll].
  pose proof (u32_nonneg (gb * bs)) as Hsz.
  assert (Hsz' : u32 (gb * bs) < 2 ^ 32) by (unfold u32; apply Z.mod_pos_bound; lia).
  assert (Hle : u32 (gb * bs) <= gb * bs) by (unfold u32; apply Z.mod_le; nia).
  apply read_gdt_loop_stores in Lp as [Hroom Hcontent]; try assumption; try lia;
    [| rewrite length_replicate, Z2Nat.id by lia; lia].
  rewrite length_replicate, !Z2Nat.id in Hroom by lia.
  assert (Hfit : gb * bs = u32 (gb * bs)) by lia.
  rewrite drop_ge in Hcontent by (rewrite length_replicate; lia).
  rewrite app_nil_r in Hcontent. simpl in Hcontent.
  intros [= <- <-]. simpl. unfold gdt_sectors, gdt_blocks_of, gdt_bytes. simpl.
  fold ng dpb gb.
  split; [reflexivity |]. split; [reflexivity |]. split; [lia |].
  split; [reflexivity |]. split.
  { exists g, gd. split; [reflexivity |]. rewrite Ll. apply length_replicate. }
  split; [rewrite Lt, Kr; reflexivity |]. split; [congruence |].
  split; [exact Hmul |]. split; [nia |].
  intros g' gd' [= _ <-]. rewrite <- Kd. exact Hcontent.
Qed.

(** *** [ext2_mount] *)


(** The two checked parts of the state after a mount that returns 0, and
    the number of groups when the superblock announces blocks and the sum
    of the rounding does not wrap. *)
Lemma ext2_mount_success_state k (fs : option ext2_fs_t) (dev : option Z) k' f :
  ext2_mount k fs dev = Done (k', Some f, 0) ->
  exists sbuf : buffer,
    superblock f = Some sbuf
    /\ s_magic (buf_bytes sbuf) = EXT2_SUPER_MAGIC
    /\ EXT2_MIN_BLOCK_SIZE <= block_size f <= EXT2_MAX_BLOCK_SIZE
    /\ num_groups f
       = u32 (s_blocks_count (buf_bytes sbuf) + s_blocks_per_group (buf_bytes sbuf) - 1)
         / s_blocks_per_group (buf_bytes sbuf).
Proof.
  unfold ext2_mount.
  destruct fs as [fs0 |], dev as [d |]; try discriminate.
  destruct (do_kmalloc k EXT2_SUPERBLOCK_SIZE) as [k1 [a |]]; [| discriminate].
  unfold virtio_blk_read. cbn [k_dev k_heap k_errno k_reads].
  destruct (sector_data (k_dev k1) 2) as [lo |]; [| discriminate].
  cbn [k_dev k_heap k_errno k_reads].
  destruct (sector_data (k_dev k1) 3) as [hi |]; [| discriminate].
  destruct (Z.eqb_spec (s_magic (lo ++ hi)) EXT2_SUPER_MAGIC) as [Mg | Mg]; simpl;
    [| discriminate].
  destruct (mount_geometry _ _ a (lo ++ hi)) as [[[k4 fs2] ret] | |] eqn:G;
    simpl; try discriminate.
  intros [= <- <- ->].
  apply mount_geometry_success in G as (Hsb & _ & Hr & Hn & _).
  exists (mk_buffer a (lo ++ hi)). simpl in *. auto.
Qed.

(** *** The write operations *)

(** C3 (what the code does): each of the five write operations returns
    -1, whatever its arguments, and leaves the kernel state, [errno]
    included, as it was. *)
Theorem ext2_write_stubs_fail k (fs : option ext2_fs_t) (inode : option Z)
    (nm : option string) (offset buf sz mode : Z) :
  ext2_write_file k fs inode offset buf sz = (k, -1)
  /\ ext2_create_file k fs inode nm mode = (k, -1)
  /\ ext2_create_dir k fs inode nm mode = (k, -1)
  /\ ext2_remove_file k fs inode nm = (k, -1)
  /\ ext2_remove_dir k fs inode nm = (k, -1).
Proof. repeat split. Qed.

End Facts.

End Ext2Props.

(** * The theorems at concrete inputs *)

Module Runs.

Import VFS Ext2 Demo VFSProps Ext2Props.

(** [vfs_read(999, buf, 16)] and [vfs_write(999, buf, 16)] after boot
    with [errno] cleared: both return -1 and [errno] is still 0. *)
Lemma vfs_read_write_bad_fd_999 :
  vfs_read booted 999 0 16 = Done (booted, -1)
  /\ vfs_write booted 999 0 16 = Done (booted, -1)
  /\ errno (env booted) = 0.
Proof.
  destruct (vfs_read_write_bad_fd booted 999 0 16) as (Hr & Hw & _);
    [vm_compute; reflexivity |].
  split; [exact Hr | split; [exact Hw | reflexivity]].
Defined.

(** Opening [/locked], whose [open] operation fails: -1, the same
    descriptors in use as before, row 3 free. *)
Lemma vfs_open_locked_fails :
  exists st', vfs_open booted (Some "/locked") O_RDONLY = Done (st', -1)
              /\ in_use <$> g_file_table st' = in_use <$> g_file_table booted
              /\ g_file_table st' !! 3%nat = Some free_row.
Proof.
  destruct (vfs_open_failure_restores_table booted (Some "/locked") O_RDONLY)
    as [Hsame Hopen].
  destruct (Hopen booted 13%nat (fst (vfs_alloc_fd booted)) 3%nat
              (mk_node 1 5 (Some 2%nat)) 2%nat (fun w _ _ => (w, -1)) (env booted) (-1))
    as (st' & Ho & Hrow & _);
    try (vm_compute; reflexivity); try discriminate.
  exists st'. split; [exact Ho |]. split; [| exact Hrow].
  exact (proj1 (Hsame st' Ho)).
Defined.

(** After [vfs_init]: reading descriptor 0 gives -1, and the first
    descriptor handed out is 3. *)
Lemma vfs_init_then_stdin :
  let st0 := fst (vfs_init booted) in
  vfs_read st0 0 0 16 = Done (st0, -1)
  /\ vfs_write st0 0 0 16 = Done (st0, -1)
  /\ snd (vfs_alloc_fd st0) = 3.
Proof.
  destruct (vfs_init_reserved_descriptors booted) as (_ & Hrw & _).
  destruct (Hrw 0 0 16) as [Hr Hw]; [lia |].
  split; [exact Hr | split; [exact Hw | reflexivity]].
Defined.

(** ["/a/b"] and ["//a//b"] resolve to the same node, node 12. *)
Lemma vfs_resolve_a_b :
  vfs_resolve_path booted (Some "/a/b") = vfs_resolve_path booted (Some "//a//b")
  /\ vfs_resolve_path booted (Some "/a/b") = Done (booted, Some 12%nat).
Proof.
  split; [| reflexivity].
  refine (proj1 (vfs_resolve_path_redundant_slashes booted ["a"; "b"] _)).
  repeat constructor; discriminate.
Defined.

(** Seeking descriptor 3, open on a 14-byte file, to offset 100: the
    position is 100, past the end of the file. *)
Lemma vfs_seek_past_end :
  exists st', vfs_seek opened 3 100 SEEK_SET = Done (st', 100)
              /\ pos <$> vfs_get_file st' 3 = Some 100
              /\ size <$> nodes (env st') !! 12%nat = Some 14.
Proof.
  destruct (vfs_seek_moves_position opened 3 (mk_file (Some 12%nat) 0 0 true) 12%nat 100)
    as (Hset & _ & _ & Hp & Hs); [vm_compute; reflexivity | reflexivity |].
  eexists. split; [rewrite Hset; apply Hs; lia |]. split; [apply Hp | reflexivity].
Defined.

(** C6 (the specification's sentence fails): the position after a seek
    is not always [pos + offset], nor is the value returned always the
    new position.  Seeking descriptor 3, at position 0, by -1 from the
    current position stores 4294967295 and returns -1. *)
Lemma vfs_seek_back_from_zero :
  ~ (forall st fd f n offset st' r,
       vfs_get_file st fd = Some f ->
       node f = Some n ->
       vfs_seek st fd offset SEEK_CUR = Done (st', r) ->
       pos <$> vfs_get_file st' fd = Some (pos f + offset)
       /\ pos <$> vfs_get_file st' fd = Some r).
Proof.
  intros H.
  destruct (H opened 3 (mk_file (Some 12%nat) 0 0 true) 12%nat (-1)
              (upd_file opened 3 (fun r => set_pos r 4294967295)) (-1))
    as [Hpos _]; try (vm_compute; reflexivity).
  vm_compute in Hpos. discriminate Hpos.
Qed.

(** [whence = 7] on descriptor 3: -1 and the same state. *)
Lemma vfs_seek_whence_7 :
  vfs_seek opened 3 5 7 = Done (opened, -1).
Proof. apply vfs_seek_invalid_whence; discriminate. Defined.

(** [vfs_rmdir("/a/b")] and [vfs_unlink("/a/b")] reach the filesystem,
    which logs the call and answers 0; [vfs_mkdir("/a/b")] is rejected. *)
Lemma vfs_rmdir_a_b :
  (exists st', vfs_rmdir booted (Some "/a/b") = Done (st', 0)
               /\ fs_data (env st') = ["rmdir a/b"])
  /\ (exists st', vfs_unlink booted (Some "/a/b") = Done (st', 0)
                  /\ fs_data (env st') = ["unlink a/b"])
  /\ vfs_mkdir booted (Some "/a/b") 493 = Done (booted, -1).
Proof.
  destruct (vfs_rmdir_unlink_skip_depth_check booted (mk_fs "toy" (Some 10%nat)) 10%nat
              (mk_node 2 0 (Some 1%nat)) 1%nat "a" "/b") as (Hr & Hu & Hm);
    try (vm_compute; reflexivity).
  split; [| split].
  - eexists. split; [exact (Hr (toy_log "rmdir " 0) eq_refl) | reflexivity].
  - eexists. split; [exact (Hu (toy_log "unlink " 0) eq_refl) | reflexivity].
  - apply Hm.
Defined.

(** What an allocator that answers a zero-byte request with a pointer
    leads to: on a volume whose superblock has the magic number and
    1024-byte blocks but announces no block, [ext2_mount] returns 0 and
    leaves [num_groups] at 0. *)
Theorem ext2_mount_zero_groups :
  let sb := toy_superblock 0 8192 in
  s_magic sb = 0xEF53
  /\ s_log_block_size sb = 0
  /\ s_blocks_count sb = 0
  /\ s_blocks_per_group sb = 8192
  /\ exists k' f,
       ext2_mount (toy_kenv empty_volume) (Some blank_fs) (Some 1) = Done (k', Some f, 0)
       /\ option_map buf_bytes (superblock f) = Some sb
       /\ block_size f = 1024
       /\ num_groups f = 0
       /\ k_reads k' = [2; 3].
Proof.
  do 4 (split; [reflexivity |]).
  do 2 eexists. split; [vm_compute; reflexivity |]. repeat split.
Qed.


(** C3 (the specification's sentence fails): there is no error kind, [ENOTSUP] or
    another, that [ext2_write_file] stores in [errno] on every call: a
    cleared [errno] is still 0 after the call. *)
Lemma ext2_write_file_keeps_errno :
  ~ (exists ENOTSUP : Z,
       ENOTSUP <> 0
       /\ forall (k : kenv) fs inode offset buf sz,
            k_errno (fst (ext2_write_file k fs inode offset buf sz)) = ENOTSUP
            /\ snd (ext2_write_file k fs inode offset buf sz) = -1).
Proof.
  intros (e & He & H).
  destruct (H (toy_kenv empty_volume) None None 0 0 0) as [Herr _].
  apply He. symmetry. exact Herr.
Qed.

End Runs.

(** * Further properties of [vfs.c] *)

Module VFSMore.

Import VFS VFSProps.

Section Facts.

Context `{BE : Backend} `{HD : VfsHeader}.

Implicit Types (st : kstate) (fd : Z).

(** *** [vfs_alloc_fd] *)

Lemma alloc_scan_skips_used (t : list vfs_file_t) (i n j : nat) :
  alloc_scan t i n = Some j ->
  forall m, (i <= m < j)%nat -> exists f, t !! m = Some f /\ in_use f = true.
Proof.
  revert i. induction n as [| n IH]; intros i; simpl; [discriminate |].
  destruct (t !! i) as [f |] eqn:E; [| discriminate].
  destruct (in_use f) eqn:U.
  - intros H m Hm. destruct (decide (m = i)) as [-> | Hne]; [eauto |].
    apply (IH _ H). lia.
  - intros [= <-] m Hm. lia.
Qed.

Lemma alloc_scan_None (t : list vfs_file_t) (i n : nat) :
  (i + n <= length t)%nat ->
  alloc_scan t i n = None ->
  forall m, (i <= m < i + n)%nat -> exists f, t !! m = Some f /\ in_use f = true.
Proof.
  revert i. induction n as [| n IH]; intros i Hlen; simpl; [intros _ m Hm; lia |].
  destruct (t !! i) as [f |] eqn:E.
  - destruct (in_use f) eqn:U; [| discriminate].
    intros H m Hm. destruct (decide (m = i)) as [-> | Hne]; [eauto |].
    apply (IH (S i)); [lia | exact H | lia].
  - apply lookup_ge_None in E. lia.
Qed.

(** What a successful [vfs_alloc_fd] has done. *)
Lemma vfs_alloc_fd_spec st st' fd :
  vfs_alloc_fd st = (st', fd) ->
  fd <> -1 ->
  3 <= fd < VFS_MAX_OPEN_FILES
  /\ vfs_get_file st fd = None
  /\ (forall fd', 3 <= fd' < fd -> vfs_get_file st fd' <> None)
  /\ vfs_get_file st' fd = Some fresh_row
  /\ (forall j, j <> Z.to_nat fd -> g_file_table st' !! j = g_file_table st !! j)
  /\ g_root_fs st' = g_root_fs st /\ env st' = env st.
Proof.
  intros H Hfd.
  destruct (vfs_alloc_fd_cases st) as [E | (i & f & Hi & Hm & Hf & Hu & E)];
    rewrite H in E; injection E as -> ->; [congruence |].
  clear Hfd. split; [lia |].
  assert (Hget : forall s, g_file_table s = g_file_table st ->
                           vfs_get_file s (Z.of_nat i) = None).
  { intros s Hs. apply vfs_get_file_None. right. right.
    rewrite Hs, Nat2Z.id, list_lookup_fmap, Hf. simpl. rewrite Hu. discriminate. }
  split; [now apply Hget |].
  split.
  { intros fd' Hr Hn. apply vfs_get_file_None in Hn.
    unfold vfs_alloc_fd in H.
    destruct (alloc_scan _ _ _) as [j |] eqn:Sc; [| injection H as _ H; lia].
    injection H as _ H. apply Nat2Z.inj in H. subst j.
    destruct (alloc_scan_skips_used _ _ _ _ Sc (Z.to_nat fd')) as (g & Hg & Hgu); [lia |].
    destruct Hn as [? | [? | Hn]]; try lia.
    apply Hn. rewrite list_lookup_fmap, Hg. simpl. now rewrite Hgu. }
  split.
  { unfold vfs_get_file. simpl.
    destruct (Z.ltb_spec (Z.of_nat i) 0); [lia |].
    destruct (Z.leb_spec VFS_MAX_OPEN_FILES (Z.of_nat i)); [lia |]. simpl.
    rewrite Nat2Z.id, list_lookup_insert_eq; [reflexivity |].
    eapply lookup_lt_Some; eauto. }
  split; [| split; reflexivity].
  intros j Hj. rewrite Nat2Z.id in Hj. simpl.
  now rewrite list_lookup_insert_ne by auto.
Qed.

(** X1: a descriptor handed out by [vfs_alloc_fd] is the smallest free
    one from 3 up: it is at least 3 and inside the table, it was free,
    every row between 3 and it is in use, and the call changes this one
    row only, to an in-use row with a NULL node, position 0 and flags 0. *)
Theorem vfs_alloc_fd_smallest_free st st' fd :
  vfs_alloc_fd st = (st', fd) ->
  fd <> -1 ->
  3 <= fd < VFS_MAX_OPEN_FILES
  /\ vfs_get_file st fd = None
  /\ (forall fd', 3 <= fd' < fd -> vfs_get_file st fd' <> None)
  /\ vfs_get_file st' fd = Some fresh_row
  /\ (forall j, j <> Z.to_nat fd -> g_file_table st' !! j = g_file_table st !! j)
  /\ g_root_fs st' = g_root_fs st /\ env st' = env st.
Proof. exact (vfs_alloc_fd_spec st st' fd). Qed.

(** X2: on a table of [VFS_MAX_OPEN_FILES] rows, [vfs_alloc_fd] fails
    exactly when every descriptor from 3 up is in use, and a failed call
    changes nothing. *)
Theorem vfs_alloc_fd_full st :
  table_full_size st ->
  (snd (vfs_alloc_fd st) = -1
   <-> forall fd, 3 <= fd < VFS_MAX_OPEN_FILES -> vfs_get_file st fd <> None)
  /\ (snd (vfs_alloc_fd st) = -1 -> fst (vfs_alloc_fd st) = st).
Proof.
  intros Hlen. unfold table_full_size in Hlen. pose proof vfs_max_reserved as Hmax.
  split; [split |].
  - intros H fd Hfd Hn. apply vfs_get_file_None in Hn.
    unfold vfs_alloc_fd in H.
    destruct (alloc_scan _ _ _) as [j |] eqn:Sc; [simpl in H; lia |].
    assert (Hfit : (3 + Z.to_nat (VFS_MAX_OPEN_FILES - 3) <= length (g_file_table st))%nat)
      by lia.
    destruct (alloc_scan_None _ _ _ Hfit Sc (Z.to_nat fd)) as (g & Hg & Hgu); [lia |].
    destruct Hn as [? | [? | Hn]]; try lia.
    apply Hn. rewrite list_lookup_fmap, Hg. simpl. now rewrite Hgu.
  - intros H.
    destruct (vfs_alloc_fd_cases st) as [-> | (i & f & Hi & Hm & Hf & Hu & E)];
      [reflexivity |].
    exfalso. apply (H (Z.of_nat i)); [lia |].
    apply vfs_get_file_None. right. right.
    rewrite Nat2Z.id, list_lookup_fmap, Hf. simpl. rewrite Hu. discriminate.
  - intros H.
    destruct (vfs_alloc_fd_cases st) as [-> | (i & f & Hi & Hm & Hf & Hu & E)];
      [reflexivity |].
    rewrite E in H. simpl in H. lia.
Qed.

(** *** Rows and descriptors *)

Lemma vfs_get_file_same_table st st' fd :
  g_file_table st' = g_file_table st -> vfs_get_file st' fd = vfs_get_file st fd.
Proof. intros E. unfold vfs_get_file. now rewrite E. Qed.

Lemma vfs_get_file_other_row st st' fd :
  g_file_table st' !! Z.to_nat fd = g_file_table st !! Z.to_nat fd ->
  vfs_get_file st' fd = vfs_get_file st fd.
Proof. intros E. unfold vfs_get_file. now rewrite E. Qed.

Lemma vfs_free_fd_table st fd :
  0 <= fd < VFS_MAX_OPEN_FILES ->
  g_file_table (vfs_free_fd st fd) = <[Z.to_nat fd := free_row]> (g_file_table st)
  /\ g_root_fs (vfs_free_fd st fd) = g_root_fs st
  /\ env (vfs_free_fd st fd) = env st.
Proof.
  intros Hr. unfold vfs_free_fd.
  destruct (Z.leb_spec 0 fd); [| lia].
  destruct (Z.ltb_spec fd VFS_MAX_OPEN_FILES); [| lia]. simpl. auto.
Qed.

(** *** [vfs_close] *)

(** What [vfs_close] has done when it returns. *)
Lemma vfs_close_spec st fd st' r :
  vfs_close st fd = Done (st', r) ->
  (r = 0 <-> vfs_get_file st fd <> None)
  /\ (r = -1 <-> vfs_get_file st fd = None)
  /\ (r = -1 -> st' = st)
  /\ (r = 0 -> g_file_table st' = <[Z.to_nat fd := free_row]> (g_file_table st)
               /\ g_root_fs st' = g_root_fs st)
  /\ vfs_get_file st' fd = None
  /\ vfs_close st' fd = Done (st', -1).
Proof.
  unfold vfs_close at 1.
  destruct (vfs_get_file st fd) as [file |] eqn:G.
  - pose proof (vfs_get_file_Some _ _ _ G) as (Hr & Hl & Hu).
    set (after_op := match node file with
                     | None => Done st
                     | Some n => _
                     end).
    assert (Hop : forall s, after_op = Done s ->
                            g_file_table s = g_file_table st
                            /\ g_root_fs s = g_root_fs st).
    { unfold after_op. intros s.
      destruct (node file) as [n |]; [| intros [= <-]; auto].
      destruct (nodes (env st) !! n) as [nd |]; [| discriminate].
      destruct (ops nd) as [o |]; [| intros [= <-]; auto].
      destruct (op_close (ops_table o)) as [close |]; intros [= <-]; auto. }
    destruct after_op as [s | |]; simpl; try discriminate.
    destruct (Hop s eq_refl) as [Ht Hg].
    intros [= <- <-].
    destruct (vfs_free_fd_table s fd Hr) as (Ft & Fg & _).
    assert (Hnone : vfs_get_file (vfs_free_fd s fd) fd = None).
    { apply vfs_get_file_None. right. right.
      rewrite Ft, list_lookup_fmap, list_lookup_insert_eq; [discriminate |].
      rewrite Ht. eapply lookup_lt_Some; eauto. }
    split; [split; [discriminate | reflexivity] |].
    split; [split; [discriminate | discriminate] |].
    split; [discriminate |].
    split; [intros _; rewrite Ft, Ht, Fg, Hg; auto |].
    split; [exact Hnone |].
    unfold vfs_close. now rewrite Hnone.
  - intros [= <- <-].
    split; [split; [discriminate | congruence] |].
    split; [split; reflexivity |].
    split; [reflexivity |].
    split; [discriminate |].
    split; [exact G |].
    unfold vfs_close. now rewrite G.
Qed.

(** X3: [vfs_close] returns 0 exactly on a descriptor that is in use and
    -1 otherwise; a failed close changes nothing; a successful one clears
    the row of the descriptor and no other row; afterwards the descriptor
    is not in use, so closing it a second time returns -1. *)
Theorem vfs_close_releases st fd st' r :
  vfs_close st fd = Done (st', r) ->
  (r = 0 <-> vfs_get_file st fd <> None)
  /\ (r = -1 <-> vfs_get_file st fd = None)
  /\ (r = -1 -> st' = st)
  /\ (r = 0 -> g_file_table st' = <[Z.to_nat fd := free_row]> (g_file_table st)
               /\ g_root_fs st' = g_root_fs st)
  /\ vfs_get_file st' fd = None
  /\ vfs_close st' fd = Done (st', -1).
Proof. exact (vfs_close_spec st fd st' r). Qed.

(** *** [vfs_open] *)

(** What the [O_TRUNC] / [O_APPEND] tail does to the row and the node. *)
Lemma open_finish_spec st fd n fl st' r :
  open_finish st fd n fl = Done (st', r) ->
  r = fd
  /\ g_root_fs st' = g_root_fs st
  /\ (forall j, j <> Z.to_nat fd -> g_file_table st' !! j = g_file_table st !! j)
  /\ (forall f, g_file_table st !! Z.to_nat fd = Some f ->
        exists p, g_file_table st' !! Z.to_nat fd = Some (set_pos f p)
                  /\ (flag_set fl O_APPEND = false -> p = pos f)
                  /\ (flag_set fl O_APPEND = true ->
                        exists nd, nodes (env st') !! n = Some nd /\ p = size nd))
  /\ (flag_set fl O_TRUNC = true ->
        exists nd, nodes (env st') !! n = Some nd /\ size nd = 0).
Proof.
  unfold open_finish.
  set (truncated := if flag_set fl O_TRUNC then _ else Done st).
  assert (Ht : forall s, truncated = Done s ->
                 g_file_table s = g_file_table st /\ g_root_fs s = g_root_fs st
                 /\ (flag_set fl O_TRUNC = true ->
                       exists nd, nodes (env s) !! n = Some nd /\ size nd = 0)).
  { unfold truncated. intros s. destruct (flag_set fl O_TRUNC).
    - destruct (nodes (env st) !! n) as [nd |]; [| discriminate].
      intros [= <-]. simpl. do 2 (split; [reflexivity |]).
      intros _. exists (set_size nd 0). rewrite lookup_insert_eq. auto.
    - intros [= <-]. do 2 (split; [reflexivity |]). discriminate. }
  destruct truncated as [s | |]; simpl; try discriminate.
  destruct (Ht s eq_refl) as (Tt & Tg & Tz). clear Ht.
  destruct (flag_set fl O_APPEND) eqn:A.
  - destruct (nodes (env s) !! n) as [nd |] eqn:N; [| discriminate].
    rewrite <- N in Tz.
    intros [= <- <-]. simpl. rewrite Tt.
    split; [reflexivity |]. split; [exact Tg |].
    split; [intros j Hj; now rewrite list_lookup_alter_ne by auto |].
    split; [| exact Tz].
    intros f Hf. exists (size nd). rewrite list_lookup_alter_eq, Hf. simpl.
    split; [reflexivity |]. split; [discriminate |]. intros _. eauto.
  - intros [= <- <-]. rewrite Tt.
    split; [reflexivity |]. split; [exact Tg |].
    split; [reflexivity |]. split; [| exact Tz].
    intros f Hf. exists (pos f). rewrite Hf. destruct f; simpl.
    split; [reflexivity |]. split; [reflexivity | discriminate].
Qed.

Lemma create_missing_returns st p st' ret :
  create_missing st p = Done (st', inl ret) -> ret = -1.
Proof.
  unfold create_missing.
  destruct p as [| c [| c' rest]]; try discriminate.
  destruct (is_slash c); [| discriminate].
  destruct (has_slash _); [now intros [= _ <-] |].
  destruct (g_root_fs st) as [fs |]; [| discriminate].
  destruct (root fs) as [rt |]; [| discriminate].
  destruct (nodes (env st) !! rt) as [rn |]; [| discriminate].
  destruct (ops rn) as [o |]; [| discriminate].
  destruct (op_create (ops_table o)) as [create |]; [| discriminate].
  destruct (create _ _ _ _) as [w r].
  destruct (r =? 0); [| now intros [= _ <-]].
  destruct (vfs_resolve_path _ _) as [[s n] | |]; simpl; discriminate.
Qed.

Lemma create_missing_node st p st' n :
  create_missing st p = Done (st', inr (Some n)) ->
  exists fs r rn o create nm w,
    p = String "/" nm
    /\ has_slash nm = false
    /\ g_root_fs st = Some fs
    /\ root fs = Some r
    /\ nodes (env st) !! r = Some rn
    /\ ops rn = Some o
    /\ op_create (ops_table o) = Some create
    /\ create (env st) r nm 420 = (w, 0)
    /\ vfs_resolve_path (set_env st w) (Some p) = Done (st', Some n).
Proof.
  unfold create_missing.
  destruct p as [| c [| c' rest]]; try discriminate.
  destruct (is_slash c) eqn:Hc; [| discriminate].
  apply Ascii.eqb_eq in Hc. subst c.
  destruct (has_slash (String c' rest)) eqn:Hs; [discriminate |].
  destruct (g_root_fs st) as [fs |]; [| discriminate].
  destruct (root fs) as [rt |] eqn:Hr; [| discriminate].
  destruct (nodes (env st) !! rt) as [rn |] eqn:Hn; [| discriminate].
  destruct (ops rn) as [o |] eqn:Ho; [| discriminate].
  destruct (op_create (ops_table o)) as [create |] eqn:Hcr; [| discriminate].
  destruct (create (env st) rt (String c' rest) 420) as [w ret] eqn:Hcall.
  destruct (Z.eqb_spec ret 0) as [-> | Hret]; [| discriminate].
  destruct (vfs_resolve_path (set_env st w) _) as [[s2 found] | |] eqn:R2; simpl;
    try discriminate.
  intros [= <- <-].
  exists fs, rt, rn, o, create, (String c' rest), w. auto 12.
Qed.

Lemma open_node_success st n fl st' fd :
  open_node st n fl = Done (st', fd) ->
  fd <> -1 ->
  3 <= fd < VFS_MAX_OPEN_FILES
  /\ vfs_get_file st fd = None
  /\ (forall fd', 3 <= fd' < fd -> vfs_get_file st fd' <> None)
  /\ (exists f, vfs_get_file st' fd = Some f
                /\ node f = Some n /\ flags f = fl
                /\ (flag_set fl O_APPEND = false -> pos f = 0)
                /\ (flag_set fl O_APPEND = true ->
                      exists nd, nodes (env st') !! n = Some nd /\ pos f = size nd))
  /\ (flag_set fl O_TRUNC = true ->
        exists nd, nodes (env st') !! n = Some nd /\ size nd = 0)
  /\ (forall j, j <> Z.to_nat fd -> g_file_table st' !! j = g_file_table st !! j)
  /\ g_root_fs st' = g_root_fs st.
Proof.
  unfold open_node.
  destruct (vfs_alloc_fd st) as [st1 fd1] eqn:A.
  destruct (Z.ltb_spec fd1 0) as [Hneg | Hpos].
  { intros [= <- <-] Hfd.
    destruct (vfs_alloc_fd_cases st) as [E | (i & f & _ & _ & _ & _ & E)];
      rewrite A in E; injection E as _ E; [congruence | lia]. }
  assert (Hne : fd1 <> -1) by lia.
  destruct (vfs_alloc_fd_spec st st1 fd1 A Hne)
    as (Hr & Hfree & Hsmall & Hrow & Hothers & Hg & He).
  set (st2 := upd_file st1 fd1 (fun f => mk_file (Some n) fl 0 (in_use f))).
  assert (Hrow2 : g_file_table st2 !! Z.to_nat fd1 = Some (mk_file (Some n) fl 0 true)).
  { apply vfs_get_file_Some in Hrow as (_ & Hl & _).
    unfold st2, upd_file. simpl. now rewrite list_lookup_alter_eq, Hl. }
  assert (Hoth2 : forall j, j <> Z.to_nat fd1 ->
                            g_file_table st2 !! j = g_file_table st !! j).
  { intros j Hj. unfold st2, upd_file. simpl.
    rewrite list_lookup_alter_ne by auto. now apply Hothers. }
  match goal with
  | |- _ -> _ -> ?G =>
      assert (Hfin : forall s, g_file_table s = g_file_table st2 ->
                               g_root_fs s = g_root_fs st ->
                               open_finish s fd1 n fl = Done (st', fd) ->
                               fd <> -1 -> G)
  end.
  { intros s Hs Hsg Ho _.
    apply open_finish_spec in Ho as (-> & Og & Oo & Or & Oz).
    rewrite Hs in Or, Oo.
    destruct (Or _ Hrow2) as (p & Hp & Hp0 & Hp1).
    split; [exact Hr |]. split; [exact Hfree |]. split; [exact Hsmall |].
    split.
    { exists (set_pos (mk_file (Some n) fl 0 true) p).
      split.
      - unfold vfs_get_file.
        destruct (Z.ltb_spec fd1 0); [lia |].
        destruct (Z.leb_spec VFS_MAX_OPEN_FILES fd1); [lia |]. simpl.
        now rewrite Hp.
      - simpl. split; [reflexivity |]. split; [reflexivity |].
        split; [intros Ha; now apply Hp0 | exact Hp1]. }
    split; [exact Oz |].
    split; [intros j Hj; rewrite Oo by auto; now apply Hoth2 | congruence]. }
  assert (Hg2 : g_root_fs st2 = g_root_fs st) by exact Hg.
  destruct (nodes (env st2) !! n) as [nd |]; [| discriminate].
  destruct (ops nd) as [o |]; [| now apply Hfin].
  destruct (op_open (ops_table o)) as [open |]; [| now apply Hfin].
  destruct (open (env st2) n fl) as [w ret].
  destruct (ret =? 0); [now apply Hfin |].
  intros [= _ <-] Hfd. congruence.
Qed.

(** What a successful [vfs_open] has done. *)
Lemma vfs_open_spec st path fl st' fd :
  vfs_open st path fl = Done (st', fd) ->
  fd <> -1 ->
  3 <= fd < VFS_MAX_OPEN_FILES
  /\ vfs_get_file st fd = None
  /\ (forall fd', 3 <= fd' < fd -> vfs_get_file st fd' <> None)
  /\ (exists f n, vfs_get_file st' fd = Some f
                  /\ node f = Some n /\ flags f = fl
                  /\ (flag_set fl O_APPEND = false -> pos f = 0)
                  /\ (flag_set fl O_APPEND = true ->
                        exists nd, nodes (env st') !! n = Some nd /\ pos f = size nd)
                  /\ (flag_set fl O_TRUNC = true ->
                        exists nd, nodes (env st') !! n = Some nd /\ size nd = 0)
                  /\ opened_node st path fl n)
  /\ (forall j, j <> Z.to_nat fd -> g_file_table st' !! j = g_file_table st !! j).
Proof.
  unfold vfs_open. destruct path as [p |]; [| intros [= _ <-]; congruence].
  destruct (vfs_resolve_path st (Some p)) as [[st1 found] | |] eqn:R;
    simpl; try discriminate.
  pose proof (vfs_resolve_path_table _ _ _ _ R) as [Rt _].
  match goal with
  | |- _ -> _ -> ?G =>
      assert (Hnode : forall s n, g_file_table s = g_file_table st ->
                                  opened_node st (Some p) fl n ->
                                  open_node s n fl = Done (st', fd) -> fd <> -1 -> G)
  end.
  { intros s n Hs Htie Ho Hfd.
    destruct (open_node_success s n fl st' fd Ho Hfd)
      as (Hr & Hfree & Hsmall & (f & Hf) & Hz & Hoth & _).
    split; [exact Hr |].
    split; [now rewrite <- (vfs_get_file_same_table st s fd Hs) |].
    split; [intros fd' Hfd'; rewrite <- (vfs_get_file_same_table st s fd' Hs); auto |].
    split; [exists f, n; tauto |].
    intros j Hj. rewrite Hoth by auto. now rewrite Hs. }
  destruct found as [n |]; simpl.
  { apply Hnode; [assumption |]. left. now exists st1. }
  destruct (flag_set fl O_CREAT) eqn:Hcreat; simpl; [| intros [= _ <-]; congruence].
  destruct (create_missing st1 p) as [[st2 r] | |] eqn:Cm; simpl; try discriminate.
  pose proof (create_missing_table _ _ _ _ Cm) as Ct.
  destruct r as [ret | [n |]].
  - apply create_missing_returns in Cm. intros [= _ <-]. congruence.
  - apply Hnode; [congruence |]. right. split; [exact Hcreat |].
    apply create_missing_node in Cm
      as (fs & r & rn & o & create & nm & w & -> & Hs & Hg & Hr & Hn & Ho & Hc & Hw & R2).
    exists st1, fs, r, rn, o, create, nm, w, st2. auto 12.
  - intros [= _ <-]. congruence.
Qed.

(** X4: a successful [vfs_open] returns the smallest free descriptor from
    3 up; its row is then in use with the node the path resolves to (with
    [O_CREAT], when the path resolved to none: the node it resolves to
    after the root's [create] operation returned 0), the flags of the
    call, and position 0, or the node's size with [O_APPEND]; with
    [O_TRUNC] the node's size is 0; no other row of the table changes. *)
Theorem vfs_open_success st path fl st' fd :
  vfs_open st path fl = Done (st', fd) ->
  fd <> -1 ->
  3 <= fd < VFS_MAX_OPEN_FILES
  /\ vfs_get_file st fd = None
  /\ (forall fd', 3 <= fd' < fd -> vfs_get_file st fd' <> None)
  /\ (exists f n, vfs_get_file st' fd = Some f
                  /\ node f = Some n /\ flags f = fl
                  /\ (flag_set fl O_APPEND = false -> pos f = 0)
                  /\ (flag_set fl O_APPEND = true ->
                        exists nd, nodes (env st') !! n = Some nd /\ pos f = size nd)
                  /\ (flag_set fl O_TRUNC = true ->
                        exists nd, nodes (env st') !! n = Some nd /\ size nd = 0)
                  /\ opened_node st path fl n)
  /\ (forall j, j <> Z.to_nat fd -> g_file_table st' !! j = g_file_table st !! j).
Proof. exact (vfs_open_spec st path fl st' fd). Qed.

(** *** Positions *)

(** A state whose table differs from the one of [st] in the position of
    row [fd] at most. *)
Lemma position_frame st st' fd f p :
  vfs_get_file st fd = Some f ->
  g_file_table st' = alter (fun r => set_pos r p) (Z.to_nat fd) (g_file_table st) ->
  (forall fd', fd' <> fd -> vfs_get_file st' fd' = vfs_get_file st fd')
  /\ vfs_get_file st' fd = Some (set_pos f p).
Proof.
  intros Hf Ht. pose proof (vfs_get_file_Some _ _ _ Hf) as (Hr & Hl & Hu).
  split.
  - intros fd' Hne. unfold vfs_get_file. rewrite Ht.
    destruct (Z.ltb_spec fd' 0); [reflexivity |].
    destruct (Z.leb_spec VFS_MAX_OPEN_FILES fd'); [reflexivity |]. simpl.
    rewrite list_lookup_alter_ne by lia. reflexivity.
  - unfold vfs_get_file. rewrite Ht.
    destruct (Z.ltb_spec fd 0); [lia |].
    destruct (Z.leb_spec VFS_MAX_OPEN_FILES fd); [lia |]. simpl.
    rewrite list_lookup_alter_eq, Hl. simpl. now rewrite Hu.
Qed.

Lemma set_pos_same (f : vfs_file_t) : set_pos f (pos f) = f.
Proof. now destruct f. Qed.

Lemma moved_at_most_same st st' fd :
  g_file_table st' = g_file_table st -> g_root_fs st' = g_root_fs st ->
  moved_at_most st st' fd.
Proof.
  intros Ht Hg. split; [exact Hg |].
  split; [intros fd' _; now apply vfs_get_file_same_table |].
  split; [intros H; now rewrite (vfs_get_file_same_table st st' fd Ht) |].
  intros f Hf. exists (pos f).
  now rewrite (vfs_get_file_same_table st st' fd Ht), set_pos_same.
Qed.

Lemma moved_at_most_row st st' fd f p :
  vfs_get_file st fd = Some f ->
  g_file_table st' = alter (fun r => set_pos r p) (Z.to_nat fd) (g_file_table st) ->
  g_root_fs st' = g_root_fs st ->
  moved_at_most st st' fd.
Proof.
  intros Hf Ht Hg. destruct (position_frame st st' fd f p Hf Ht) as [Ho Hr].
  split; [exact Hg |]. split; [exact Ho |].
  split; [congruence |].
  intros f' Hf'. exists p. congruence.
Qed.

(** X5: [vfs_seek], [vfs_read] and [vfs_write] on a descriptor leave
    every other descriptor as it was, position included, also one open on
    the same node; of the descriptor itself only the position can change:
    it stays in use (or unused) with its node and flags; the mounted root
    is unchanged. *)
Theorem vfs_io_moves_own_position_only st fd st' r offset whence buffer sz :
  vfs_seek st fd offset whence = Done (st', r)
  \/ vfs_read st fd buffer sz = Done (st', r)
  \/ vfs_write st fd buffer sz = Done (st', r) ->
  g_root_fs st' = g_root_fs st
  /\ (forall fd', fd' <> fd -> vfs_get_file st' fd' = vfs_get_file st fd')
  /\ (vfs_get_file st fd = None -> vfs_get_file st' fd = None)
  /\ (forall f, vfs_get_file st fd = Some f ->
        exists p, vfs_get_file st' fd = Some (set_pos f p)).
Proof.
  change (vfs_seek st fd offset whence = Done (st', r)
          \/ vfs_read st fd buffer sz = Done (st', r)
          \/ vfs_write st fd buffer sz = Done (st', r) -> moved_at_most st st' fd).
  assert (Hsame : forall s x, Done (s, x) = Done (st', r) ->
                    g_file_table s = g_file_table st -> g_root_fs s = g_root_fs st ->
                    moved_at_most st st' fd).
  { intros s x [= <- _]. apply moved_at_most_same. }
  intros [H | [H | H]].
  - unfold vfs_seek in H.
    destruct (vfs_get_file st fd) as [f |] eqn:G; [| eapply Hsame; eauto].
    destruct (node f) as [n |]; [| eapply Hsame; eauto].
    assert (Hmv : forall p, Done (upd_file st fd (fun f0 => set_pos f0 p), s32 p)
                            = Done (st', r) -> moved_at_most st st' fd).
    { intros p [= <- _]. now apply (moved_at_most_row st _ fd f p). }
    destruct (whence =? SEEK_SET); [now apply Hmv in H |].
    destruct (whence =? SEEK_CUR); [now apply Hmv in H |].
    destruct (whence =? SEEK_END); [| eapply Hsame; eauto].
    destruct (nodes (env st) !! n); [now apply Hmv in H | discriminate].
  - unfold vfs_read in H.
    destruct (vfs_get_file st fd) as [f |] eqn:G; [| eapply Hsame; eauto].
    destruct (node f) as [n |]; [| eapply Hsame; eauto].
    destruct (_ && _); [eapply Hsame; eauto |].
    destruct (nodes (env st) !! n) as [nd |]; [| discriminate].
    destruct (ops nd) as [o |]; [| eapply Hsame; eauto].
    destruct (op_read (ops_table o)) as [read |]; [| eapply Hsame; eauto].
    destruct (read _ _ _ _ _) as [w n0].
    destruct (0 <? n0); [| eapply Hsame; eauto].
    injection H as <- _.
    apply (moved_at_most_row st _ fd f (u32 (pos f + n0))); auto.
    unfold upd_file. simpl.
    pose proof (vfs_get_file_Some _ _ _ G) as (_ & Hl & _).
    apply list_eq. intros j. destruct (decide (j = Z.to_nat fd)) as [-> | Hj].
    + now rewrite !list_lookup_alter_eq, Hl.
    + now rewrite !list_lookup_alter_ne by auto.
  - unfold vfs_write in H.
    destruct (vfs_get_file st fd) as [f |] eqn:G; [| eapply Hsame; eauto].
    destruct (node f) as [n |]; [| eapply Hsame; eauto].
    destruct (_ && _); [eapply Hsame; eauto |].
    destruct (nodes (env st) !! n) as [nd |]; [| discriminate].
    destruct (ops nd) as [o |]; [| eapply Hsame; eauto].
    destruct (op_write (ops_table o)) as [write |]; [| eapply Hsame; eauto].
    destruct (write _ _ _ _ _) as [w n0].
    destruct (0 <? n0); [| eapply Hsame; eauto].
    destruct (nodes w !! n) as [nd' |]; [| discriminate].
    destruct (size nd' <? _); injection H as <- _;
      now apply (moved_at_most_row st _ fd f (u32 (pos f + n0))).
Qed.

(** *** The size of the table *)

Lemma open_finish_length st fd n fl st' r :
  open_finish st fd n fl = Done (st', r) ->
  length (g_file_table st') = length (g_file_table st).
Proof.
  unfold open_finish.
  destruct (flag_set fl O_TRUNC).
  - destruct (nodes (env st) !! n) as [nd |]; simpl; [| discriminate].
    destruct (flag_set fl O_APPEND).
    + rewrite lookup_insert_eq. intros [= <- _]. simpl. now rewrite length_alter.
    + now intros [= <- _].
  - simpl. destruct (flag_set fl O_APPEND).
    + destruct (nodes (env st) !! n); [| discriminate].
      intros [= <- _]. simpl. now rewrite length_alter.
    + now intros [= <- _].
Qed.

Lemma vfs_alloc_fd_length st :
  length (g_file_table (fst (vfs_alloc_fd st))) = length (g_file_table st).
Proof.
  unfold vfs_alloc_fd. destruct (alloc_scan _ _ _); simpl; [| reflexivity].
  apply length_insert.
Qed.

Lemma vfs_free_fd_length st fd :
  length (g_file_table (vfs_free_fd st fd)) = length (g_file_table st).
Proof.
  unfold vfs_free_fd. destruct (_ && _); simpl; [| reflexivity]. apply length_insert.
Qed.

Lemma open_node_length st n fl st' r :
  open_node st n fl = Done (st', r) ->
  length (g_file_table st') = length (g_file_table st).
Proof.
  unfold open_node. pose proof (vfs_alloc_fd_length st) as Ha.
  destruct (vfs_alloc_fd st) as [st1 fd]. simpl in Ha.
  destruct (fd <? 0); [intros [= <- _]; exact Ha |].
  set (st2 := upd_file st1 fd _).
  assert (H2 : length (g_file_table st2) = length (g_file_table st)).
  { unfold st2, upd_file. simpl. now rewrite length_alter. }
  assert (Hfin : forall s, g_file_table s = g_file_table st2 ->
                           open_finish s fd n fl = Done (st', r) ->
                           length (g_file_table st') = length (g_file_table st)).
  { intros s Hs Ho. apply open_finish_length in Ho. congruence. }
  destruct (nodes (env st2) !! n) as [nd |]; [| discriminate].
  destruct (ops nd) as [o |]; [| now apply Hfin].
  destruct (op_open (ops_table o)) as [open |]; [| now apply Hfin].
  destruct (open _ _ _) as [w ret].
  destruct (ret =? 0); [now apply Hfin |].
  intros [= <- _]. now rewrite vfs_free_fd_length.
Qed.

Lemma vfs_open_length st path fl st' r :
  vfs_open st path fl = Done (st', r) ->
  length (g_file_table st') = length (g_file_table st).
Proof.
  unfold vfs_open. destruct path as [p |]; [| now intros [= <- _]].
  destruct (vfs_resolve_path st (Some p)) as [[st1 found] | |] eqn:R;
    simpl; try discriminate.
  apply vfs_resolve_path_table in R as [Rt _].
  destruct found as [n |]; simpl.
  - intros H. apply open_node_length in H. congruence.
  - destruct (flag_set fl O_CREAT); simpl; [| intros [= <- _]; congruence].
    destruct (create_missing st1 p) as [[st2 x] | |] eqn:Cm; simpl; try discriminate.
    apply create_missing_table in Cm.
    destruct x as [ret | [n |]].
    + intros [= <- _]. congruence.
    + intros H. apply open_node_length in H. congruence.
    + intros [= <- _]. congruence.
Qed.

Lemma moved_at_most_length st st' fd r offset whence buffer sz :
  vfs_seek st fd offset whence = Done (st', r)
  \/ vfs_read st fd buffer sz = Done (st', r)
  \/ vfs_write st fd buffer sz = Done (st', r) ->
  length (g_file_table st') = length (g_file_table st).
Proof.
  assert (Hsame : forall s x, Done (s, x) = Done (st', r) ->
                    g_file_table s = g_file_table st ->
                    length (g_file_table st') = length (g_file_table st)).
  { intros s x [= <- _] E. now rewrite E. }
  assert (Hmv : forall s x g, Done (upd_file s fd g, x) = Done (st', r) ->
                  g_file_table s = g_file_table st ->
                  length (g_file_table st') = length (g_file_table st)).
  { intros s x g [= <- _] E. unfold upd_file. simpl. now rewrite length_alter, E. }
  intros [H | [H | H]].
  - unfold vfs_seek in H.
    destruct (vfs_get_file st fd) as [f |]; [| eapply Hsame; eauto].
    destruct (node f) as [n |]; [| eapply Hsame; eauto].
    destruct (whence =? SEEK_SET); [eapply Hmv; eauto |].
    destruct (whence =? SEEK_CUR); [eapply Hmv; eauto |].
    destruct (whence =? SEEK_END); [| eapply Hsame; eauto].
    destruct (nodes (env st) !! n); [eapply Hmv; eauto | discriminate].
  - unfold vfs_read in H.
    destruct (vfs_get_file st fd) as [f |]; [| eapply Hsame; eauto].
    destruct (node f) as [n |]; [| eapply Hsame; eauto].
    destruct (_ && _); [eapply Hsame; eauto |].
    destruct (nodes (env st) !! n) as [nd |]; [| discriminate].
    destruct (ops nd) as [o |]; [| eapply Hsame; eauto].
    destruct (op_read (ops_table o)) as [read |]; [| eapply Hsame; eauto].
    destruct (read _ _ _ _ _) as [w n0].
    destruct (0 <? n0); [eapply Hmv; eauto | eapply Hsame; eauto].
  - unfold vfs_write in H.
    destruct (vfs_get_file st fd) as [f |]; [| eapply Hsame; eauto].
    destruct (node f) as [n |]; [| eapply Hsame; eauto].
    destruct (_ && _); [eapply Hsame; eauto |].
    destruct (nodes (env st) !! n) as [nd |]; [| discriminate].
    destruct (ops nd) as [o |]; [| eapply Hsame; eauto].
    destruct (op_write (ops_table o)) as [write |]; [| eapply Hsame; eauto].
    destruct (write _ _ _ _ _) as [w n0].
    destruct (0 <? n0); [| eapply Hsame; eauto].
    destruct (nodes w !! n) as [nd' |]; [| discriminate].
    destruct (size nd' <? _); injection H as <- _; simpl; now rewrite length_alter.
Qed.

(** *** Opening, closing, transferring *)

(** X7: closing the descriptor a successful [vfs_open] returned gives 0
    and leaves the same descriptors in use as before the open. *)
Theorem vfs_open_then_close st path fl st1 fd st2 r :
  vfs_open st path fl = Done (st1, fd) ->
  fd <> -1 ->
  vfs_close st1 fd = Done (st2, r) ->
  r = 0
  /\ in_use <$> g_file_table st2 = in_use <$> g_file_table st
  /\ (forall fd', vfs_get_file st2 fd' = None <-> vfs_get_file st fd' = None).
Proof.
  intros Ho Hfd Hc.
  pose proof (vfs_open_length _ _ _ _ _ Ho) as Hlen.
  destruct (vfs_open_spec _ _ _ _ _ Ho Hfd)
    as (Hr & Hfree & _ & (f & n & Hf & _) & Hoth).
  destruct (vfs_close_spec _ _ _ _ Hc) as (H0 & _ & _ & Hok & _).
  assert (Er : r = 0) by (apply H0; congruence).
  split; [exact Er |].
  assert (Eu : in_use <$> g_file_table st2 = in_use <$> g_file_table st).
  { destruct (Hok Er) as [-> _].
    apply list_eq. intros j. rewrite !list_lookup_fmap.
    destruct (decide (j = Z.to_nat fd)) as [-> | Hj].
    - apply vfs_get_file_Some in Hf as (_ & Hl & _).
      rewrite list_lookup_insert_eq by (eapply lookup_lt_Some; eauto). simpl.
      apply lookup_lt_Some in Hl. rewrite Hlen in Hl.
      destruct (lookup_lt_is_Some_2 _ _ Hl) as [g Hg]. rewrite Hg. simpl.
      apply vfs_get_file_None in Hfree.
      destruct Hfree as [? | [? | Hn]]; try lia.
      rewrite list_lookup_fmap, Hg in Hn. simpl in Hn.
      destruct (in_use g); [now destruct Hn | reflexivity].
    - rewrite list_lookup_insert_ne by auto. now rewrite Hoth. }
  split; [exact Eu | now apply same_in_use_same_descriptors].
Qed.

(** X8: a transfer moves the position by what the filesystem reports:
    when [vfs_read] or [vfs_write] returns [r > 0], the position of the
    descriptor has advanced by [r] (in the 32-bit field); when it returns
    0 or a negative value, the descriptor is as before.  After a write
    with [r > 0] the size of the node is at least the new position. *)
Theorem vfs_transfer_advances st fd buffer sz st' r :
  (vfs_read st fd buffer sz = Done (st', r) ->
     (r <= 0 -> vfs_get_file st' fd = vfs_get_file st fd)
     /\ (0 < r -> exists f, vfs_get_file st fd = Some f
                            /\ vfs_get_file st' fd = Some (set_pos f (u32 (pos f + r)))))
  /\ (vfs_write st fd buffer sz = Done (st', r) ->
        (r <= 0 -> vfs_get_file st' fd = vfs_get_file st fd)
        /\ (0 < r -> exists f n nd,
              vfs_get_file st fd = Some f /\ node f = Some n
              /\ vfs_get_file st' fd = Some (set_pos f (u32 (pos f + r)))
              /\ nodes (env st') !! n = Some nd
              /\ u32 (pos f + r) <= size nd)).
Proof.
  assert (Hsame : forall s x, Done (s, x) = Done (st', r) ->
                    g_file_table s = g_file_table st -> x <= 0 ->
                    vfs_get_file st' fd = vfs_get_file st fd /\ r <= 0).
  { intros s x [= <- <-] E Hx. split; [now apply vfs_get_file_same_table | exact Hx]. }
  split.
  - intros H. unfold vfs_read in H.
    destruct (vfs_get_file st fd) as [f |] eqn:G;
      [| destruct (Hsame _ _ H eq_refl ltac:(lia)); split; [auto | lia]].
    destruct (node f) as [n |];
      [| destruct (Hsame _ _ H eq_refl ltac:(lia)); split; [congruence | lia]].
    destruct (_ && _);
      [destruct (Hsame _ _ H eq_refl ltac:(lia)); split; [congruence | lia] |].
    destruct (nodes (env st) !! n) as [nd |]; [| discriminate].
    destruct (ops nd) as [o |];
      [| destruct (Hsame _ _ H eq_refl ltac:(lia)); split; [congruence | lia]].
    destruct (op_read (ops_table o)) as [read |];
      [| destruct (Hsame _ _ H eq_refl ltac:(lia)); split; [congruence | lia]].
    destruct (read _ _ _ _ _) as [w n0].
    destruct (Z.ltb_spec 0 n0).
    + injection H as <- <-. split; [lia |]. intros _. exists f. split; [reflexivity |].
      apply (position_frame st). { exact G. }
      unfold upd_file. simpl.
      pose proof (vfs_get_file_Some _ _ _ G) as (_ & Hl & _).
      apply list_eq. intros j. destruct (decide (j = Z.to_nat fd)) as [-> | Hj].
      * now rewrite !list_lookup_alter_eq, Hl.
      * now rewrite !list_lookup_alter_ne by auto.
    + destruct (Hsame _ _ H eq_refl ltac:(lia)); split; [congruence | lia].
  - intros H. unfold vfs_write in H.
    destruct (vfs_get_file st fd) as [f |] eqn:G;
      [| destruct (Hsame _ _ H eq_refl ltac:(lia)); split; [auto | lia]].
    destruct (node f) as [n |] eqn:Nf;
      [| destruct (Hsame _ _ H eq_refl ltac:(lia)); split; [congruence | lia]].
    destruct (_ && _);
      [destruct (Hsame _ _ H eq_refl ltac:(lia)); split; [congruence | lia] |].
    destruct (nodes (env st) !! n) as [nd |]; [| discriminate].
    destruct (ops nd) as [o |];
      [| destruct (Hsame _ _ H eq_refl ltac:(lia)); split; [congruence | lia]].
    destruct (op_write (ops_table o)) as [write |];
      [| destruct (Hsame _ _ H eq_refl ltac:(lia)); split; [congruence | lia]].
    destruct (write _ _ _ _ _) as [w n0].
    destruct (Z.ltb_spec 0 n0);
      [| destruct (Hsame _ _ H eq_refl ltac:(lia)); split; [congruence | lia]].
    destruct (nodes w !! n) as [nd' |] eqn:Nw; [| discriminate].
    destruct (Z.ltb_spec (size nd') (u32 (pos f + n0))); injection H as <- <-;
      (split; [lia |]); intros _.
    + exists f, n, (set_size nd' (u32 (pos f + n0))).
      split; [reflexivity |]. split; [exact Nf |].
      split; [now apply (position_frame st) |].
      simpl. rewrite lookup_insert_eq. split; [reflexivity | simpl; lia].
    + exists f, n, nd'.
      split; [reflexivity |]. split; [exact Nf |].
      split; [now apply (position_frame st) |].
      simpl. split; [exact Nw | lia].
Qed.

(** X9: the access mode stops reads, not writes.  [vfs_read] on a
    descriptor whose flags have [O_WRONLY] without [O_RDWR] returns -1 and
    calls nothing.  [vfs_write] has no such case: [O_RDONLY] is 0, so on
    any descriptor with a node that has a [write] operation, opened
    read-only or not, the operation is called and its result returned. *)
Theorem vfs_access_mode st fd f n nd o buffer sz :
  vfs_get_file st fd = Some f ->
  node f = Some n ->
  nodes (env st) !! n = Some nd ->
  ops nd = Some o ->
  (flag_set (flags f) O_WRONLY = true -> flag_set (flags f) O_RDWR = false ->
     vfs_read st fd buffer sz = Done (st, -1))
  /\ (forall write w r,
        op_write (ops_table o) = Some write ->
        write (env st) n (pos f) buffer sz = (w, r) ->
        (r <= 0 -> vfs_write st fd buffer sz = Done (set_env st w, r))
        /\ (0 < r -> is_Some (nodes w !! n) ->
              exists st', vfs_write st fd buffer sz = Done (st', r)
                          /\ fs_data (env st') = fs_data w)).
Proof.
  intros G Nf Hn Ho. split.
  - intros Hw Hrw. unfold vfs_read. now rewrite G, Nf, Hw, Hrw.
  - intros write w r Hop Hcall. unfold vfs_write. rewrite G, Nf.
    change (flag_set (flags f) O_RDONLY) with (negb (Z.land (flags f) 0 =? 0)).
    rewrite Z.land_0_r. simpl. rewrite Hn, Ho, Hop, Hcall.
    split.
    + intros Hr. destruct (Z.ltb_spec 0 r); [lia | reflexivity].
    + intros Hr [nd' Hnd']. destruct (Z.ltb_spec 0 r); [| lia]. rewrite Hnd'.
      destruct (size nd' <? _); eexists; split; reflexivity.
Qed.

(** *** Mounting and resolving *)

Lemma set_env_same st : set_env st (env st) = st.
Proof. now destruct st. Qed.

Lemma append_cons (x : ascii) (a b : string) :
  String x a +:+ b = String x (a +:+ b).
Proof. reflexivity. Qed.

Lemma append_assoc (a b c : string) : (a +:+ b) +:+ c = a +:+ (b +:+ c).
Proof.
  induction a as [| x a IH]; [reflexivity |].
  now rewrite !append_cons, IH.
Qed.

Lemma append_empty (a : string) : a +:+ EmptyString = a.
Proof.
  induction a as [| x a IH]; [reflexivity |].
  now rewrite append_cons, IH.
Qed.

(** X10: [vfs_mount_root] refuses a NULL filesystem and one without a
    root node, with -1 and no change; otherwise it returns 0, replaces the
    mounted root whatever it was, and leaves the descriptor table alone.
    After it ["/"] resolves to the root node of the filesystem.  Without a
    mounted root, as after [vfs_init], and for a NULL, empty or relative
    path, [vfs_resolve_path] returns NULL and calls no lookup. *)
Theorem vfs_mount_root_and_resolve st :
  vfs_mount_root st None = (st, -1)
  /\ (forall fs, root fs = None -> vfs_mount_root st (Some fs) = (st, -1))
  /\ (forall fs r, root fs = Some r ->
        let st' := fst (vfs_mount_root st (Some fs)) in
        snd (vfs_mount_root st (Some fs)) = 0
        /\ g_root_fs st' = Some fs
        /\ g_file_table st' = g_file_table st
        /\ env st' = env st
        /\ vfs_resolve_path st' (Some "/") = Done (st', Some r))
  /\ (forall path, let st0 := fst (vfs_init st) in
                   vfs_resolve_path st0 path = Done (st0, None))
  /\ vfs_resolve_path st None = Done (st, None)
  /\ vfs_resolve_path st (Some "") = Done (st, None)
  /\ (forall c rest, is_slash c = false ->
        vfs_resolve_path st (Some (String c rest)) = Done (st, None)).
Proof.
  split; [reflexivity |].
  split; [intros fs Hr; unfold vfs_mount_root; now rewrite Hr |].
  split.
  { intros fs r Hr. unfold vfs_mount_root. rewrite Hr. simpl.
    repeat (split; [reflexivity |]).
    unfold vfs_resolve_path. simpl. now rewrite Hr. }
  split; [reflexivity |].
  unfold vfs_resolve_path.
  split; [now destruct (g_root_fs st) |].
  split; [now destruct (g_root_fs st) |].
  intros c rest Hc. destruct (g_root_fs st); [| reflexivity]. now rewrite Hc.
Qed.

(** *** [vfs_stat] and [vfs_exists] *)

(** X11: [vfs_exists] returns 1 when the path resolves to a node and 0
    when it does not; [vfs_stat] returns 0 in the first case, storing the
    size and the type of that node, and -1 in the second, storing
    nothing; so [vfs_stat] succeeds exactly on the paths [vfs_exists]
    reports.  Neither touches the descriptor table. *)
Theorem vfs_stat_agrees_with_exists st path st' r sz ty :
  vfs_stat st path true true = Done (st', r, sz, ty) ->
  g_file_table st' = g_file_table st
  /\ exists e,
       vfs_exists st path = Done (st', e)
       /\ ((r = 0 /\ e = 1) \/ (r = -1 /\ e = 0))
       /\ (r = 0 ->
             exists n nd, vfs_resolve_path st path = Done (st', Some n)
                          /\ nodes (env st') !! n = Some nd
                          /\ sz = Some (size nd) /\ ty = Some (type nd))
       /\ (r = -1 -> vfs_resolve_path st path = Done (st', None)
                     /\ sz = None /\ ty = None).
Proof.
  unfold vfs_stat, vfs_exists.
  destruct (vfs_resolve_path st path) as [[st1 found] | |] eqn:R; simpl;
    try discriminate.
  pose proof (vfs_resolve_path_table _ _ _ _ R) as [Rt _].
  destruct found as [n |].
  - destruct (nodes (env st1) !! n) as [nd |] eqn:N; [| discriminate].
    intros [= <- <- <- <-]. split; [exact Rt |].
    exists 1. split; [reflexivity |]. split; [left; auto |].
    split; [| discriminate]. intros _. exists n, nd. auto.
  - intros [= <- <- <- <-]. split; [exact Rt |].
    exists 0. split; [reflexivity |]. split; [right; auto |].
    split; [discriminate | auto].
Qed.

(** *** More on the spelling of paths *)

Lemma slashes_next (t : nat) (p : string) :
  slashes t +:+ p = EmptyString -> t = O /\ p = EmptyString.
Proof. destruct t; simpl; [auto | discriminate]. Qed.

Lemma after_component k cs t :
  join (slashes (S k)) cs +:+ slashes t = EmptyString
  \/ exists p', join (slashes (S k)) cs +:+ slashes t = String "/" p'.
Proof.
  destruct cs as [| c cs']; simpl; [| right; eauto].
  destruct t; simpl; [left | right]; eauto.
Qed.

(** The loop on a spelled path followed by [t] slashes. *)
Lemma resolve_walk_trailing k cs :
  Forall component cs ->
  forall j t fuel w current,
    (String.length (tail_form j k cs +:+ slashes t) <= fuel)%nat ->
    resolve_walk fuel w current (tail_form j k cs +:+ slashes t)
    = walk_components w current cs.
Proof.
  induction 1 as [| c cs' [Hne Hc] Hcs IH]; intros j t fuel w current Hlen.
  - change (tail_form j k [] +:+ slashes t) with (slashes t) in Hlen |- *.
    rewrite <- (append_empty (slashes t)) in Hlen |- *.
    rewrite resolve_walk_slashes by exact Hlen. now destruct (fuel - t)%nat.
  - unfold tail_form in Hlen |- *. rewrite !append_assoc in *.
    rewrite resolve_walk_slashes by exact Hlen.
    rewrite length_append, slashes_length in Hlen.
    set (rest := join (slashes (S k)) cs' +:+ slashes t) in *.
    destruct c as [| a c]; [congruence |].
    destruct (fuel - j)%nat as [| f] eqn:F; [simpl in Hlen; lia |].
    unfold resolve_walk; fold resolve_walk.
    pose proof (extract_component_stops (String a c) rest 0 Hc
                  (after_component k cs' t)) as E.
    change (String a c +:+ rest) with (String a (c +:+ rest)) in *.
    cbv iota. rewrite E. simpl keep. simpl walk_components.
    destruct current as [cur |]; [| reflexivity].
    destruct (nodes w !! cur) as [nd |]; [| reflexivity].
    destruct (ops nd) as [o |]; [| reflexivity].
    destruct (op_lookup (ops_table o)) as [lookup |]; [| reflexivity].
    destruct (lookup w cur _) as [w' [next |]]; [| reflexivity].
    assert (Hrest : exists j' t', skip_separator rest = tail_form j' k cs' +:+ slashes t'
                                  /\ (String.length (skip_separator rest)
                                      <= String.length rest)%nat).
    { unfold rest. destruct cs' as [| c' cs''].
      - destruct t as [| t]; [exists O, O | exists O, t]; simpl; split; auto; lia.
      - exists k, t. split; [reflexivity |]. simpl. lia. }
    destruct Hrest as (j' & t' & -> & Hl). apply IH.
    simpl in Hlen. rewrite length_append in Hlen. lia.
Qed.

(** X12: slashes at the end of a path change nothing: a spelled path
    followed by any number of slashes resolves as the path itself, with
    the same lookups; and a path made of slashes only resolves to the root
    node of the mounted filesystem. *)
Theorem vfs_resolve_path_trailing_slashes st cs t :
  Forall component cs ->
  cs <> [] ->
  vfs_resolve_path st (Some (join "/" cs +:+ slashes t))
  = vfs_resolve_path st (Some (join "/" cs))
  /\ (forall fs, g_root_fs st = Some fs ->
        vfs_resolve_path st (Some (slashes (S t))) = Done (st, root fs)).
Proof.
  intros Hcs Hne. split.
  - rewrite (vfs_resolve_path_join 0 st cs Hcs : vfs_resolve_path st (Some (join "/" cs)) = _).
    destruct cs as [| c cs']; [congruence |].
    unfold vfs_resolve_path, resolve_components.
    destruct (g_root_fs st) as [fs |]; [| reflexivity].
    change (join "/" (c :: cs') +:+ slashes t)
      with (String "/" (tail_form 0 0 (c :: cs') +:+ slashes t)).
    change (negb (is_slash "/")) with false. cbv iota.
    destruct (tail_form 0 0 (c :: cs') +:+ slashes t) as [| a r] eqn:T.
    + exfalso. inversion Hcs as [| ? ? [Hc _] _]; subst.
      destruct c; [congruence | discriminate].
    + rewrite <- T. rewrite (resolve_walk_trailing 0 _ Hcs 0%nat t) by lia. reflexivity.
  - intros fs Hfs. unfold vfs_resolve_path. rewrite Hfs.
    change (slashes (S t)) with (String "/" (slashes t)).
    change (negb (is_slash "/")) with false. cbv iota.
    destruct (slashes t) as [| a r] eqn:T; [reflexivity |].
    rewrite <- T. rewrite <- (append_empty (slashes t)).
    rewrite resolve_walk_slashes by lia.
    rewrite length_append, slashes_length. simpl.
    replace (t + 0 - t)%nat with O by lia. simpl. now rewrite set_env_same.
Qed.

Lemma keep_twice (n : nat) (s : string) : keep n (keep n s) = keep n s.
Proof.
  revert s. induction n as [| n IH]; intros s; [reflexivity |].
  destruct s as [| c r]; simpl; [reflexivity | now rewrite IH].
Qed.

Lemma keep_component (n : nat) (c : string) :
  component c -> component (keep (S n) c).
Proof.
  intros [Hne Hs]. destruct c as [| a c]; [congruence |].
  split; [discriminate |].
  simpl in *. destruct (is_slash a); [discriminate |].
  clear Hne. revert c Hs. induction n as [| n IH]; intros c Hs; [reflexivity |].
  destruct c as [| b c]; [reflexivity |].
  simpl in *. destruct (is_slash b); [discriminate | now apply IH].
Qed.

Lemma walk_components_first_255 cs cs' :
  Forall2 (fun c c' => keep 255 c = keep 255 c') cs cs' ->
  forall w current, walk_components w current cs = walk_components w current cs'.
Proof.
  induction 1 as [| c c' cs cs' Hk _ IH]; intros w current; [reflexivity |].
  cbn [walk_components]. rewrite Hk.
  destruct current as [cur |]; [| reflexivity].
  destruct (nodes w !! cur) as [nd |]; [| reflexivity].
  destruct (ops nd) as [o |]; [| reflexivity].
  destruct (op_lookup (ops_table o)) as [lookup |]; [| reflexivity].
  destruct (lookup w cur _) as [w' [next |]]; [apply IH | reflexivity].
Qed.

(** X13: only the first 255 characters of a component count: two paths
    whose components agree on their first 255 characters resolve alike,
    and a component resolves as its first 255 characters. *)
Theorem vfs_resolve_path_first_255 st cs cs' :
  Forall component cs ->
  Forall component cs' ->
  Forall2 (fun c c' => keep 255 c = keep 255 c') cs cs' ->
  vfs_resolve_path st (Some (join "/" cs)) = vfs_resolve_path st (Some (join "/" cs'))
  /\ vfs_resolve_path st (Some (join "/" cs))
     = vfs_resolve_path st (Some (join "/" (map (keep 255) cs))).
Proof.
  intros Hcs Hcs' H2.
  assert (Hgen : forall ds ds', Forall component ds -> Forall component ds' ->
                   Forall2 (fun c c' => keep 255 c = keep 255 c') ds ds' ->
                   vfs_resolve_path st (Some (join "/" ds))
                   = vfs_resolve_path st (Some (join "/" ds'))).
  { intros ds ds' Hd Hd' Hk.
    rewrite (vfs_resolve_path_join 0 st ds Hd
             : vfs_resolve_path st (Some (join "/" ds)) = _).
    rewrite (vfs_resolve_path_join 0 st ds' Hd'
             : vfs_resolve_path st (Some (join "/" ds')) = _).
    unfold resolve_components. destruct (g_root_fs st) as [fs |]; [| reflexivity].
    pose proof (walk_components_first_255 _ _ Hk (env st) (root fs)) as Hw.
    destruct Hk; [reflexivity |]. now rewrite Hw. }
  split; [now apply Hgen |].
  apply Hgen; [exact Hcs | |].
  - clear -Hcs. induction Hcs as [| c cs Hc _ IH]; cbn [map]; constructor; auto.
    exact (keep_component 254 c Hc).
  - clear. induction cs as [| c cs IH]; cbn [map]; constructor; auto.
    symmetry. apply keep_twice.
Qed.

(** *** The string helpers *)

Lemma uchar_range (c : ascii) : 0 <= uchar c <= 255.
Proof. unfold uchar. pose proof (nat_ascii_bounded c). lia. Qed.

Lemma uchar_inj (a b : ascii) : uchar a = uchar b -> a = b.
Proof.
  unfold uchar. intros H. apply Nat2Z.inj in H.
  rewrite <- (ascii_nat_embedding a), <- (ascii_nat_embedding b). now rewrite H.
Qed.

Lemma nul_free_cons (c : ascii) (s : string) :
  nul_free (String c s) = true -> uchar c <> 0 /\ nul_free s = true.
Proof.
  simpl. destruct (Z.eqb_spec (uchar c) 0); simpl; [discriminate | auto].
Qed.

Lemma strcmp_nul_free_cons (a b : ascii) (r1 r2 : string) :
  uchar a <> 0 ->
  strcmp (String a r1) (String b r2)
  = if uchar a =? uchar b then strcmp r1 r2 else uchar a - uchar b.
Proof.
  intros Ha. simpl. destruct (Z.eqb_spec (uchar a) 0); [contradiction |]. reflexivity.
Qed.

(** X14: on C strings, [strcmp] returns 0 exactly when the two strings
    are equal; swapping the arguments negates the result; and the result
    is a difference of two bytes, between -255 and 255. *)
Theorem strcmp_compares s1 s2 :
  nul_free s1 = true ->
  nul_free s2 = true ->
  (strcmp s1 s2 = 0 <-> s1 = s2)
  /\ strcmp s2 s1 = - strcmp s1 s2
  /\ -255 <= strcmp s1 s2 <= 255.
Proof.
  revert s2. induction s1 as [| a r1 IH]; intros s2 H1 H2.
  - destruct s2 as [| b r2].
    + simpl. repeat split; lia.
    + apply nul_free_cons in H2 as [Hb _]. pose proof (uchar_range b).
      simpl. destruct (Z.eqb_spec (uchar b) 0); [contradiction |]. simpl.
      split; [split; [lia | discriminate] |]. split; lia.
  - apply nul_free_cons in H1 as [Ha H1]. pose proof (uchar_range a).
    destruct s2 as [| b r2].
    + simpl. destruct (Z.eqb_spec (uchar a) 0); [contradiction |]. simpl.
      destruct (Z.eqb_spec (uchar a) 0); [contradiction |].
      split; [split; [lia | discriminate] |]. split; lia.
    + apply nul_free_cons in H2 as [Hb H2]. pose proof (uchar_range b).
      rewrite !strcmp_nul_free_cons by assumption.
      rewrite (Z.eqb_sym (uchar b)).
      destruct (Z.eqb_spec (uchar a) (uchar b)) as [E | E].
      * apply uchar_inj in E. subst b.
        destruct (IH r2 H1 H2) as (Hz & Hs & Hr).
        split; [| split; assumption].
        rewrite Hz. split; [now intros -> | now intros [= ->]].
      * split; [split; [lia | intros [= -> _]; congruence] |]. split; lia.
Qed.





(** *** Creating and removing entries *)

(** X25: [vfs_open] with [O_CREAT] reads [g_root_fs->root] without
    testing [g_root_fs]: before any filesystem is mounted, opening a
    missing name of the root directory with [O_CREAT] dereferences NULL.
    Without [O_CREAT] the same call returns -1 and changes nothing, as do
    [vfs_mkdir], [vfs_rmdir] and [vfs_unlink], which test [g_root_fs]
    first. *)
Theorem vfs_open_creat_without_root st (nm : string) fl :
  g_root_fs st = None ->
  nm <> EmptyString ->
  has_slash nm = false ->
  (flag_set fl O_CREAT = true -> vfs_open st (Some ("/" +:+ nm)) fl = Fault)
  /\ (flag_set fl O_CREAT = false -> vfs_open st (Some ("/" +:+ nm)) fl = Done (st, -1))
  /\ (forall mode, vfs_mkdir st (Some ("/" +:+ nm)) mode = Done (st, -1))
  /\ vfs_rmdir st (Some ("/" +:+ nm)) = Done (st, -1)
  /\ vfs_unlink st (Some ("/" +:+ nm)) = Done (st, -1).
Proof.
  intros Hroot Hnm Hslash.
  destruct nm as [| c rest]; [contradiction |].
  change ("/" +:+ String c rest) with (String "/" (String c rest)).
  unfold vfs_open, vfs_resolve_path, vfs_mkdir, vfs_rmdir, vfs_unlink.
  rewrite Hroot. cbn [bind].
  split; [| split; [| auto]].
  - intros ->. unfold create_missing.
    change (is_slash "/") with true. cbn iota. rewrite Hslash, Hroot. reflexivity.
  - intros ->. reflexivity.
Qed.

(** X26: [vfs_mkdir], [vfs_rmdir] and [vfs_unlink] never touch the
    descriptor table or the mounted root; and each returns -1 without
    calling the filesystem, the state unchanged, when no root is mounted
    or the path is NULL, is empty, does not start with ['/'], or has
    nothing after its first character. *)
Theorem vfs_directory_calls_frame st path mode st' r :
  vfs_mkdir st path mode = Done (st', r)
  \/ vfs_rmdir st path = Done (st', r)
  \/ vfs_unlink st path = Done (st', r) ->
  g_file_table st' = g_file_table st
  /\ g_root_fs st' = g_root_fs st
  /\ (g_root_fs st = None
      \/ path = None
      \/ path = Some EmptyString
      \/ (exists c rest, path = Some (String c rest)
                         /\ (is_slash c = false \/ rest = EmptyString)) ->
      r = -1 /\ st' = st).
Proof.
  assert (Hcall : forall (call : world fs_data_t * Z) s1 r1,
            (let '(w, ret) := call in Done (set_env st w, ret)) = Done (s1, r1) ->
            g_file_table s1 = g_file_table st /\ g_root_fs s1 = g_root_fs st).
  { intros [w ret] s1 r1 [= <- _]. auto. }
  assert (Hsame : forall s1 r1, @Done (kstate * Z) (st, -1) = Done (s1, r1) ->
            g_file_table s1 = g_file_table st /\ g_root_fs s1 = g_root_fs st
            /\ r1 = -1 /\ s1 = st).
  { intros s1 r1 [= <- <-]. auto. }
  unfold vfs_mkdir, vfs_rmdir, vfs_unlink.
  destruct (g_root_fs st) as [fs |] eqn:Hroot.
  2:{ intros [H | [H | H]]; apply Hsame in H as (? & ? & ? & ?); auto. }
  destruct path as [[| c [| c2 rest]] |].
  1,2,4: intros [H | [H | H]]; apply Hsame in H as (? & ? & ? & ?); auto.
  destruct (is_slash c) eqn:Hc; cbn [negb].
  2:{ intros [H | [H | H]]; apply Hsame in H as (? & ? & ? & ?); auto. }
  assert (Hexcl : g_root_fs st = None \/ Some (String c (String c2 rest)) = None
                  \/ Some (String c (String c2 rest)) = Some EmptyString
                  \/ (exists c0 rest0, Some (String c (String c2 rest)) = Some (String c0 rest0)
                                       /\ (is_slash c0 = false \/ rest0 = EmptyString)) ->
                  False).
  { intros [H | [H | [H | (c0 & rest0 & H & [Hs | He])]]]; congruence. }
  rewrite Hroot in Hexcl.
  intros H.
  assert (Hframe : g_file_table st' = g_file_table st /\ g_root_fs st' = Some fs).
  { destruct H as [H | [H | H]].
    - destruct (has_slash (String c2 rest)); [now apply Hsame in H as (? & ? & _) |].
      destruct (root fs) as [rt |]; [| discriminate].
      destruct (nodes (env st) !! rt) as [rn |]; [| discriminate].
      destruct (ops rn) as [o |]; [| now apply Hsame in H as (? & ? & _)].
      destruct (op_mkdir (ops_table o)) as [f |]; [| now apply Hsame in H as (? & ? & _)].
      now apply Hcall in H.
    - destruct (root fs) as [rt |]; [| discriminate].
      destruct (nodes (env st) !! rt) as [rn |]; [| discriminate].
      destruct (ops rn) as [o |]; [| now apply Hsame in H as (? & ? & _)].
      destruct (op_rmdir (ops_table o)) as [f |]; [| now apply Hsame in H as (? & ? & _)].
      now apply Hcall in H.
    - destruct (root fs) as [rt |]; [| discriminate].
      destruct (nodes (env st) !! rt) as [rn |]; [| discriminate].
      destruct (ops rn) as [o |]; [| now apply Hsame in H as (? & ? & _)].
      destruct (op_unlink (ops_table o)) as [f |]; [| now apply Hsame in H as (? & ? & _)].
      now apply Hcall in H. }
  destruct Hframe as [Ht Hr].
  split; [exact Ht |]. split; [exact Hr |].
  intros Hx. destruct (Hexcl Hx).
Qed.

End Facts.

End VFSMore.

(** * More of [ext2_super.c] *)

Module Ext2More.

Import Ext2 Ext2Props.

Section Facts.

Context `{HD : Ext2Header} `{AL : Allocator}.

Implicit Types (k : kenv) (sb b : list byte).

(** *** [read_block] *)

(** X16: a [read_block] that returns 0 has copied the bytes of the
    device's sectors [sector .. sector + block_size / 512), where [sector]
    is [block_num * block_size / 512] in 32 bits, to the given place of
    the buffer, and has left the rest of the buffer as it was; with a
    block size below 512 it reads nothing and returns 0. *)
Theorem read_block_copies k block_num b off bsize k' b' :
  0 <= off ->
  0 <= bsize < 2 ^ 32 ->
  read_block k block_num b off bsize = Done (k', Some b') ->
  b' = take (Z.to_nat off) b
       ++ device_bytes (k_dev k) (512 * (u32 (block_num * bsize) / 512)) (512 * (bsize / 512))
       ++ drop (Z.to_nat (off + 512 * (bsize / 512))) b
  /\ length b' = length b
  /\ k_reads k' = k_reads k ++ block_sectors block_num bsize
  /\ (bsize < 512 -> k' = k /\ b' = b).
Proof.
  intros Hoff Hbs H.
  pose proof (u32_nonneg (block_num * bsize)) as Hn.
  assert (Hu : u32 (block_num * bsize) < 2 ^ 32) by (unfold u32; apply Z.mod_pos_bound; lia).
  assert (Hq : 0 <= bsize / 512) by (apply Z.div_pos; lia).
  assert (Hs : 0 <= u32 (block_num * bsize) / 512) by (apply Z.div_pos; lia).
  assert (Hq' : bsize / 512 < 2 ^ 23) by (apply Z.div_lt_upper_bound; lia).
  assert (Hs' : u32 (block_num * bsize) / 512 < 2 ^ 23) by (apply Z.div_lt_upper_bound; lia).
  pose proof (read_block_trace _ _ _ _ _ _ _ Hoff H) as (_ & _ & Ht).
  destruct (Ht b' eq_refl) as [Htr Hl].
  split; [| split; [exact Hl | split; [exact Htr |]]].
  - unfold read_block in H. apply read_block_loop_copies in H; try lia.
    rewrite H. rewrite Z2Nat.id by lia.
    repeat (f_equal; try lia).
  - intros Hsmall. unfold read_block in H.
    rewrite (Z.div_small bsize 512) in H by lia. simpl in H. now injection H as <- <-.
Qed.

Lemma read_block_loop_first_failure n :
  forall k sector b off i k' r,
    read_block_loop k sector b off i n = Done (k', r) ->
    let asked := map (fun j => u32 (sector + j)) (count_from i n) in
    match r with
    | Some _ => Forall (fun s => sector_data (k_dev k) s <> None) asked
    | None =>
        exists before s after,
          asked = before ++ s :: after
          /\ Forall (fun s => sector_data (k_dev k) s <> None) before
          /\ sector_data (k_dev k) s = None
          /\ k_reads k' = k_reads k ++ before ++ [s]
    end.
Proof.
  induction n as [| n IH]; intros k sector b off i k' r; simpl.
  - intros [= <- <-]. constructor.
  - unfold virtio_blk_read.
    destruct (sector_data (k_dev k) (u32 (sector + i))) as [d |] eqn:Sd.
    + destruct (store_at b (off + u32 (i * 512)) d) as [b1 | |]; simpl; try discriminate.
      intros H. apply IH in H. simpl in H. destruct r as [b' |].
      * constructor; [congruence | exact H].
      * destruct H as (before & s & after & -> & Hb & Hs & Ht).
        exists (u32 (sector + i) :: before), s, after.
        split; [reflexivity |]. split; [constructor; [congruence | exact Hb] |].
        split; [exact Hs |]. rewrite Ht, <- app_assoc. reflexivity.
    + intros [= <- <-]. exists [], (u32 (sector + i)), (map (fun j => u32 (sector + j)) (count_from (i + 1) n)).
      split; [reflexivity |]. split; [constructor |]. split; [exact Sd | reflexivity].
Qed.

(** X17: [read_block] returns 0 only when the device delivered every
    sector of the block, and -1 when one failed; it then has asked for the
    sectors up to the first failing one and for none after it. *)
Theorem read_block_stops_at_first_failure k block_num b off bsize k' r :
  read_block k block_num b off bsize = Done (k', r) ->
  match r with
  | Some _ =>
      Forall (fun s => sector_data (k_dev k) s <> None) (block_sectors block_num bsize)
  | None =>
      exists before s after,
        block_sectors block_num bsize = before ++ s :: after
        /\ Forall (fun s => sector_data (k_dev k) s <> None) before
        /\ sector_data (k_dev k) s = None
        /\ k_reads k' = k_reads k ++ before ++ [s]
  end.
Proof.
  unfold read_block, block_sectors. intros H.
  apply read_block_loop_first_failure in H. exact H.
Qed.

(** *** [ext2_mount] and [ext2_unmount] *)

Lemma do_kmalloc_heap k n k' p :
  do_kmalloc k n = (k', p) -> kmalloc (k_heap k) n = (k_heap k', p).
Proof.
  unfold do_kmalloc. destruct (kmalloc (k_heap k) n) as [h q]. now intros [= <- <-].
Qed.

(** The four ways out of [ext2_mount] once the superblock is in memory at
    address [a]. *)
Lemma mount_geometry_cases k (fs : ext2_fs_t) a sb k' (fs' : ext2_fs_t) r :
  mount_geometry k fs a sb = Done (k', fs', r) ->
  k_dev k' = k_dev k /\ device fs' = device fs
  /\ ((r = -1 /\ superblock fs' = None /\ group_desc fs' = group_desc fs
       /\ k_heap k' = released (k_heap k) [a])
      \/ exists n h2,
           (kmalloc (k_heap k) n = (h2, None)
            /\ r = -1 /\ superblock fs' = None /\ group_desc fs' = group_desc fs
            /\ k_heap k' = released h2 [a])
           \/ exists g,
                kmalloc (k_heap k) n = (h2, Some g)
                /\ ((r = -1 /\ superblock fs' = None /\ group_desc fs' = None
                     /\ k_heap k' = released h2 [g; a])
                    \/ (r = 0 /\ superblock fs' = superblock fs
                        /\ (exists gd, group_desc fs' = Some (mk_buffer g gd))
                        /\ k_heap k' = h2))).
Proof.
  unfold mount_geometry.
  destruct (shl_int 1024 (s_log_block_size sb)) as [v | |]; simpl; try discriminate.
  destruct ((u32 v <? EXT2_MIN_BLOCK_SIZE) || (EXT2_MAX_BLOCK_SIZE <? u32 v)).
  { intros [= <- <- <-]. simpl. do 2 (split; [reflexivity |]). left. auto. }
  destruct (udiv _ (s_blocks_per_group sb)) as [ng | |]; simpl; try discriminate.
  destruct (udiv (u32 v) _) as [ipb | |]; simpl; try discriminate.
  destruct (udiv _ (u32 v / sizeof_group_desc)) as [gdt_blocks | |]; simpl; try discriminate.
  destruct (do_kmalloc k _) as [k1 p] eqn:Km.
  pose proof (do_kmalloc_frame _ _ _ _ Km) as (_ & Kd & _).
  apply do_kmalloc_heap in Km.
  destruct p as [g |].
  - destruct (read_gdt_loop _ _ _ _ _ _) as [[k2 [gd |]] | |] eqn:Lp; simpl; try discriminate;
      apply read_gdt_loop_trace in Lp as (Ld & Lh & _);
      intros [= <- <- <-]; simpl;
      (split; [congruence |]); (split; [reflexivity |]);
      right; eexists _, _; right; exists g; (split; [exact Km |]).
    + right. rewrite Lh. split; [reflexivity |]. split; [reflexivity |].
      split; [now exists gd | reflexivity].
    + left. rewrite Lh. auto.
  - intros [= <- <- <-]. simpl. do 2 (split; [assumption || reflexivity |]).
    right. eexists _, _. left. split; [exact Km |]. auto.
Qed.

(** X18: [ext2_mount] returns 0 or -1 and leaves the content of the
    device as it is.  With a NULL argument it returns -1 and changes
    nothing.  Otherwise the record holds the device, and its two buffer
    pointers are both non-NULL if the result is 0 and both NULL if it is
    -1: a failed mount leaves no pointer to a buffer it has freed. *)
Theorem ext2_mount_all_or_nothing k (fs : option ext2_fs_t) (dev : option Z) k' fs' r :
  ext2_mount k fs dev = Done (k', fs', r) ->
  (r = 0 \/ r = -1)
  /\ k_dev k' = k_dev k
  /\ (fs = None \/ dev = None -> r = -1 /\ k' = k /\ fs' = fs)
  /\ (forall f0 d, fs = Some f0 -> dev = Some d ->
        exists f, fs' = Some f
                  /\ device f = Some d
                  /\ (r = 0 -> superblock f <> None /\ group_desc f <> None)
                  /\ (r = -1 -> superblock f = None /\ group_desc f = None)).
Proof.
  unfold ext2_mount.
  destruct fs as [f0 |], dev as [d |];
    try (intros [= <- <- <-]; do 2 (split; [auto |]);
         split; [auto | intros ? ? ? ?; discriminate]).
  set (fs1 := mk_ext2_fs (Some d) None None _ _ _ _).
  assert (Hfail : forall k1, k_dev k1 = k_dev k ->
            Done (k1, Some fs1, -1) = Done (k', fs', r) ->
            (r = 0 \/ r = -1) /\ k_dev k' = k_dev k
            /\ (Some f0 = None \/ Some d = None -> r = -1 /\ k' = k /\ fs' = Some f0)
            /\ (forall f1 d1, Some f0 = Some f1 -> Some d = Some d1 ->
                  exists f, fs' = Some f /\ device f = Some d1
                            /\ (r = 0 -> superblock f <> None /\ group_desc f <> None)
                            /\ (r = -1 -> superblock f = None /\ group_desc f = None))).
  { intros k1 Hd [= <- <- <-]. split; [auto |]. split; [assumption |].
    split; [intros [? | ?]; discriminate |].
    intros f1 d1 _ [= <-]. exists fs1. split; [reflexivity |]. split; [reflexivity |].
    split; [discriminate | auto]. }
  destruct (do_kmalloc k EXT2_SUPERBLOCK_SIZE) as [k1 [a |]] eqn:Km;
    apply do_kmalloc_frame in Km as (_ & Kd & _); [| now apply Hfail].
  unfold virtio_blk_read. cbn [k_dev k_heap k_errno k_reads].
  destruct (sector_data (k_dev k1) 2) as [lo |]; [| now apply Hfail].
  cbn [k_dev k_heap k_errno k_reads].
  destruct (sector_data (k_dev k1) 3) as [hi |]; [| now apply Hfail].
  destruct (negb (s_magic (lo ++ hi) =? EXT2_SUPER_MAGIC)); [now apply Hfail |].
  clear Hfail.
  destruct (mount_geometry _ _ a (lo ++ hi)) as [[[k4 fs2] ret] | |] eqn:G;
    simpl; try discriminate.
  intros [= <- <- <-].
  apply mount_geometry_cases in G as (Gd & Gv & Gc). simpl in Gd, Gv.
  assert (Hr : (ret = 0 /\ superblock fs2 <> None /\ group_desc fs2 <> None)
               \/ (ret = -1 /\ superblock fs2 = None /\ group_desc fs2 = None)).
  { destruct Gc as [(-> & Hs & Hg & _) | (n & h2 & [(_ & -> & Hs & Hg & _) | (g & _ & Hc)])].
    - right. auto.
    - right. auto.
    - destruct Hc as [(-> & Hs & Hg & _) | (-> & Hs & (gd & Hg) & _)].
      + right. auto.
      + left. rewrite Hs, Hg. simpl. split; [reflexivity |]. split; discriminate. }
  split; [destruct Hr as [[-> _] | [-> _]]; auto |].
  split; [congruence |].
  split; [intros [? | ?]; discriminate |].
  intros f1 d1 _ [= <-]. exists fs2. split; [reflexivity |]. split; [exact Gv |].
  destruct Hr as [(-> & Hs & Hg) | (-> & Hs & Hg)].
  - split; [auto | discriminate].
  - split; [discriminate | auto].
Qed.

(** X19: what [ext2_mount] allocates and does not hand to its caller, it
    frees before it returns, the descriptor table before the superblock;
    the two buffers of a mount that returned 0 are the record's, and
    [ext2_unmount] frees them in that same order. *)
Theorem ext2_mount_releases_buffers k (f0 : ext2_fs_t) (d : Z) k' fs' r :
  ext2_mount k (Some f0) (Some d) = Done (k', fs', r) ->
  exists h1 p,
    kmalloc (k_heap k) EXT2_SUPERBLOCK_SIZE = (h1, p)
    /\ match p with
       | None => r = -1 /\ k_heap k' = h1
       | Some a =>
           (r = -1 /\ k_heap k' = released h1 [a])
           \/ exists n h2,
                (kmalloc h1 n = (h2, None) /\ r = -1 /\ k_heap k' = released h2 [a])
                \/ exists g,
                     kmalloc h1 n = (h2, Some g)
                     /\ ((r = -1 /\ k_heap k' = released h2 [g; a])
                         \/ (r = 0 /\ k_heap k' = h2
                             /\ (exists f, fs' = Some f
                                   /\ buf_addr <$> superblock f = Some a
                                   /\ buf_addr <$> group_desc f = Some g)
                             /\ k_heap (fst (ext2_unmount k' fs')) = released h2 [g; a]))
       end.
Proof.
  unfold ext2_mount.
  destruct (do_kmalloc k EXT2_SUPERBLOCK_SIZE) as [k1 p] eqn:Km.
  apply do_kmalloc_heap in Km. intros H. exists (k_heap k1), p. split; [exact Km |].
  revert H. destruct p as [a |]; [| intros [= <- _ <-]; auto].
  unfold virtio_blk_read. cbn [k_dev k_heap k_errno k_reads].
  destruct (sector_data (k_dev k1) 2) as [lo |]; cbn [k_dev k_heap k_errno k_reads];
    [| intros [= <- _ <-]; left; auto].
  destruct (sector_data (k_dev k1) 3) as [hi |]; cbn [k_dev k_heap k_errno k_reads];
    [| intros [= <- _ <-]; left; auto].
  destruct (negb (s_magic (lo ++ hi) =? EXT2_SUPER_MAGIC)); [intros [= <- _ <-]; left; auto |].
  destruct (mount_geometry _ _ a (lo ++ hi)) as [[[k4 fs2] ret] | |] eqn:G;
    simpl; try discriminate.
  intros [= <- <- <-].
  apply mount_geometry_cases in G as (_ & _ & Gc). cbn [k_heap superblock] in Gc.
  destruct Gc as [(-> & _ & _ & Hh) | (n & h2 & [(Hk & -> & _ & _ & Hh) | (g & Hk & Hc)])].
  - left. auto.
  - right. exists n, h2. left. auto.
  - right. exists n, h2. right. exists g. split; [exact Hk |].
    destruct Hc as [(-> & _ & _ & Hh) | (-> & Hs & (gd & Hg) & Hh)]; [left; auto |].
    right. split; [reflexivity |]. split; [exact Hh |]. split.
    + exists fs2. rewrite Hs, Hg. auto.
    + unfold ext2_unmount. rewrite Hs, Hg. simpl. now rewrite Hh.
Qed.

(** X20: [ext2_unmount] of NULL does nothing; otherwise it frees the
    descriptor table and the superblock, each only if its pointer is set,
    clears the two pointers, the device, the group count and the block
    size, and keeps the two per-block counts; the device, [errno] and the
    sectors read so far are as before.  Unmounting a second time frees
    nothing and changes nothing. *)
Theorem ext2_unmount_clears_once k (fs : option ext2_fs_t) :
  let '(k1, fs1) := ext2_unmount k fs in
  (fs = None -> k1 = k /\ fs1 = None)
  /\ (forall f, fs = Some f ->
        fs1 = Some (mk_ext2_fs None None None 0 0 (inodes_per_block f) (desc_per_block f))
        /\ k_heap k1 = released (k_heap k)
                         (omap (fmap buf_addr) [group_desc f; superblock f]))
  /\ k_dev k1 = k_dev k /\ k_errno k1 = k_errno k /\ k_reads k1 = k_reads k
  /\ ext2_unmount k1 fs1 = (k1, fs1).
Proof.
  unfold ext2_unmount. destruct fs as [f |].
  - split; [discriminate |]. split.
    + intros f' [= <-]. split; [reflexivity |].
      destruct (group_desc f) as [g |], (superblock f) as [s |]; reflexivity.
    + simpl. destruct (group_desc f) as [g |], (superblock f) as [s |]; simpl; auto.
  - split; [auto |]. split; [discriminate | auto].
Qed.

(** *** When [ext2_mount] returns, and when it returns 0 *)

Lemma byte_at_range b (i : nat) : 0 <= byte_at b i < 256.
Proof.
  unfold byte_at. pose proof (Byte.to_N_bounded (nth i b x00)). lia.
Qed.

Lemma le32_range b (off : nat) : 0 <= le32 b off < 2 ^ 32.
Proof.
  unfold le32.
  pose proof (byte_at_range b off). pose proof (byte_at_range b (off + 1)).
  pose proof (byte_at_range b (off + 2)). pose proof (byte_at_range b (off + 3)). lia.
Qed.

Lemma le16_range b (off : nat) : 0 <= le16 b off < 2 ^ 16.
Proof.
  unfold le16.
  pose proof (byte_at_range b off). pose proof (byte_at_range b (off + 1)). lia.
Qed.

Lemma read_block_loop_Done n :
  forall k sector b off i,
    0 <= off -> 0 <= i ->
    (i + Z.of_nat n) * 512 <= 2 ^ 32 ->
    off + 512 * (i + Z.of_nat n) <= Z.of_nat (length b) ->
    exists k' r,
      read_block_loop k sector b off i n = Done (k', r)
      /\ (Forall (readable (k_dev k)) (map (fun j => u32 (sector + j)) (count_from i n)) ->
          r <> None).
Proof.
  induction n as [| n IH]; intros k sector b off i Hoff Hi Hfit Hlen;
    cbn [read_block_loop count_from map]; unfold virtio_blk_read.
  - eexists _, _. split; [reflexivity | discriminate].
  - destruct (sector_data (k_dev k) (u32 (sector + i))) as [d |] eqn:Sd.
    + pose proof (sector_data_length _ _ _ (u32_nonneg _) Sd) as Ld.
      rewrite (VFSProps.u32_small (i * 512)) by lia.
      destruct (store_at b (off + i * 512) d) as [b1 | |] eqn:St.
      * apply store_at_length in St; [| lia]. cbn [bind].
        destruct (IH (mk_kenv (k_errno k) (k_heap k) (k_dev k) (k_reads k ++ [u32 (sector + i)]))
                     sector b1 off (i + 1)) as (k' & r & E & Hr); try lia.
        exists k', r. split; [exact E |].
        intros Hall. apply Forall_cons in Hall as [_ Hall]. now apply Hr.
      * exfalso. unfold store_at in St.
        destruct (Z.leb_spec (off + i * 512 + Z.of_nat (length d)) (Z.of_nat (length b)));
          [discriminate | lia].
      * exfalso. unfold store_at in St.
        destruct (Z.leb_spec (off + i * 512 + Z.of_nat (length d)) (Z.of_nat (length b)));
          discriminate.
    + eexists _, _. split; [reflexivity |].
      intros Hall. apply Forall_cons in Hall as [Hx _]. contradiction.
Qed.

Lemma read_block_Done k block_num b off bsize :
  0 <= off -> 0 <= bsize < 2 ^ 32 ->
  off + bsize <= Z.of_nat (length b) ->
  exists k' r,
    read_block k block_num b off bsize = Done (k', r)
    /\ (Forall (readable (k_dev k)) (block_sectors block_num bsize) -> r <> None).
Proof.
  intros Hoff Hbs Hlen. unfold read_block, block_sectors.
  assert (Hq : 0 <= bsize / 512) by (apply Z.div_pos; lia).
  pose proof (Z.mul_div_le bsize 512 ltac:(lia)) as Hm.
  apply read_block_loop_Done; rewrite ?Z2Nat.id by lia; lia.
Qed.

Lemma read_gdt_loop_Done n :
  forall k gdt_block bsize gd i,
    0 <= bsize < 2 ^ 32 -> 0 <= i ->
    (i + Z.of_nat n) * bsize < 2 ^ 32 ->
    (i + Z.of_nat n) * bsize <= Z.of_nat (length gd) ->
    exists k' r,
      read_gdt_loop k gdt_block bsize gd i n = Done (k', r)
      /\ (Forall (readable (k_dev k))
                 (flat_map (fun j => block_sectors (u32 (gdt_block + j)) bsize)
                           (count_from i n)) ->
          r <> None).
Proof.
  induction n as [| n IH]; intros k gdt_block bsize gd i Hbs Hi Hfit Hlen;
    cbn [read_gdt_loop count_from flat_map].
  - eexists _, _. split; [reflexivity | discriminate].
  - assert (Hib : 0 <= i * bsize) by nia.
    assert (Hstep : i * bsize + bsize <= (i + Z.of_nat (S n)) * bsize) by nia.
    rewrite (VFSProps.u32_small (i * bsize)) by lia.
    destruct (read_block_Done k (u32 (gdt_block + i)) gd (i * bsize) bsize)
      as (k1 & r1 & E1 & H1); try lia.
    rewrite E1. cbn [bind].
    pose proof (read_block_trace _ _ _ _ _ _ _ Hib E1) as (Hd & _ & Hl).
    destruct r1 as [gd1 |].
    + destruct (Hl gd1 eq_refl) as [_ Lg].
      assert (F1 : (i + 1 + Z.of_nat n) * bsize < 2 ^ 32) by nia.
      assert (F2 : (i + 1 + Z.of_nat n) * bsize <= Z.of_nat (length gd1)) by (rewrite Lg; nia).
      destruct (IH k1 gdt_block bsize gd1 (i + 1) Hbs ltac:(lia) F1 F2) as (k' & r & E & Hr).
      exists k', r. split; [exact E |].
      intros Hall. apply Forall_app in Hall as [_ Hall]. apply Hr. now rewrite Hd.
    + eexists _, _. split; [reflexivity |].
      intros Hall. apply Forall_app in Hall as [Hall _]. now apply H1.
Qed.

Lemma sb_block_size_range sb :
  s_log_block_size sb <= 20 -> 1024 <= sb_block_size sb < 2 ^ 31.
Proof.
  intros H. unfold sb_block_size.
  pose proof (le32_range sb 24) as Hl. fold (s_log_block_size sb) in Hl.
  assert (1 <= 2 ^ s_log_block_size sb) by (apply Z.pow_le_mono_r with (b := 0); lia).
  assert (2 ^ s_log_block_size sb <= 2 ^ 20) by (apply Z.pow_le_mono_r; lia).
  lia.
Qed.

Lemma shl_int_block_size sb :
  s_log_block_size sb <= 20 ->
  shl_int 1024 (s_log_block_size sb) = Done (sb_block_size sb).
Proof.
  intros H. pose proof (sb_block_size_range sb H) as Hr.
  pose proof (le32_range sb 24) as Hl. fold (s_log_block_size sb) in Hl.
  unfold shl_int.
  destruct (Z.ltb_spec (s_log_block_size sb) 0); [lia |].
  destruct (Z.leb_spec 32 (s_log_block_size sb)); [lia |]. simpl.
  fold (sb_block_size sb).
  destruct (Z.ltb_spec (sb_block_size sb) (2 ^ 31)); [reflexivity | lia].
Qed.

Lemma inode_size_not_zero sb :
  (if 0 <? s_inode_size sb then s_inode_size sb else EXT2_INODE_SIZE) <> 0.
Proof.
  destruct (Z.ltb_spec 0 (s_inode_size sb)); [lia | discriminate].
Qed.

Lemma mount_geometry_Done k (fs : ext2_fs_t) a sb :
  geometry_defined sb ->
  exists k' fs' r,
    mount_geometry k fs a sb = Done (k', fs', r)
    /\ (EXT2_MIN_BLOCK_SIZE <= sb_block_size sb <= EXT2_MAX_BLOCK_SIZE ->
        (exists h2 g, kmalloc (k_heap k) (sb_gdt_blocks sb * sb_block_size sb) = (h2, Some g)) ->
        Forall (readable (k_dev k)) (sb_gdt_sectors sb) ->
        r = 0
        /\ block_size fs' = sb_block_size sb
        /\ num_groups fs' = sb_num_groups sb
        /\ desc_per_block fs' = sb_desc_per_block sb).
Proof.
  intros (Hlog & Hbpg & Hfit). unfold mount_geometry.
  pose proof (sb_block_size_range sb Hlog) as Hr.
  rewrite (shl_int_block_size sb Hlog). cbn [bind].
  rewrite (VFSProps.u32_small (sb_block_size sb)) by lia.
  destruct (Z.ltb_spec (sb_block_size sb) EXT2_MIN_BLOCK_SIZE) as [Hmin | Hmin];
    [eexists _, _, _; split; [reflexivity | lia] |].
  destruct (Z.ltb_spec EXT2_MAX_BLOCK_SIZE (sb_block_size sb)) as [Hmax | Hmax];
    [eexists _, _, _; split; [reflexivity | lia] |].
  cbn [orb].
  unfold udiv at 1. destruct (Z.eqb_spec (s_blocks_per_group sb) 0); [contradiction |].
  cbn [bind]. fold (sb_num_groups sb).
  unfold udiv at 1.
  destruct (Z.eqb_spec (if 0 <? s_inode_size sb then s_inode_size sb else EXT2_INODE_SIZE) 0)
    as [E | _]; [now apply inode_size_not_zero in E |].
  cbn [bind]. fold (sb_desc_per_block sb).
  assert (Hdpb : 32 <= sb_desc_per_block sb).
  { unfold sb_desc_per_block, sizeof_group_desc. apply Z.div_le_lower_bound; lia. }
  unfold udiv. destruct (Z.eqb_spec (sb_desc_per_block sb) 0); [lia |].
  cbn [bind]. fold (sb_gdt_blocks sb).
  assert (Hgb : 0 <= sb_gdt_blocks sb).
  { unfold sb_gdt_blocks. apply Z.div_pos; [apply u32_nonneg | lia]. }
  rewrite (VFSProps.u32_small (sb_gdt_blocks sb * sb_block_size sb)) by nia.
  destruct (do_kmalloc k _) as [k1 p] eqn:Km.
  pose proof (do_kmalloc_frame _ _ _ _ Km) as (_ & Kd & _).
  apply do_kmalloc_heap in Km.
  destruct p as [g |].
  - destruct (read_gdt_loop_Done (Z.to_nat (sb_gdt_blocks sb)) k1
                (u32 (s_first_data_block sb + 1)) (sb_block_size sb)
                (replicate (Z.to_nat (sb_gdt_blocks sb * sb_block_size sb)) x00) 0)
      as (k2 & r & E & Hall); rewrite ?length_replicate, ?Z2Nat.id; try nia.
    rewrite E. cbn [bind]. destruct r as [gd |].
    + eexists _, _, _. split; [reflexivity |]. intros _ _ _. cbn. auto.
    + eexists _, _, _. split; [reflexivity |]. intros _ _ Hrd. exfalso.
      apply Hall; [| reflexivity]. rewrite Kd. exact Hrd.
  - eexists _, _, _. split; [reflexivity |].
    intros _ (h2 & g & Hk) _. rewrite Hk in Km. discriminate.
Qed.

(** X21: [ext2_mount] returns, without undefined behaviour, on every
    device whose superblock, if it can be read and carries the magic
    number, announces a block-size shift of at most 20, a group size other
    than zero and a descriptor table below 4 GiB. *)
Theorem ext2_mount_returns k (fs : option ext2_fs_t) (dev : option Z) :
  (forall lo hi,
     sector_data (k_dev k) 2 = Some lo ->
     sector_data (k_dev k) 3 = Some hi ->
     s_magic (lo ++ hi) = EXT2_SUPER_MAGIC ->
     geometry_defined (lo ++ hi)) ->
  exists k' fs' r, ext2_mount k fs dev = Done (k', fs', r).
Proof.
  intros Hwf. unfold ext2_mount.
  destruct fs as [f0 |], dev as [d |]; try (eexists _, _, _; reflexivity).
  destruct (do_kmalloc k EXT2_SUPERBLOCK_SIZE) as [k1 [a |]] eqn:Km;
    [| eexists _, _, _; reflexivity].
  apply do_kmalloc_frame in Km as (_ & Kd & _).
  unfold virtio_blk_read. cbn [k_dev k_heap k_errno k_reads]. rewrite Kd.
  destruct (sector_data (k_dev k) 2) as [lo |] eqn:S2; cbn [k_dev k_heap k_errno k_reads];
    [| eexists _, _, _; reflexivity].
  destruct (sector_data (k_dev k) 3) as [hi |] eqn:S3; cbn [k_dev k_heap k_errno k_reads];
    [| eexists _, _, _; reflexivity].
  destruct (Z.eqb_spec (s_magic (lo ++ hi)) EXT2_SUPER_MAGIC) as [Mg | Mg]; cbn [negb];
    [| eexists _, _, _; reflexivity].
  match goal with
  | |- context [mount_geometry ?k0 ?f ?a0 ?s] =>
      destruct (mount_geometry_Done k0 f a0 s (Hwf lo hi eq_refl eq_refl Mg))
        as (k4 & fs2 & ret & E & _)
  end.
  rewrite E. eexists _, _, _. reflexivity.
Qed.

(** X22: [ext2_mount] returns 0 when its two arguments are not NULL, the
    allocator delivers both buffers, sectors 2 and 3 and every sector of
    the descriptor table can be read, the superblock carries the magic
    number, its geometry is defined (a block-size shift of at most 20, a
    group size other than zero, a descriptor table below 4 GiB) and its
    block size is within the two bounds; the record then holds the block
    size, the group count and the descriptors per block computed from the
    superblock. *)
Theorem ext2_mount_succeeds k (f0 : ext2_fs_t) (d : Z) h1 a h2 g lo hi :
  kmalloc (k_heap k) EXT2_SUPERBLOCK_SIZE = (h1, Some a) ->
  sector_data (k_dev k) 2 = Some lo ->
  sector_data (k_dev k) 3 = Some hi ->
  s_magic (lo ++ hi) = EXT2_SUPER_MAGIC ->
  geometry_defined (lo ++ hi) ->
  EXT2_MIN_BLOCK_SIZE <= sb_block_size (lo ++ hi) <= EXT2_MAX_BLOCK_SIZE ->
  kmalloc h1 (sb_gdt_blocks (lo ++ hi) * sb_block_size (lo ++ hi)) = (h2, Some g) ->
  Forall (readable (k_dev k)) (sb_gdt_sectors (lo ++ hi)) ->
  exists k' f,
    ext2_mount k (Some f0) (Some d) = Done (k', Some f, 0)
    /\ block_size f = sb_block_size (lo ++ hi)
    /\ num_groups f = sb_num_groups (lo ++ hi)
    /\ desc_per_block f = sb_desc_per_block (lo ++ hi).
Proof.
  intros Hk1 S2 S3 Mg Hwf Hbs Hk2 Hrd. unfold ext2_mount.
  destruct (do_kmalloc k EXT2_SUPERBLOCK_SIZE) as [k1 p] eqn:Km.
  pose proof (do_kmalloc_frame _ _ _ _ Km) as (_ & Kd & _).
  apply do_kmalloc_heap in Km. rewrite Hk1 in Km. injection Km as Hh <-.
  unfold virtio_blk_read. cbn [k_dev k_heap k_errno k_reads]. rewrite Kd, S2.
  cbn [k_dev k_heap k_errno k_reads]. rewrite S3. cbn [k_dev k_heap k_errno k_reads].
  destruct (Z.eqb_spec (s_magic (lo ++ hi)) EXT2_SUPER_MAGIC) as [_ | Mg']; [| contradiction].
  cbn [negb].
  match goal with
  | |- context [mount_geometry ?k0 ?f ?a0 ?s] =>
      destruct (mount_geometry_Done k0 f a0 s Hwf) as (k4 & fs2 & ret & E & Hok)
  end.
  rewrite E. cbn [bind]. cbn [k_heap k_dev] in Hok.
  destruct Hok as (-> & Hb & Hn & Hd); [exact Hbs | | exact Hrd |].
  { exists h2, g. rewrite <- Hh. exact Hk2. }
  exists k4, fs2. auto.
Qed.

(** X23: a superblock with the magic number and a block size within the
    bounds whose group size [s_blocks_per_group] is zero makes
    [ext2_mount] divide by zero, which C leaves undefined: the code does
    not check the field before it computes the number of groups. *)
Theorem ext2_mount_zero_blocks_per_group k (f0 : ext2_fs_t) (d : Z) h1 a lo hi :
  kmalloc (k_heap k) EXT2_SUPERBLOCK_SIZE = (h1, Some a) ->
  sector_data (k_dev k) 2 = Some lo ->
  sector_data (k_dev k) 3 = Some hi ->
  s_magic (lo ++ hi) = EXT2_SUPER_MAGIC ->
  s_log_block_size (lo ++ hi) <= 20 ->
  EXT2_MIN_BLOCK_SIZE <= sb_block_size (lo ++ hi) <= EXT2_MAX_BLOCK_SIZE ->
  s_blocks_per_group (lo ++ hi) = 0 ->
  ext2_mount k (Some f0) (Some d) = Fault.
Proof.
  intros Hk1 S2 S3 Mg Hlog Hbs Hz. unfold ext2_mount.
  destruct (do_kmalloc k EXT2_SUPERBLOCK_SIZE) as [k1 p] eqn:Km.
  pose proof (do_kmalloc_frame _ _ _ _ Km) as (_ & Kd & _).
  apply do_kmalloc_heap in Km. rewrite Hk1 in Km. injection Km as Hh <-.
  unfold virtio_blk_read. cbn [k_dev k_heap k_errno k_reads]. rewrite Kd, S2.
  cbn [k_dev k_heap k_errno k_reads]. rewrite S3. cbn [k_dev k_heap k_errno k_reads].
  destruct (Z.eqb_spec (s_magic (lo ++ hi)) EXT2_SUPER_MAGIC) as [_ | Mg']; [| contradiction].
  cbn [negb]. unfold mount_geometry.
  pose proof (sb_block_size_range _ Hlog) as Hr.
  rewrite (shl_int_block_size _ Hlog). cbn [bind].
  rewrite (VFSProps.u32_small (sb_block_size (lo ++ hi))) by lia.
  destruct (Z.ltb_spec (sb_block_size (lo ++ hi)) EXT2_MIN_BLOCK_SIZE); [lia |].
  destruct (Z.ltb_spec EXT2_MAX_BLOCK_SIZE (sb_block_size (lo ++ hi))); [lia |].
  cbn [orb]. rewrite Hz. reflexivity.
Qed.

(** *** The group count *)

Lemma mount_geometry_fields k (fs : ext2_fs_t) a sb k' (fs' : ext2_fs_t) :
  mount_geometry k fs a sb = Done (k', fs', 0) ->
  s_blocks_per_group sb <> 0
  /\ block_size fs' = sb_block_size sb
  /\ num_groups fs' = sb_num_groups sb
  /\ desc_per_block fs' = sb_desc_per_block sb
  /\ inodes_per_block fs'
     = sb_block_size sb
       / (if 0 <? s_inode_size sb then s_inode_size sb else EXT2_INODE_SIZE)
  /\ 1024 <= sb_block_size sb < 2 ^ 31.
Proof.
  unfold mount_geometry.
  destruct (shl_int 1024 (s_log_block_size sb)) as [v | |] eqn:Sh; simpl; try discriminate.
  apply shl_int_Done in Sh as (Hn & -> & Hv). fold (sb_block_size sb) in Hv |- *.
  assert (Hr : 1024 <= sb_block_size sb < 2 ^ 31).
  { split; [| exact Hv]. unfold sb_block_size.
    assert (1 <= 2 ^ s_log_block_size sb) by (apply Z.pow_le_mono_r with (b := 0); lia).
    lia. }
  rewrite (VFSProps.u32_small (sb_block_size sb)) by lia.
  destruct ((sb_block_size sb <? EXT2_MIN_BLOCK_SIZE)
            || (EXT2_MAX_BLOCK_SIZE <? sb_block_size sb)); [discriminate |].
  destruct (udiv _ (s_blocks_per_group sb)) as [ng | |] eqn:Ng; simpl; try discriminate.
  apply udiv_Done in Ng as [Hbpg ->].
  destruct (udiv (sb_block_size sb) _) as [ipb | |] eqn:Ipb; simpl; try discriminate.
  apply udiv_Done in Ipb as [_ ->].
  destruct (udiv _ (sb_block_size sb / sizeof_group_desc)) as [gdt_blocks | |]; simpl;
    try discriminate.
  destruct (do_kmalloc k _) as [k1 [g |]]; [| discriminate].
  destruct (read_gdt_loop _ _ _ _ _ _) as [[k2 [gd |]] | |]; simpl; try discriminate.
  intros [= <- <-]. simpl. repeat (split; [first [assumption | reflexivity] |]). exact Hr.
Qed.

(** X24: after a mount that returned 0, the group size in the superblock
    is not zero and, when the rounding sum [s_blocks_count +
    s_blocks_per_group - 1] fits 32 bits, [num_groups] is the number of
    groups that cover the blocks: the least [n] with [n *
    s_blocks_per_group >= s_blocks_count].  So [num_groups] is positive
    exactly when the superblock announces at least one block.  When the
    two sizes of the descriptor table do not wrap either, the table's
    buffer has room for [num_groups] descriptors. *)
Theorem ext2_mount_group_count k (fs : option ext2_fs_t) (dev : option Z) k' f :
  ext2_mount k fs dev = Done (k', Some f, 0) ->
  exists sbuf gbuf,
    superblock f = Some sbuf
    /\ group_desc f = Some gbuf
    /\ s_blocks_per_group (buf_bytes sbuf) <> 0
    /\ desc_per_block f = block_size f / sizeof_group_desc
    /\ (s_blocks_count (buf_bytes sbuf) + s_blocks_per_group (buf_bytes sbuf) - 1 < 2 ^ 32 ->
        (num_groups f - 1) * s_blocks_per_group (buf_bytes sbuf)
          < s_blocks_count (buf_bytes sbuf)
          <= num_groups f * s_blocks_per_group (buf_bytes sbuf)
        /\ (0 < num_groups f <-> 0 < s_blocks_count (buf_bytes sbuf))
        /\ (num_groups f + desc_per_block f - 1 < 2 ^ 32 ->
            gdt_blocks_of f * block_size f < 2 ^ 32 ->
            sizeof_group_desc * num_groups f <= Z.of_nat (length (buf_bytes gbuf)))).
Proof.
  unfold ext2_mount.
  destruct fs as [fs0 |], dev as [d |]; try discriminate.
  destruct (do_kmalloc k EXT2_SUPERBLOCK_SIZE) as [k1 [a |]]; [| discriminate].
  unfold virtio_blk_read. cbn [k_dev k_heap k_errno k_reads].
  destruct (sector_data (k_dev k1) 2) as [lo |]; [| discriminate].
  cbn [k_dev k_heap k_errno k_reads].
  destruct (sector_data (k_dev k1) 3) as [hi |]; [| discriminate].
  destruct (negb (s_magic (lo ++ hi) =? EXT2_SUPER_MAGIC)); [discriminate |].
  destruct (mount_geometry _ _ a (lo ++ hi)) as [[[k4 fs2] ret] | |] eqn:G;
    simpl; try discriminate.
  intros [= <- <- ->]. rename fs2 into f. set (sb := lo ++ hi) in *.
  pose proof (mount_geometry_fields _ _ _ _ _ _ G) as (Hbpg & Hbs & Hng & Hdpb & _ & Hr).
  apply mount_geometry_success in G as (Hsb & _ & _ & _ & (g & gd & Hg & Hl) & _).
  exists (mk_buffer a sb), (mk_buffer g gd). cbn [buf_bytes].
  split; [exact Hsb |]. split; [exact Hg |]. split; [exact Hbpg |].
  split; [rewrite Hdpb, Hbs; reflexivity |].
  intros Hfit.
  pose proof (le32_range sb 4) as Hbc. fold (s_blocks_count sb) in Hbc.
  pose proof (le32_range sb 32) as Hb. fold (s_blocks_per_group sb) in Hb.
  assert (Hpos : 0 < s_blocks_per_group sb) by lia.
  assert (Hn : num_groups f = (s_blocks_count sb + s_blocks_per_group sb - 1)
                              / s_blocks_per_group sb).
  { rewrite Hng. unfold sb_num_groups. rewrite VFSProps.u32_small by lia. reflexivity. }
  pose proof (Z.div_mod (s_blocks_count sb + s_blocks_per_group sb - 1)
                        (s_blocks_per_group sb) Hbpg) as Hdm.
  pose proof (Z.mod_pos_bound (s_blocks_count sb + s_blocks_per_group sb - 1)
                              (s_blocks_per_group sb) Hpos) as Hm.
  rewrite <- Hn in Hdm.
  assert (Hcover : (num_groups f - 1) * s_blocks_per_group sb < s_blocks_count sb
                   <= num_groups f * s_blocks_per_group sb) by nia.
  split; [exact Hcover |]. split; [split; intros; nia |].
  intros Hfit1 Hfit2.
  rewrite Hl, (VFSProps.u32_small (gdt_blocks_of f * block_size f)).
  2:{ split; [| exact Hfit2]. unfold gdt_blocks_of.
      assert (0 <= u32 (num_groups f + desc_per_block f - 1) / desc_per_block f).
      { apply Z.div_pos; [apply u32_nonneg |]. rewrite Hdpb. unfold sb_desc_per_block.
        apply Z.div_str_pos. unfold sizeof_group_desc. lia. }
      rewrite Hbs. nia. }
  assert (Hd32 : 32 <= desc_per_block f).
  { rewrite Hdpb. unfold sb_desc_per_block, sizeof_group_desc.
    apply Z.div_le_lower_bound; lia. }
  assert (Hng0 : 0 <= num_groups f) by nia.
  unfold gdt_blocks_of in *.
  rewrite (VFSProps.u32_small (num_groups f + desc_per_block f - 1)) in * by lia.
  pose proof (Z.div_mod (num_groups f + desc_per_block f - 1) (desc_per_block f)
                        ltac:(lia)) as Hdm2.
  pose proof (Z.mod_pos_bound (num_groups f + desc_per_block f - 1) (desc_per_block f)
                              ltac:(lia)) as Hm2.
  assert (Hbd : sizeof_group_desc * desc_per_block f <= block_size f).
  { rewrite Hdpb, Hbs. unfold sb_desc_per_block. apply Z.mul_div_le.
    unfold sizeof_group_desc. lia. }
  set (q := (num_groups f + desc_per_block f - 1) / desc_per_block f) in *.
  assert (0 <= q) by (apply Z.div_pos; lia).
  rewrite Z2Nat.id by nia.
  unfold sizeof_group_desc in *. nia.
Qed.

(** *** The group count and the zero-byte table *)

Lemma mount_geometry_table_request k (fs : ext2_fs_t) a sb k' (fs' : ext2_fs_t) :
  mount_geometry k fs a sb = Done (k', fs', 0) ->
  exists h2 g,
    kmalloc (k_heap k) (u32 (sb_gdt_blocks sb * sb_block_size sb)) = (h2, Some g).
Proof.
  unfold mount_geometry.
  destruct (shl_int 1024 (s_log_block_size sb)) as [v | |] eqn:Sh; simpl; try discriminate.
  apply shl_int_Done in Sh as (Hn & -> & Hv). fold (sb_block_size sb) in Hv |- *.
  assert (Hr : 1024 <= sb_block_size sb < 2 ^ 31).
  { split; [| exact Hv]. unfold sb_block_size.
    assert (1 <= 2 ^ s_log_block_size sb) by (apply Z.pow_le_mono_r with (b := 0); lia).
    lia. }
  rewrite (VFSProps.u32_small (sb_block_size sb)) by lia.
  destruct ((sb_block_size sb <? EXT2_MIN_BLOCK_SIZE)
            || (EXT2_MAX_BLOCK_SIZE <? sb_block_size sb)); [discriminate |].
  destruct (udiv _ (s_blocks_per_group sb)) as [ng | |] eqn:Ng; simpl; try discriminate.
  apply udiv_Done in Ng as [_ ->].
  destruct (udiv (sb_block_size sb) _) as [ipb | |]; simpl; try discriminate.
  destruct (udiv _ (sb_block_size sb / sizeof_group_desc)) as [gdt_blocks | |] eqn:Gb;
    simpl; try discriminate.
  apply udiv_Done in Gb as [_ ->].
  destruct (do_kmalloc k _) as [k1 [g |]] eqn:Km; [| discriminate].
  apply do_kmalloc_heap in Km. intros _. exists (k_heap k1), g. exact Km.
Qed.

(** X31: when the allocator answers a zero-byte request with NULL, a
    mount that returns 0 has [num_groups > 0]: a superblock that yields no
    group makes [ext2_mount] ask for a descriptor table of zero bytes, and
    the mount fails on the NULL it gets. *)
Theorem ext2_mount_groups_strict_allocator
    k (fs : option ext2_fs_t) (dev : option Z) k' f :
  (forall h, snd (kmalloc h 0) = None) ->
  ext2_mount k fs dev = Done (k', Some f, 0) ->
  0 < num_groups f.
Proof.
  intros Hstrict. unfold ext2_mount.
  destruct fs as [fs0 |], dev as [d |]; try discriminate.
  destruct (do_kmalloc k EXT2_SUPERBLOCK_SIZE) as [k1 [a |]]; [| discriminate].
  unfold virtio_blk_read. cbn [k_dev k_heap k_errno k_reads].
  destruct (sector_data (k_dev k1) 2) as [lo |]; [| discriminate].
  cbn [k_dev k_heap k_errno k_reads].
  destruct (sector_data (k_dev k1) 3) as [hi |]; [| discriminate].
  destruct (negb (s_magic (lo ++ hi) =? EXT2_SUPER_MAGIC)); [discriminate |].
  destruct (mount_geometry _ _ a (lo ++ hi)) as [[[k4 fs2] ret] | |] eqn:G;
    simpl; try discriminate.
  intros [= <- <- ->]. set (sb := lo ++ hi) in *.
  pose proof (mount_geometry_fields _ _ _ _ _ _ G) as (Hbpg & _ & Hng & _ & _ & Hr).
  apply mount_geometry_table_request in G as (h2 & g & Hk).
  rewrite Hng.
  pose proof (le32_range sb 32) as Hb. fold (s_blocks_per_group sb) in Hb.
  assert (Hnn : 0 <= sb_num_groups sb).
  { unfold sb_num_groups. apply Z.div_pos; [apply u32_nonneg | lia]. }
  destruct (Z.eq_dec (sb_num_groups sb) 0) as [E | E]; [| lia].
  exfalso.
  assert (Hd : 32 <= sb_desc_per_block sb < 2 ^ 26).
  { unfold sb_desc_per_block, sizeof_group_desc. split.
    - apply Z.div_le_lower_bound; lia.
    - apply Z.div_lt_upper_bound; lia. }
  assert (Hz : sb_gdt_blocks sb = 0).
  { unfold sb_gdt_blocks. rewrite E, VFSProps.u32_small by lia.
    apply Z.div_small. lia. }
  rewrite Hz in Hk. change (u32 (0 * sb_block_size sb)) with 0 in Hk.
  match type of Hk with
  | kmalloc ?h _ = _ => pose proof (Hstrict h) as Hs
  end.
  rewrite Hk in Hs. discriminate Hs.
Qed.

End Facts.

End Ext2More.

(** * Properties of [uart.c] *)

Module UartProps.

Import Uart.

Section Facts.

Context `{DV : Device}.

Implicit Types (m : mmio) (c : Z) (fuel k : nat).

Lemma uart_putc_step fuel m c :
  uart_putc (S fuel) m c
  = if tx_idle_at (reads m)
    then Done (mk_mmio (S (reads m)) (stores m ++ [(UART_THR, c mod 256)]))
    else uart_putc fuel (mk_mmio (S (reads m)) (stores m)) c.
Proof.
  cbn [uart_putc]. unfold uart_read_reg, tx_idle_at, uart_write_reg. cbn [reads stores].
  destruct (Z.land (answers (reads m) UART_LSR mod 256) LSR_TX_IDLE =? 0); reflexivity.
Qed.

Lemma uart_getc_step fuel m :
  uart_getc (S fuel) m
  = if rx_ready_at (reads m)
    then Done (mk_mmio (S (S (reads m))) (stores m),
               answers (S (reads m)) UART_RBR mod 256)
    else uart_getc fuel (mk_mmio (S (reads m)) (stores m)).
Proof.
  cbn [uart_getc]. unfold uart_read_reg, rx_ready_at. cbn [reads stores].
  destruct (Z.land (answers (reads m) UART_LSR mod 256) 1 =? 0); reflexivity.
Qed.

Lemma uart_putc_first_idle k :
  forall fuel m c,
    (forall j, (j < k)%nat -> tx_idle_at (reads m + j) = false) ->
    tx_idle_at (reads m + k) = true ->
    uart_putc fuel m c
    = if (k <? fuel)%nat
      then Done (mk_mmio (reads m + k + 1) (stores m ++ [(UART_THR, c mod 256)]))
      else OutOfFuel.
Proof.
  induction k as [| k IH]; intros fuel m c Hbusy Hidle.
  - destruct fuel as [| fuel]; [reflexivity |].
    rewrite uart_putc_step. rewrite Nat.add_0_r in Hidle. rewrite Hidle.
    rewrite Nat.add_0_r. replace (reads m + 1)%nat with (S (reads m)) by lia. reflexivity.
  - destruct fuel as [| fuel]; [reflexivity |].
    rewrite uart_putc_step.
    pose proof (Hbusy 0%nat ltac:(lia)) as H0. rewrite Nat.add_0_r in H0. rewrite H0.
    rewrite (IH fuel (mk_mmio (S (reads m)) (stores m)) c); cbn [reads stores].
    + change (S k <? S fuel)%nat with (k <? fuel)%nat.
      replace (S (reads m) + k + 1)%nat with (reads m + S k + 1)%nat by lia. reflexivity.
    + intros j Hj. replace (S (reads m) + j)%nat with (reads m + S j)%nat by lia.
      apply Hbusy. lia.
    + replace (S (reads m) + k)%nat with (reads m + S k)%nat by lia. exact Hidle.
Qed.

Lemma uart_getc_first_ready k :
  forall fuel m,
    (forall j, (j < k)%nat -> rx_ready_at (reads m + j) = false) ->
    rx_ready_at (reads m + k) = true ->
    uart_getc fuel m
    = if (k <? fuel)%nat
      then Done (mk_mmio (reads m + k + 2) (stores m),
                 answers (reads m + k + 1) UART_RBR mod 256)
      else OutOfFuel.
Proof.
  induction k as [| k IH]; intros fuel m Hbusy Hready.
  - destruct fuel as [| fuel]; [reflexivity |].
    rewrite uart_getc_step. rewrite Nat.add_0_r in Hready. rewrite Hready.
    rewrite Nat.add_0_r.
    replace (reads m + 2)%nat with (S (S (reads m))) by lia.
    replace (reads m + 1)%nat with (S (reads m)) by lia. reflexivity.
  - destruct fuel as [| fuel]; [reflexivity |].
    rewrite uart_getc_step.
    pose proof (Hbusy 0%nat ltac:(lia)) as H0. rewrite Nat.add_0_r in H0. rewrite H0.
    rewrite (IH fuel (mk_mmio (S (reads m)) (stores m))); cbn [reads stores].
    + change (S k <? S fuel)%nat with (k <? fuel)%nat.
      replace (S (reads m) + k + 2)%nat with (reads m + S k + 2)%nat by lia.
      replace (S (reads m) + k + 1)%nat with (reads m + S k + 1)%nat by lia. reflexivity.
    + intros j Hj. replace (S (reads m) + j)%nat with (reads m + S j)%nat by lia.
      apply Hbusy. lia.
    + replace (S (reads m) + k)%nat with (reads m + S k)%nat by lia. exact Hready.
Qed.

(** X27: [uart_putc] reads the line status register until the
    transmitter is idle and then stores the character in the transmit
    register, once: if the transmitter is busy at the next [k] reads and
    idle at the one after, the call makes [k + 1] reads and one store, and
    it stores nothing while the transmitter is busy.  [uart_getc] reads
    the status until a byte is waiting and then reads the receive
    register, once, and returns that byte; it stores nothing. *)
Theorem uart_putc_getc_poll m c k fuel :
  (k < fuel)%nat ->
  ((forall j, (j < k)%nat -> tx_idle_at (reads m + j) = false) ->
   tx_idle_at (reads m + k) = true ->
   uart_putc fuel m c
   = Done (mk_mmio (reads m + k + 1) (stores m ++ [(UART_THR, c mod 256)]))
   /\ uart_putc k m c = OutOfFuel)
  /\ ((forall j, (j < k)%nat -> rx_ready_at (reads m + j) = false) ->
      rx_ready_at (reads m + k) = true ->
      uart_getc fuel m
      = Done (mk_mmio (reads m + k + 2) (stores m),
              answers (reads m + k + 1) UART_RBR mod 256)
      /\ uart_getc k m = OutOfFuel).
Proof.
  intros Hk. split; intros Hbusy Hrdy.
  - rewrite !(uart_putc_first_idle k _ m c Hbusy Hrdy).
    rewrite (proj2 (Nat.ltb_lt k fuel) Hk), Nat.ltb_irrefl. auto.
  - rewrite !(uart_getc_first_ready k _ m Hbusy Hrdy).
    rewrite (proj2 (Nat.ltb_lt k fuel) Hk), Nat.ltb_irrefl. auto.
Qed.

(** *** [uart_puts] *)

Lemma uart_putc_idle_within (j : nat) :
  forall fuel m c,
    (j < fuel)%nat ->
    tx_idle_at (reads m + j) = true ->
    exists m', uart_putc fuel m c = Done m'
               /\ stores m' = stores m ++ transmit [c mod 256].
Proof.
  induction j as [| j IH]; intros fuel m c Hj Hidle;
    (destruct fuel as [| fuel]; [lia |]); rewrite uart_putc_step;
    destruct (tx_idle_at (reads m)) eqn:H0; try (eexists; split; reflexivity).
  - rewrite Nat.add_0_r in Hidle. congruence.
  - apply (IH fuel (mk_mmio (S (reads m)) (stores m)) c); [lia |]. cbn [reads].
    replace (S (reads m) + j)%nat with (reads m + S j)%nat by lia. exact Hidle.
Qed.

Lemma uart_putc_responsive fuel m c :
  responsive fuel ->
  exists m', uart_putc fuel m c = Done m'
             /\ stores m' = stores m ++ transmit [c mod 256].
Proof.
  intros Hr. destruct (Hr (reads m)) as (j & Hj & Hidle).
  exact (uart_putc_idle_within j fuel m c Hj Hidle).
Qed.

Lemma crlf_head (l : list Z) : forall r, crlf l <> 10 :: r.
Proof.
  destruct l as [| c l]; intros r; simpl; [discriminate |].
  destruct (Z.eqb_spec c 10); [discriminate |]. intros [= E _]. contradiction.
Qed.

Lemma uncrlf_crlf (l : list Z) : uncrlf (crlf l) = l.
Proof.
  induction l as [| c l IH]; [reflexivity |].
  cbn [crlf]. destruct (Z.eqb_spec c 10) as [-> | Hc].
  - cbn [uncrlf]. change ((13 =? 13) && (10 =? 10)) with true. cbn iota. now rewrite IH.
  - cbn [uncrlf]. destruct (crlf l) as [| d r] eqn:E.
    + destruct l as [| x l]; [reflexivity |]. simpl in E.
      destruct (x =? 10); discriminate.
    + destruct (Z.eqb_spec d 10) as [-> | Hd].
      * exfalso. exact (crlf_head l r E).
      * rewrite andb_false_r. now rewrite IH.
Qed.

Lemma lf_after_cr_crlf (l : list Z) : forall prev, lf_after_cr prev (crlf l) = true.
Proof.
  induction l as [| c l IH]; intros prev; [reflexivity |].
  cbn [crlf]. destruct (Z.eqb_spec c 10) as [-> | Hc]; cbn [lf_after_cr].
  - change (13 =? 10) with false. change (10 =? 10) with true.
    change (13 =? 13) with true. cbn. apply IH.
  - destruct (Z.eqb_spec c 10); [contradiction |]. cbn. apply IH.
Qed.

Lemma crlf_length (l : list Z) :
  length (crlf l) = (length l + length (filter (fun c => c = 10%Z) l))%nat.
Proof.
  induction l as [| c l IH]; [reflexivity |].
  cbn [crlf]. rewrite filter_cons.
  destruct (Z.eqb_spec c 10) as [-> | Hc].
  - rewrite decide_True by reflexivity. simpl. rewrite IH. lia.
  - rewrite decide_False by assumption. simpl. rewrite IH. lia.
Qed.

Lemma uart_puts_from_sends fuel (s : string) :
  responsive fuel ->
  forall m, exists m',
    uart_puts_from fuel m s = Done m'
    /\ stores m' = stores m ++ transmit (crlf (cstring s)).
Proof.
  intros Hr. induction s as [| ch rest IH]; intros m.
  - exists m. split; [reflexivity |]. simpl. now rewrite app_nil_r.
  - cbn [uart_puts_from cstring].
    destruct (Z.eqb_spec (VFS.uchar ch) 0) as [E | E].
    { exists m. split; [reflexivity |]. simpl. now rewrite app_nil_r. }
    pose proof (VFSMore.uchar_range ch) as Hrange.
    cbn [crlf]. destruct (Z.eqb_spec (VFS.uchar ch) 10) as [E10 | E10].
    + destruct (uart_putc_responsive fuel m 13 Hr) as (m1 & -> & S1). cbn [bind].
      destruct (uart_putc_responsive fuel m1 (VFS.uchar ch) Hr) as (m2 & -> & S2).
      cbn [bind]. destruct (IH m2) as (m' & -> & S3).
      exists m'. split; [reflexivity |].
      rewrite S3, S2, S1, E10. unfold transmit. simpl. now rewrite <- !app_assoc.
    + cbn [bind].
      destruct (uart_putc_responsive fuel m (VFS.uchar ch) Hr) as (m2 & -> & S2).
      cbn [bind]. destruct (IH m2) as (m' & -> & S3).
      exists m'. split; [reflexivity |].
      rewrite S3, S2, (Z.mod_small (VFS.uchar ch) 256) by lia.
      unfold transmit. simpl. now rewrite <- !app_assoc.
Qed.

(** X28: when the transmitter is never busy for [fuel] reads in a row,
    [uart_puts] returns and has stored, in the transmit register and
    nowhere else, the bytes of the string with a carriage return before
    every line feed: every line feed on the wire follows a carriage
    return, dropping those carriage returns gives the string back, and
    the number of bytes sent is the length of the string plus its number
    of line feeds.  [uart_puts(NULL)] is undefined. *)
Theorem uart_puts_sends_crlf fuel m (s : string) :
  responsive fuel ->
  (exists m' wire,
     uart_puts fuel m (Some s) = Done m'
     /\ stores m' = stores m ++ transmit wire
     /\ uncrlf wire = cstring s
     /\ lf_after_cr 0 wire = true
     /\ length wire
        = (length (cstring s) + length (filter (fun c => c = 10%Z) (cstring s)))%nat)
  /\ uart_puts fuel m None = Fault.
Proof.
  intros Hr. split; [| reflexivity].
  destruct (uart_puts_from_sends fuel s Hr m) as (m' & E & S).
  exists m', (crlf (cstring s)). split; [exact E |]. split; [exact S |].
  split; [apply uncrlf_crlf |]. split; [apply lf_after_cr_crlf | apply crlf_length].
Qed.

End Facts.

End UartProps.

(** * Properties of [kunit.c] *)

Module KUnitProps.

Import Uart KUnit UartProps.

Section Facts.

Context `{DV : Device} `{TS : Tests}.

Implicit Types (m : mmio) (buf : list (option Z)) (fuel : nat).

(** *** [print_int] *)

Lemma cells_down_insert_above buf (k j : nat) (x : option Z) :
  (k <= j)%nat -> cells_down (<[j := x]> buf) k = cells_down buf k.
Proof.
  induction k as [| k IH]; intros Hk; [reflexivity |].
  cbn [cells_down]. rewrite list_lookup_insert_ne by lia.
  rewrite IH by lia. reflexivity.
Qed.

Lemma cells_down_push buf (i : nat) (d : Z) (below : list Z) :
  (i < length buf)%nat ->
  cells_down buf i = Some below ->
  cells_down (<[i := Some d]> buf) (S i) = Some (d :: below).
Proof.
  intros Hi Hb. cbn [cells_down].
  rewrite list_lookup_insert_eq by exact Hi.
  rewrite cells_down_insert_above by lia. now rewrite Hb.
Qed.

Lemma parse_digits_app (l1 l2 : list Z) :
  forall acc, parse_digits acc (l1 ++ l2)
              = match parse_digits acc l1 with
                | Some a => parse_digits a l2
                | None => None
                end.
Proof.
  induction l1 as [| d l1 IH]; intros acc; [reflexivity |].
  simpl. destruct ((48 <=? d) && (d <=? 57)); [apply IH | reflexivity].
Qed.

Lemma parse_digits_bytes (l : list Z) :
  forall acc v, parse_digits acc l = Some v -> map (fun c => c mod 256) l = l.
Proof.
  induction l as [| d l IH]; intros acc v; [reflexivity |].
  simpl. destruct (Z.leb_spec 48 d); [| discriminate].
  destruct (Z.leb_spec d 57); [| discriminate]. simpl.
  intros Hp. rewrite (IH _ _ Hp). rewrite Z.mod_small by lia. reflexivity.
Qed.

(** The first loop, started with a positive value that has at most as
    many digits as cells are left: it stores the digits, the last one
    first, and what the second loop will send is the number in decimal,
    then what was below. *)
Lemma digits_loop_stores (n : nat) :
  forall v buf (i : nat) (below : list Z),
    0 < v ->
    v < 10 ^ (Z.of_nat (length buf) - Z.of_nat i) ->
    (length buf - i < n)%nat ->
    cells_down buf i = Some below ->
    exists buf' (i' : nat) ds d r,
      digits_loop n v buf (Z.of_nat i) = Done (buf', Z.of_nat i')
      /\ cells_down buf' i' = Some (ds ++ below)
      /\ parse_digits 0 ds = Some v
      /\ ds = d :: r /\ d <> 48.
Proof.
  induction n as [| n IH]; intros v buf i below Hv Hfit Hn Hbelow; [lia |].
  assert (Hi : (i < length buf)%nat).
  { destruct (Nat.lt_ge_cases i (length buf)) as [H | H]; [exact H |].
    replace (Z.of_nat (length buf) - Z.of_nat i) with (- (Z.of_nat i - Z.of_nat (length buf)))
      in Hfit by lia.
    destruct (Z.eq_dec (Z.of_nat i - Z.of_nat (length buf)) 0) as [E | E].
    - rewrite E in Hfit. simpl in Hfit. lia.
    - rewrite Z.pow_neg_r in Hfit by lia. lia. }
  cbn [digits_loop].
  destruct (Z.ltb_spec 0 v); [| lia].
  destruct (Z.leb_spec 0 (Z.of_nat i)); [| lia].
  destruct (Z.ltb_spec (Z.of_nat i) (Z.of_nat (length buf))); [| lia]. cbn [andb].
  rewrite Nat2Z.id.
  rewrite Z.quot_div_nonneg, Z.rem_mod_nonneg by lia.
  pose proof (Z.div_mod v 10 ltac:(lia)) as Hdm.
  pose proof (Z.mod_pos_bound v 10 ltac:(lia)) as Hm.
  set (d0 := 48 + v mod 10).
  set (buf1 := <[i := Some d0]> buf).
  assert (Hb1 : cells_down buf1 (S i) = Some (d0 :: below))
    by (apply cells_down_push; assumption).
  replace (Z.of_nat i + 1) with (Z.of_nat (S i)) by lia.
  destruct (Z.eq_dec (v / 10) 0) as [Hz | Hnz].
  - rewrite Hz. destruct n as [| n']; cbn [digits_loop]; change (0 <? 0) with false;
      cbn iota; exists buf1, (S i), [d0], d0, [];
      (split; [reflexivity |]); (split; [exact Hb1 |]);
      (split; [| split; [reflexivity | unfold d0; lia]]);
      unfold d0; cbn [parse_digits];
      (destruct (Z.leb_spec 48 (48 + v mod 10)); [| lia]);
      (destruct (Z.leb_spec (48 + v mod 10) 57); [| lia]); cbn [andb];
      f_equal; lia.
  - assert (Hq : 0 < v / 10).
    { pose proof (Z.div_pos v 10 ltac:(lia) ltac:(lia)). lia. }
    assert (Hlen1 : length buf1 = length buf) by apply length_insert.
    assert (Hfit1 : v / 10 < 10 ^ (Z.of_nat (length buf1) - Z.of_nat (S i))).
    { rewrite Hlen1. apply Z.div_lt_upper_bound; [lia |].
      replace (Z.of_nat (length buf) - Z.of_nat i)
        with (Z.succ (Z.of_nat (length buf) - Z.of_nat (S i))) in Hfit by lia.
      rewrite Z.pow_succ_r in Hfit by lia. exact Hfit. }
    destruct (IH (v / 10) buf1 (S i) (d0 :: below) Hq Hfit1 ltac:(lia) Hb1)
      as (buf' & i' & ds & d & r & E & Hc & Hp & Hds & Hd).
    exists buf', i', (ds ++ [d0]), d, (r ++ [d0]).
    split; [exact E |]. split; [rewrite Hc, <- app_assoc; reflexivity |].
    split; [| split; [rewrite Hds; reflexivity | exact Hd]].
    rewrite parse_digits_app, Hp. unfold d0. cbn [parse_digits].
    destruct (Z.leb_spec 48 (48 + v mod 10)); [| lia].
    destruct (Z.leb_spec (48 + v mod 10) 57); [| lia]. cbn [andb].
    f_equal. lia.
Qed.

Lemma emit_loop_sends fuel buf :
  responsive fuel ->
  forall (k : nat) m (l : list Z),
    cells_down buf k = Some l ->
    exists m', emit_loop fuel m buf k = Done m'
               /\ stores m' = stores m ++ transmit (map (fun c => c mod 256) l).
Proof.
  intros Hr. induction k as [| k IH]; intros m l.
  - intros [= <-]. exists m. split; [reflexivity |]. simpl. now rewrite app_nil_r.
  - cbn [cells_down emit_loop]. destruct (buf !! k) as [[c |] |]; try discriminate.
    destruct (cells_down buf k) as [l' |] eqn:E; [| discriminate].
    intros [= <-].
    destruct (uart_putc_responsive fuel m c Hr) as (m1 & -> & S1). cbn [bind].
    destruct (IH m1 l' eq_refl) as (m' & -> & S2).
    exists m'. split; [reflexivity |].
    rewrite S2, S1. unfold transmit. simpl. now rewrite <- app_assoc.
Qed.

Lemma print_positive fuel m (v : Z) :
  responsive fuel ->
  0 < v < 2 ^ 31 ->
  exists m' ds d r,
    bind (digits_loop 13 v (replicate 12 None) 0)
         (fun '(buf, i) => emit_loop fuel m buf (Z.to_nat i)) = Done m'
    /\ stores m' = stores m ++ transmit ds
    /\ parse_digits 0 ds = Some v
    /\ ds = d :: r /\ d <> 48.
Proof.
  intros Hr Hv.
  destruct (digits_loop_stores 13 v (replicate 12 None) 0 [])
    as (buf' & i' & ds & d & r & E & Hc & Hp & Hds & Hd);
    try (rewrite ?length_replicate; simpl; lia); [reflexivity |].
  change (Z.of_nat 0) with 0 in E. rewrite E. cbn [bind]. rewrite Nat2Z.id.
  rewrite app_nil_r in Hc.
  destruct (emit_loop_sends fuel buf' Hr i' m ds Hc) as (m' & Em & Sm).
  exists m', ds, d, r. split; [exact Em |].
  rewrite (parse_digits_bytes ds 0 v Hp) in Sm. auto.
Qed.

(** What [print_int] sends for an [int] other than [INT_MIN]. *)
Lemma print_int_sends fuel m (val : Z) :
  responsive fuel ->
  - 2 ^ 31 < val < 2 ^ 31 ->
  exists m' wire,
    print_int fuel m val = Done m'
    /\ stores m' = stores m ++ transmit wire
    /\ parse_int wire = Some val.
Proof.
  intros Hr Hval. unfold print_int.
  destruct (Z.eqb_spec val 0) as [-> | Hnz].
  { destruct (uart_putc_responsive fuel m 48 Hr) as (m' & E & S).
    exists m', [48]. split; [exact E |]. split; [exact S | reflexivity]. }
  destruct (Z.ltb_spec val 0) as [Hneg | Hpos].
  - destruct (uart_putc_responsive fuel m 45 Hr) as (m1 & -> & S1). cbn [bind].
    destruct (Z.eqb_spec val (- 2 ^ 31)); [lia |]. cbn [bind].
    destruct (print_positive fuel m1 (- val) Hr ltac:(lia))
      as (m' & ds & d & r & E & S & Hp & Hds & Hd).
    exists m', (45 :: ds). split; [exact E |].
    split; [rewrite S, S1; unfold transmit; simpl; now rewrite <- app_assoc |].
    unfold parse_int. change (45 =? 45) with true. cbn iota.
    unfold parse_unsigned. rewrite Hds.
    destruct (Z.eqb_spec d 48); [contradiction |]. rewrite <- Hds, Hp.
    destruct (Z.eqb_spec (- val) 0); [lia |]. f_equal. lia.
  - cbn [bind].
    destruct (print_positive fuel m val Hr ltac:(lia))
      as (m' & ds & d & r & E & S & Hp & Hds & Hd).
    exists m', ds. split; [exact E |]. split; [exact S |].
    unfold parse_int. rewrite Hds.
    assert (Hd45 : d <> 45).
    { intros ->. rewrite Hds in Hp. simpl in Hp. discriminate. }
    destruct (Z.eqb_spec d 45); [contradiction |].
    unfold parse_unsigned. destruct (Z.eqb_spec d 48); [contradiction |].
    rewrite <- Hds. exact Hp.
Qed.

(** X29: when the transmitter is never busy for [fuel] reads in a row,
    [print_int] of an [int] other than [INT_MIN] returns and has sent its
    decimal spelling: ["0"], or the digits without a leading zero, after a
    ['-'] if it is negative; reading the bytes sent as a decimal integer
    gives the value back, and the 12-byte buffer is not overrun.  On
    [INT_MIN] the negation overflows: undefined. *)
Theorem print_int_decimal fuel m (val : Z) :
  responsive fuel ->
  (- 2 ^ 31 < val < 2 ^ 31 ->
   exists m' wire,
     print_int fuel m val = Done m'
     /\ stores m' = stores m ++ transmit wire
     /\ parse_int wire = Some val)
  /\ print_int fuel m (- 2 ^ 31) = Fault.
Proof.
  intros Hr. split; [apply print_int_sends; exact Hr |].
  unfold print_int. change (- 2 ^ 31 =? 0) with false. cbn iota.
  change (- 2 ^ 31 <? 0) with true. cbn iota.
  destruct (uart_putc_responsive fuel m 45 Hr) as (m1 & -> & _). cbn [bind].
  rewrite Z.eqb_refl. reflexivity.
Qed.

(** *** [kunit_run_tests] *)

Lemma uart_puts_seq_Done fuel (l : list (option string)) :
  responsive fuel ->
  Forall (fun s => s <> None) l ->
  forall m, exists m', uart_puts_seq fuel m l = Done m'.
Proof.
  intros Hr Hl. induction Hl as [| s l Hs _ IH]; intros m; [now exists m |].
  cbn [uart_puts_seq]. destruct s as [str |]; [| contradiction].
  destruct (uart_puts_from_sends fuel str Hr m) as (m1 & E & _).
  cbn [uart_puts]. rewrite E. cbn [bind]. apply IH.
Qed.

Lemma failures_cons (t : kunit_test) (l : list kunit_test) :
  failures (t :: l) = (if status t =? TEST_SUCCESS then 0 else 1) + failures l.
Proof.
  unfold failures. rewrite filter_cons.
  destruct (Z.eqb_spec (status t) TEST_SUCCESS) as [E | E].
  - rewrite decide_False by (intros H; contradiction). lia.
  - rewrite decide_True by assumption. simpl length. lia.
Qed.

Lemma failures_range (l : list kunit_test) : 0 <= failures l <= Z.of_nat (length l).
Proof.
  unfold failures. pose proof (length_filter (fun t => status t <> TEST_SUCCESS) l). lia.
Qed.

Lemma failures_none (l : list kunit_test) :
  failures l = 0 <-> Forall (fun t => status t = TEST_SUCCESS) l.
Proof.
  induction l as [| t l IH]; [split; [constructor | reflexivity] |].
  rewrite failures_cons. pose proof (failures_range l) as Hr.
  destruct (Z.eqb_spec (status t) TEST_SUCCESS) as [E | E]; split.
  - intros H0. constructor; [exact E | apply IH; lia].
  - intros Hall. apply Forall_cons in Hall as [_ Hall]. apply IH in Hall. lia.
  - lia.
  - intros Hall. apply Forall_cons in Hall as [Ht _]. contradiction.
Qed.

Lemma run_each_counts fuel :
  responsive fuel ->
  tests_return ->
  forall (n i : nat) w m (cases : list kunit_test) passed failed,
    (i + n <= length cases)%nat ->
    (forall j t, (i <= j < i + n)%nat -> cases !! j = Some t ->
                 name t <> None /\ run t <> None) ->
    exists w' m' cases' passed' failed',
      run_each fuel n i w m cases passed failed = Done (w', m', cases', passed', failed')
      /\ length cases' = length cases
      /\ (forall j, (j < i \/ i + n <= j)%nat -> cases' !! j = cases !! j)
      /\ failed' = failed + failures (take n (drop i cases'))
      /\ passed' + failed' = passed + failed + Z.of_nat n
      /\ (forall j t0, (i <= j < i + n)%nat -> cases !! j = Some t0 ->
            exists t', cases' !! j = Some t' /\ run_on_reset t0 t').
Proof.
  intros Hr Hret. induction n as [| n IH]; intros i w m cases passed failed Hlen Hnames.
  - exists w, m, cases, passed, failed. split; [reflexivity |].
    split; [reflexivity |]. split; [auto |]. rewrite take_0. unfold failures. simpl.
    split; [lia |]. split; [lia |]. intros j t0 Hj. lia.
  - cbn [run_each].
    destruct (lookup_lt_is_Some_2 cases i ltac:(lia)) as [t0 Ht0]. rewrite Ht0.
    destruct (Hnames i t0 ltac:(lia) Ht0) as [Hname Hrun].
    destruct (run t0) as [f |] eqn:Ef; [| contradiction].
    destruct (name t0) as [nm |] eqn:En; [| contradiction]. cbn [name run].
    destruct (uart_puts_seq_Done fuel [Some "[ RUN      ] "; Some nm; Some LF] Hr
                ltac:(repeat constructor; discriminate) m) as (m1 & ->).
    cbn [bind].
    destruct (Hret f w m1 nm) as (w1 & m2 & t2 & Ecall & Hn2 & Hfail).
    rewrite Ecall.
    cbn [bind].
    set (cases1 := <[i := t2]> cases).
    assert (Hlen1 : length cases1 = length cases) by apply length_insert.
    assert (Hnames1 : forall j t, (S i <= j < S i + n)%nat -> cases1 !! j = Some t ->
                                  name t <> None /\ run t <> None).
    { intros j t Hj. unfold cases1. rewrite list_lookup_insert_ne by lia.
      apply Hnames. lia. }
    assert (Hi1 : cases1 !! i = Some t2)
      by (unfold cases1; apply list_lookup_insert_eq; lia).
    assert (Hfin : forall m3 p f',
              p + f' = passed + failed + 1 ->
              f' = failed + (if status t2 =? TEST_SUCCESS then 0 else 1) ->
              exists w' m' cases' passed' failed',
                run_each fuel n (S i) w1 m3 cases1 p f'
                = Done (w', m', cases', passed', failed')
                /\ length cases' = length cases
                /\ (forall j, (j < i \/ i + S n <= j)%nat -> cases' !! j = cases !! j)
                /\ failed' = failed + failures (take (S n) (drop i cases'))
                /\ passed' + failed' = passed + failed + Z.of_nat (S n)
                /\ (forall j t, (i <= j < i + S n)%nat -> cases !! j = Some t ->
                      exists t', cases' !! j = Some t' /\ run_on_reset t t')).
    { intros m3 p f' Hsum Hf.
      destruct (IH (S i) w1 m3 cases1 p f' ltac:(lia) Hnames1)
        as (w' & m' & cases' & passed' & failed' & E & Hl & Hout & Hcount & Htotal & Hcalls).
      exists w', m', cases', passed', failed'. split; [exact E |].
      split; [congruence |]. split.
      { intros j Hj. rewrite Hout by lia. unfold cases1.
        apply list_lookup_insert_ne. lia. }
      assert (Hi' : cases' !! i = Some t2) by (rewrite Hout by lia; exact Hi1).
      rewrite (drop_S _ _ _ Hi'). rewrite firstn_cons, failures_cons.
      split; [lia |]. split; [lia |].
      intros j t Hj Hjt. destruct (decide (j = i)) as [-> | Hne].
      - exists t2. split; [exact Hi' |].
        rewrite Ht0 in Hjt. injection Hjt as <-.
        exists f, w, m1, w1, m2. split; [exact Ef | rewrite En; exact Ecall].
      - apply (Hcalls j t); [lia |]. unfold cases1.
        rewrite list_lookup_insert_ne by lia. exact Hjt. }
    destruct (Z.eqb_spec (status t2) TEST_SUCCESS) as [Es | Es].
    + destruct (uart_puts_seq_Done fuel [Some "[       OK ] "; name t2; Some LF] Hr
                  ltac:(repeat constructor; try discriminate; exact Hn2) m2) as (m3 & ->).
      cbn [bind]. apply Hfin; lia.
    + destruct (Hfail Es) as [Hmsg Hline].
      destruct (uart_puts_seq_Done fuel
                  [Some "[  FAILED  ] "; name t2; Some LF;
                   Some "             "; failure_msg t2; Some " at line "] Hr
                  ltac:(repeat constructor; try discriminate; assumption) m2) as (m3 & ->).
      cbn [bind].
      destruct (print_int_sends fuel m3 (line t2) Hr Hline) as (m4 & wire & -> & _).
      cbn [bind].
      destruct (uart_puts_from_sends fuel LF Hr m4) as (m5 & E5 & _).
      cbn [uart_puts]. rewrite E5. cbn [bind].
      apply Hfin; lia.
Qed.

(** X30: when the transmitter is never busy for [fuel] reads in a row,
    the first [num_tests] records have a name and a function, and every
    test function returns and leaves a record that can be reported,
    [kunit_run_tests] returns the number of tests that left a status
    other than [TEST_SUCCESS]: a status left over from an earlier run does
    not count, since each record is reset before its function is called.
    The value is between 0 and [num_tests], and 0 exactly when every test
    succeeded; the records after the first [num_tests] are unchanged, and
    with [num_tests <= 0] no test is called. *)
Theorem kunit_run_tests_counts_failures fuel w m (cases : list kunit_test) (num_tests : Z) :
  responsive fuel ->
  tests_return ->
  - 2 ^ 31 < num_tests < 2 ^ 31 ->
  (Z.to_nat num_tests <= length cases)%nat ->
  Forall (fun t => name t <> None /\ run t <> None) (take (Z.to_nat num_tests) cases) ->
  exists w' m' cases' failed,
    kunit_run_tests fuel w m cases num_tests = Done (w', m', cases', failed)
    /\ failed = failures (take (Z.to_nat num_tests) cases')
    /\ 0 <= failed <= Z.max 0 num_tests
    /\ (failed = 0
        <-> Forall (fun t => status t = TEST_SUCCESS) (take (Z.to_nat num_tests) cases'))
    /\ length cases' = length cases
    /\ drop (Z.to_nat num_tests) cases' = drop (Z.to_nat num_tests) cases
    /\ (forall j t0, (j < Z.to_nat num_tests)%nat -> cases !! j = Some t0 ->
          exists t', cases' !! j = Some t' /\ run_on_reset t0 t')
    /\ (num_tests <= 0 -> cases' = cases /\ w' = w).
Proof.
  intros Hr Hret Hnum Hlen Hnames. unfold kunit_run_tests.
  set (n := Z.to_nat num_tests) in *.
  destruct (uart_puts_seq_Done fuel
              [Some LF; Some bar; Some ("  KUnit Test Suite - ThunderOS" +:+ LF);
               Some (bar +:+ LF)] Hr ltac:(repeat constructor; discriminate) m) as (m1 & ->).
  cbn [bind].
  destruct (run_each_counts fuel Hr Hret n 0 w m1 cases 0 0 ltac:(lia))
    as (w1 & m2 & cases1 & passed & failed & E & Hl & Hout & Hcount & Htotal & Hcalls).
  { intros j t Hj Hjt. rewrite Forall_lookup in Hnames. apply (Hnames j t).
    rewrite lookup_take_lt by lia. exact Hjt. }
  rewrite E. cbn [bind]. rewrite drop_0 in Hcount. rewrite Z.add_0_l in Hcount.
  pose proof (failures_range (take n cases1)) as Hrange.
  rewrite length_take in Hrange.
  assert (Hf : - 2 ^ 31 < failed < 2 ^ 31) by lia.
  assert (Hp : - 2 ^ 31 < passed < 2 ^ 31) by lia.
  destruct (uart_puts_seq_Done fuel
              [Some LF; Some bar; Some ("  Test Summary" +:+ LF); Some bar; Some "Total:  "]
              Hr ltac:(repeat constructor; discriminate) m2) as (m3 & ->).
  cbn [bind].
  destruct (print_int_sends fuel m3 num_tests Hr Hnum) as (m4 & ? & -> & _). cbn [bind].
  destruct (uart_puts_seq_Done fuel [Some LF; Some "Passed: "]
              Hr ltac:(repeat constructor; discriminate) m4) as (m5 & ->).
  cbn [bind].
  destruct (print_int_sends fuel m5 passed Hr Hp) as (m6 & ? & -> & _). cbn [bind].
  destruct (uart_puts_seq_Done fuel [Some LF; Some "Failed: "]
              Hr ltac:(repeat constructor; discriminate) m6) as (m7 & ->).
  cbn [bind].
  destruct (print_int_sends fuel m7 failed Hr Hf) as (m8 & ? & -> & _). cbn [bind].
  destruct (uart_puts_seq_Done fuel
              [Some LF;
               Some (if failed =? 0 then LF +:+ "ALL TESTS PASSED" +:+ LF
                     else LF +:+ "SOME TESTS FAILED" +:+ LF);
               Some (bar +:+ LF)]
              Hr ltac:(repeat constructor; discriminate) m8) as (m9 & ->).
  cbn [bind].
  exists w1, m9, cases1, failed. split; [reflexivity |].
  split; [exact Hcount |]. split; [lia |].
  split; [rewrite Hcount; apply failures_none |].
  split; [exact Hl |]. split; [| split].
  - apply list_eq. intros j. rewrite !lookup_drop. apply Hout. lia.
  - intros j t0 Hj. apply Hcalls. lia.
  - intros Hle. assert (Hn0 : n = 0%nat) by lia.
    rewrite Hn0 in E. cbn [run_each] in E. injection E as <- _ <- _ _. auto.
Qed.

End Facts.

End KUnitProps.

(** * More runs at concrete inputs *)

Module MoreRuns.

Import VFS Ext2 Demo VFSMore Ext2More.

(** After boot the first descriptor handed out is 3, which was free. *)
Lemma vfs_alloc_fd_after_boot :
  snd (vfs_alloc_fd booted) = 3
  /\ vfs_get_file booted 3 = None
  /\ vfs_get_file (fst (vfs_alloc_fd booted)) 3 = Some fresh_row.
Proof.
  destruct (vfs_alloc_fd_smallest_free booted (fst (vfs_alloc_fd booted)) 3)
    as (_ & Hfree & _ & Hrow & _); [vm_compute; reflexivity | lia |].
  split; [reflexivity | split; [exact Hfree | exact Hrow]].
Defined.

(** After boot the table has its 8 rows, and an allocation that fails
    leaves it as it is. *)
Lemma vfs_alloc_fd_booted_table :
  table_full_size booted
  /\ (snd (vfs_alloc_fd booted) = -1 -> fst (vfs_alloc_fd booted) = booted).
Proof.
  assert (H : table_full_size booted) by (vm_compute; reflexivity).
  split; [exact H | exact (proj2 (vfs_alloc_fd_full booted H))].
Defined.

(** Closing descriptor 3 of [opened] gives 0, closing it again -1. *)
Lemma vfs_close_twice :
  vfs_close opened 3 = Done (closed, 0)
  /\ vfs_get_file closed 3 = None
  /\ vfs_close closed 3 = Done (closed, -1).
Proof.
  assert (H : vfs_close opened 3 = Done (closed, 0)) by (vm_compute; reflexivity).
  destruct (vfs_close_releases opened 3 closed 0 H) as (_ & _ & _ & _ & Hn & Hc).
  split; [exact H | split; [exact Hn | exact Hc]].
Defined.

(** Opening [/a/b] after boot gives descriptor 3, on node 12, the node
    the path resolves to, at position 0. *)
Lemma vfs_open_a_b :
  vfs_open booted (Some "/a/b") O_RDONLY = Done (opened, 3)
  /\ vfs_get_file booted 3 = None
  /\ vfs_resolve_path booted (Some "/a/b") = Done (booted, Some 12%nat)
  /\ exists f, vfs_get_file opened 3 = Some f /\ node f = Some 12%nat /\ pos f = 0.
Proof.
  assert (H : vfs_open booted (Some "/a/b") O_RDONLY = Done (opened, 3))
    by (vm_compute; reflexivity).
  destruct (vfs_open_success booted (Some "/a/b") O_RDONLY opened 3 H ltac:(lia))
    as (_ & Hfree & _ & (f & n & Hf & Hn & _ & Hp & _ & _ & Htie) & _).
  split; [exact H |]. split; [exact Hfree |]. split; [reflexivity |].
  assert (En : n = 12%nat).
  { destruct Htie as [(st1 & R) | (Hc & _)]; [| discriminate Hc].
    vm_compute in R. now injection R as _ <-. }
  subst n. exists f. split; [exact Hf |]. split; [exact Hn |]. apply Hp. reflexivity.
Defined.

(** Seeking descriptor 3 leaves descriptors 0 and 4 as they were. *)
Lemma vfs_seek_leaves_others :
  vfs_seek opened 3 100 SEEK_SET = Done (sought, 100)
  /\ vfs_get_file sought 0 = vfs_get_file opened 0
  /\ vfs_get_file sought 4 = vfs_get_file opened 4.
Proof.
  assert (H : vfs_seek opened 3 100 SEEK_SET = Done (sought, 100))
    by (vm_compute; reflexivity).
  destruct (vfs_io_moves_own_position_only opened 3 sought 100 100 SEEK_SET 0 0 (or_introl H))
    as (_ & Hother & _).
  split; [exact H |]. split; apply Hother; lia.
Defined.

(** Open then close after boot: 0, and no descriptor from 3 up in use. *)
Lemma vfs_open_close_a_b :
  in_use <$> g_file_table closed = in_use <$> g_file_table booted.
Proof.
  refine (proj1 (proj2 (vfs_open_then_close booted (Some "/a/b") O_RDONLY opened 3 closed 0
                          _ _ _)));
    [vm_compute; reflexivity | lia | vm_compute; reflexivity].
Defined.

(** Descriptor 3 of [opened] is open read-only, and a write of 5 bytes
    through it reaches the filesystem and returns 5. *)
Lemma vfs_write_read_only_descriptor :
  flags <$> vfs_get_file opened 3 = Some O_RDONLY
  /\ exists st', vfs_write opened 3 0 5 = Done (st', 5).
Proof.
  split; [vm_compute; reflexivity |].
  destruct (vfs_access_mode opened 3 (mk_file (Some 12%nat) 0 0 true) 12%nat
              (mk_node 1 14 (Some 1%nat)) 1%nat 0 5) as [_ Hw];
    try (vm_compute; reflexivity).
  destruct (Hw (fun w _ _ _ sz => (w, sz)) (env opened) 5 eq_refl eq_refl) as [_ Hpos].
  destruct Hpos as (st' & Hst & _); [lia | vm_compute; eexists; reflexivity |].
  exists st'. exact Hst.
Defined.

(** [/a/b] exists after boot, and [vfs_stat] stores its size 14 and its
    type 1. *)
Lemma vfs_stat_a_b :
  vfs_stat booted (Some "/a/b") true true = Done (booted, 0, Some 14, Some 1)
  /\ vfs_exists booted (Some "/a/b") = Done (booted, 1).
Proof.
  assert (H : vfs_stat booted (Some "/a/b") true true = Done (booted, 0, Some 14, Some 1))
    by (vm_compute; reflexivity).
  destruct (vfs_stat_agrees_with_exists booted (Some "/a/b") booted 0 (Some 14) (Some 1) H)
    as (_ & e & He & [[_ ->] | [Hr _]] & _); [| discriminate].
  split; [exact H | exact He].
Defined.

(** ["/a/b//"] resolves as ["/a/b"]. *)
Lemma vfs_resolve_a_b_slashes :
  vfs_resolve_path booted (Some "/a/b//") = vfs_resolve_path booted (Some "/a/b").
Proof.
  refine (proj1 (vfs_resolve_path_trailing_slashes booted ["a"; "b"] 2 _ _));
    [repeat constructor; discriminate | discriminate].
Defined.

(** Two names of 256 characters that differ in the last one resolve
    alike. *)
Lemma vfs_resolve_long_names :
  vfs_resolve_path booted (Some ("/" +:+ long_name "y"))
  = vfs_resolve_path booted (Some ("/" +:+ long_name "z")).
Proof.
  refine (proj1 (vfs_resolve_path_first_255 booted [long_name "y"] [long_name "z"] _ _ _)).
  - constructor; [split; [vm_compute; discriminate | vm_compute; reflexivity] | constructor].
  - constructor; [split; [vm_compute; discriminate | vm_compute; reflexivity] | constructor].
  - constructor; [vm_compute; reflexivity | constructor].
Defined.

(** ["abc"] and ["abd"]: not equal, ['c' - 'd' = -1]. *)
Lemma strcmp_abc_abd :
  strcmp "abc" "abd" = -1 /\ strcmp "abd" "abc" = - strcmp "abc" "abd".
Proof.
  split; [reflexivity |].
  exact (proj1 (proj2 (strcmp_compares "abc" "abd" eq_refl eq_refl))).
Defined.

(** Block 1 of [small_volume], the superblock, read into the second half
    of a buffer: the first half is untouched, the second holds bytes 1024
    to 2047 of the device. *)
Lemma read_block_superblock :
  read_block (toy_kenv small_volume) 1 (replicate 2048 xff) 1024 1024
  = Done (fst block_read, Some (snd block_read))
  /\ snd block_read = replicate 1024 xff ++ device_bytes small_volume 1024 1024
  /\ k_reads (fst block_read) = [2; 3].
Proof.
  assert (H : read_block (toy_kenv small_volume) 1 (replicate 2048 xff) 1024 1024
              = Done (fst block_read, Some (snd block_read))) by (vm_compute; reflexivity).
  destruct (read_block_copies (toy_kenv small_volume) 1 (replicate 2048 xff) 1024 1024
              (fst block_read) (snd block_read) ltac:(lia) ltac:(lia) H)
    as (Hb & _ & Ht & _).
  split; [exact H |]. split; [| exact Ht].
  rewrite Hb. vm_compute. reflexivity.
Defined.

(** Block 2 of [faulty_volume]: sector 4 is read, sector 5 fails. *)
Lemma read_block_faulty :
  exists before s after,
    block_sectors 2 1024 = before ++ s :: after
    /\ Forall (fun s => sector_data faulty_volume s <> None) before
    /\ sector_data faulty_volume s = None
    /\ k_reads failed_read = [] ++ before ++ [s].
Proof.
  refine (read_block_stops_at_first_failure (toy_kenv faulty_volume) 2
            (replicate 1024 x00) 0 1024 failed_read None _).
  vm_compute. reflexivity.
Defined.

(** The mount of [faulty_volume] fails on the descriptor table and
    leaves both buffer pointers NULL. *)
Lemma ext2_mount_faulty :
  exists f, snd failed_mount = Some f
            /\ device f = Some 1 /\ superblock f = None /\ group_desc f = None.
Proof.
  destruct (ext2_mount_all_or_nothing (toy_kenv faulty_volume) (Some blank_fs) (Some 1)
              (fst failed_mount) (snd failed_mount) (-1)) as (_ & _ & _ & Hf);
    [vm_compute; reflexivity |].
  destruct (Hf blank_fs 1 eq_refl eq_refl) as (f & Ef & Hd & _ & Hn).
  exists f. split; [exact Ef |]. split; [exact Hd |]. apply Hn. reflexivity.
Defined.

(** The failed mount of [faulty_volume] has requested both buffers, and
    handed back both. *)
Lemma ext2_mount_faulty_heap :
  exists h1 p,
    kmalloc (k_heap (toy_kenv faulty_volume)) EXT2_SUPERBLOCK_SIZE = (h1, p)
    /\ p = Some 0x1000.
Proof.
  destruct (ext2_mount_releases_buffers (toy_kenv faulty_volume) blank_fs 1
              (fst failed_mount) (snd failed_mount) (-1)) as (h1 & p & Hk & _);
    [vm_compute; reflexivity |].
  exists h1, p. split; [exact Hk |].
  vm_compute in Hk. now injection Hk as _ <-.
Defined.

(** [ext2_mount] returns on [small_volume]. *)
Lemma ext2_mount_small_volume_returns :
  exists k' fs' r,
    ext2_mount (toy_kenv small_volume) (Some blank_fs) (Some 1) = Done (k', fs', r).
Proof.
  apply (ext2_mount_returns (toy_kenv small_volume) (Some blank_fs) (Some 1)).
  intros lo hi H2 H3 _.
  vm_compute in H2. injection H2 as <-.
  vm_compute in H3. injection H3 as <-.
  repeat split; vm_compute; congruence.
Defined.

(** [ext2_mount] returns 0 on [small_volume]: 1024-byte blocks, one
    group, 32 descriptors per block. *)
Lemma ext2_mount_small_volume_succeeds :
  exists k' f,
    ext2_mount (toy_kenv small_volume) (Some blank_fs) (Some 1) = Done (k', Some f, 0)
    /\ block_size f = 1024 /\ num_groups f = 1 /\ desc_per_block f = 32.
Proof.
  destruct (ext2_mount_succeeds (toy_kenv small_volume) blank_fs 1
              (0x1000 + 1024 + 16) 0x1000 (0x1000 + 1024 + 16 + 1024 + 16) (0x1000 + 1024 + 16)
              (default [] (sector_data small_volume 2))
              (default [] (sector_data small_volume 3)))
    as (k' & f & E & Hb & Hn & Hd); try (vm_compute; reflexivity).
  - repeat split; vm_compute; congruence.
  - split; vm_compute; congruence.
  - repeat constructor; vm_compute; congruence.
  - exists k', f. split; [exact E |].
    rewrite Hb, Hn, Hd. vm_compute. auto.
Defined.

(** On [zero_group_volume] the mount divides by zero. *)
Lemma ext2_mount_zero_group_volume :
  ext2_mount (toy_kenv zero_group_volume) (Some blank_fs) (Some 1) = Fault.
Proof.
  refine (ext2_mount_zero_blocks_per_group (toy_kenv zero_group_volume) blank_fs 1
            (0x1000 + 1024 + 16) 0x1000
            (default [] (sector_data zero_group_volume 2))
            (default [] (sector_data zero_group_volume 3)) _ _ _ _ _ _ _);
    try (vm_compute; reflexivity); try (vm_compute; congruence).
  split; vm_compute; congruence.
Defined.

(** [small_volume] announces 64 blocks in groups of 8192: one group. *)
Lemma ext2_mount_small_volume_groups :
  num_groups mounted_fs = 1
  /\ exists gbuf, group_desc mounted_fs = Some gbuf
                  /\ 32 * num_groups mounted_fs <= Z.of_nat (length (buf_bytes gbuf)).
Proof.
  split; [reflexivity |].
  destruct (ext2_mount_group_count (toy_kenv small_volume) (Some blank_fs) (Some 1)
              (fst mounted) mounted_fs) as (sbuf & gbuf & Hs & Hg & _ & _ & Hc);
    [vm_compute; reflexivity |].
  exists gbuf. split; [exact Hg |].
  vm_compute in Hs. injection Hs as <-.
  destruct Hc as (_ & _ & Hroom); [vm_compute; reflexivity |].
  apply Hroom; vm_compute; reflexivity.
Defined.

(** Before any mount, [vfs_open("/new", O_CREAT)] dereferences the NULL
    root filesystem; [vfs_mkdir("/new", 0755)] returns -1. *)
Lemma vfs_open_creat_unmounted :
  vfs_open unmounted (Some "/new") O_CREAT = Fault
  /\ vfs_mkdir unmounted (Some "/new") 493 = Done (unmounted, -1).
Proof.
  destruct (vfs_open_creat_without_root unmounted "new" O_CREAT) as (Ho & _ & Hm & _);
    [reflexivity | discriminate | reflexivity |].
  split; [apply Ho; reflexivity | apply Hm].
Defined.

(** [vfs_mkdir("/d", 0755)] after boot returns 0 and leaves the
    descriptor table and the mounted root as they were. *)
Lemma vfs_mkdir_d :
  vfs_mkdir booted (Some "/d") 493 = Done (made, 0)
  /\ g_file_table made = g_file_table booted
  /\ g_root_fs made = g_root_fs booted.
Proof.
  assert (H : vfs_mkdir booted (Some "/d") 493 = Done (made, 0)) by (vm_compute; reflexivity).
  destruct (vfs_directory_calls_frame booted (Some "/d") 493 made 0 (or_introl H))
    as (Ht & Hr & _).
  split; [exact H | split; [exact Ht | exact Hr]].
Defined.

(** On [strict_allocator], the mount of [small_volume] returns 0 with
    one group, and the mount of [empty_volume], whose superblock yields
    no group, returns -1. *)
Lemma ext2_mount_strict_volumes :
  (exists k' f, strict_mount small_volume = (k', Some f, 0) /\ 0 < num_groups f)
  /\ snd (strict_mount empty_volume) = -1.
Proof.
  split; [| vm_compute; reflexivity].
  exists (fst (fst (strict_mount small_volume))),
         (default blank_fs (snd (fst (strict_mount small_volume)))).
  split; [vm_compute; reflexivity |].
  apply (ext2_mount_groups_strict_allocator (AL := strict_allocator)
           (strict_kenv small_volume) (Some blank_fs) (Some 1)
           (fst (fst (strict_mount small_volume)))).
  - intros h. reflexivity.
  - vm_compute. reflexivity.
Defined.

End MoreRuns.

(** * Runs of the console code *)

Module ConsoleRuns.

Import Uart KUnit Demo UartProps KUnitProps.

(** The transmitter of [console] is never busy twice in a row. *)
Lemma console_responsive : responsive 2.
Proof.
  intros t. unfold tx_idle_at. cbn [answers console].
  change (UART_LSR =? UART_LSR) with true. cbn iota.
  destruct (Nat.even t) eqn:E.
  - exists 1%nat. split; [lia |].
    rewrite Nat.even_add, E. reflexivity.
  - exists 0%nat. split; [lia |].
    rewrite Nat.add_0_r, E. reflexivity.
Qed.

(** Every test function of [toy_tests] returns a record that can be
    reported. *)
Lemma toy_tests_return : tests_return.
Proof.
  intros f w m nm. cbn [test_fn toy_tests].
  eexists _, _, _. split; [reflexivity |].
  destruct (f =? 0)%nat; (split; [discriminate |]); cbn [status failure_msg line].
  - intros H. now contradiction H.
  - intros _. split; [discriminate | lia].
Qed.

(** On [console], [uart_putc('A')] finds the transmitter busy once, then
    idle: two reads, one store; [uart_getc] returns the byte 65 after
    three reads. *)
Lemma uart_putc_getc_console :
  uart_putc 5 quiet 65 = Done (mk_mmio 2 [(UART_THR, 65)])
  /\ uart_getc 5 quiet = Done (mk_mmio 3 [], 65).
Proof.
  destruct (uart_putc_getc_poll quiet 65 1 5 ltac:(lia)) as [Hp Hg].
  split.
  - apply Hp; [| reflexivity].
    intros j Hj. assert (j = 0%nat) as -> by lia. reflexivity.
  - apply Hg; [| reflexivity].
    intros j Hj. assert (j = 0%nat) as -> by lia. reflexivity.
Defined.

(** ["ok\n"] goes over the wire as ['o'], ['k'], CR, LF. *)
Lemma uart_puts_ok :
  exists m' wire,
    uart_puts 2 quiet (Some ("ok" +:+ LF)) = Done m'
    /\ stores m' = stores quiet ++ transmit wire
    /\ uncrlf wire = cstring ("ok" +:+ LF)
    /\ lf_after_cr 0 wire = true
    /\ length wire = 4%nat.
Proof.
  destruct (uart_puts_sends_crlf 2 quiet ("ok" +:+ LF) console_responsive)
    as [(m' & wire & E & S & Hu & Hl & Hn) _].
  exists m', wire. repeat (split; [assumption |]). rewrite Hn. reflexivity.
Defined.

(** [print_int(-305)] sends ['-'], ['3'], ['0'], ['5']. *)
Lemma print_int_minus_305 :
  (exists m' wire,
     print_int 2 quiet (-305) = Done m'
     /\ stores m' = stores quiet ++ transmit wire
     /\ parse_int wire = Some (-305))
  /\ stores <$> print_int_result (-305) = Some (transmit [45; 51; 48; 53]).
Proof.
  split; [| vm_compute; reflexivity].
  apply (proj1 (print_int_decimal 2 quiet (-305) console_responsive)). lia.
Defined.

(** The two cases of [toy_cases]: the first passes although its record
    carried a failure, the second fails; the result is 1. *)
Lemma kunit_run_toy_cases :
  exists w' m' cases',
    kunit_run_tests (TS := toy_tests) 2 0%nat quiet toy_cases 2 = Done (w', m', cases', 1)
    /\ status <$> cases' = [TEST_SUCCESS; TEST_FAILURE]
    /\ w' = 2%nat.
Proof.
  destruct (kunit_run_tests_counts_failures (TS := toy_tests) 2 0%nat quiet toy_cases 2
              console_responsive toy_tests_return ltac:(lia))
    as (w' & m' & cases' & failed & E & _);
    [simpl; lia | repeat constructor; discriminate |].
  exists w', m', cases'.
  vm_compute in E. injection E as <- <- <- <-.
  split; [vm_compute; reflexivity | split; reflexivity].
Defined.

End ConsoleRuns.
